(** * sg_ses: decoding of SES (SCSI Enclosure Services) diagnostic pages

    A shallow embedding of [sg_ses.c] (version 1.08 20041026).

    - A response buffer ([unsigned char resp[MX_ALLOC_LEN]]) is a list of
      integers read through [rd], which yields a value in 0..255; a pointer
      into the buffer ([ucp], [statp], [tp], [per_ucp]) is the buffer
      together with an offset.
    - [printf] and [fprintf(stderr, ...)] calls are recorded as [Printf]
      items holding the format string as it is written in the source and
      the evaluated arguments; [dStrHex] (sg_lib) is recorded with the bytes
      it is handed.
    - RECEIVE DIAGNOSTIC RESULTS ([do_rcvdiag]) is the transport: the device
      is a script of answers, and every command issued is logged.
    - The functions are embedded as they run with [verbose] = 0.  The status
      path ([ses_process_status] and everything below it) is covered;
      option parsing and the SEND DIAGNOSTIC path of [main] are not. *)

From Stdlib Require Import ZArith List String Bool Lia DecimalString.
Import ListNotations.
Local Open Scope string_scope.
Local Open Scope Z_scope.
Local Open Scope list_scope.

(** ** Constants *)

Definition MX_ALLOC_LEN : Z := 4096.
Definition MX_ELEM_HDR : Z := 512.

(** ** Buffers *)

Definition buf := list Z.

(** [resp[i]] for an [unsigned char] array. *)
Definition rd (b : buf) (i : Z) : Z := Z.land (nth (Z.to_nat i) b 0) 255.

(** The [n] bytes starting at offset [off]. *)
Definition bytes_at (b : buf) (off : Z) (n : nat) : list Z :=
  map (fun m => rd b (off + Z.of_nat m)) (seq 0 n).

(** What [%.Ns] prints of a byte sequence: it stops at the first NUL. *)
Fixpoint c_str (l : list Z) : list Z :=
  match l with
  | [] => []
  | c :: l' => if c =? 0 then [] else c :: c_str l'
  end.

(** [%d] as rendered by [snprintf] into a local buffer. *)
Definition dec (z : Z) : string := NilZero.string_of_int (Z.to_int z).

(** ** Output *)

Inductive stream := Stdout | Stderr.

Inductive arg :=
| AInt (z : Z)                      (* %d, %x, %02x *)
| AStr (s : string)                 (* %s of a string of the program *)
| ABytes (l : list Z)               (* %.Ns of bytes of the page *)
| ADbl (num : Z) (den : positive).  (* %.1f, %.2f of num/den *)

Inductive out_item :=
| Printf (st : stream) (fmt : string) (args : list arg)
| DStrHex (bytes : list Z) (no_ascii : Z).

Definition pr (fmt : string) (args : list arg) : out_item := Printf Stdout fmt args.
Definition epr (fmt : string) (args : list arg) : out_item := Printf Stderr fmt args.

(** C truth value of an integer, [!!x], and guarded output. *)
Definition nz (z : Z) : bool := negb (z =? 0).
Definition bang2 (z : Z) : Z := if z =? 0 then 0 else 1.
Definition ifp (c : bool) (l : list out_item) : list out_item := if c then l else [].

(** The 32-bit generation code at offset 4, big-endian ([unsigned int]). *)
Definition gen_code_of (resp : buf) : Z :=
  (Z.lor (Z.lor (Z.lor (Z.shiftl (rd resp 4) 24) (Z.shiftl (rd resp 5) 16))
                (Z.shiftl (rd resp 6) 8))
         (rd resp 7)) mod 2 ^ 32.

Definition truncated : out_item := epr "    <<<response too short>>>\n" [].

Definition enclosure_changed : out_item :=
  epr "  <<state of enclosure changed, please try again>>\n" [].

(** ** Descriptor catalogs *)

Record page_code_desc := mkPcd { page_code : Z; pc_desc : string }.

Definition pc_desc_arr : list page_code_desc :=
  [ mkPcd 0x0 "Supported diagnostic pages";
    mkPcd 0x1 "Configuration (SES)";
    mkPcd 0x2 "Enclosure status/control (SES)";
    mkPcd 0x3 "Help text (SES)";
    mkPcd 0x4 "String In/Out (SES)";
    mkPcd 0x5 "Threshold In/Out (SES)";
    mkPcd 0x6 "Array Status/Control (SES, obsolete)";
    mkPcd 0x7 "Element descriptor (SES)";
    mkPcd 0x8 "Short enclosure status (SES)";
    mkPcd 0x9 "Enclosure busy (SES-2)";
    mkPcd 0xa "Device element status (SES-2)";
    mkPcd 0xb "Subenclosure help text (SES-2)";
    mkPcd 0xc "Subenclosure string In/Out (SES-2)";
    mkPcd 0xd "Supported SES diagnostic pages (SES-2)";
    mkPcd 0x3f "Protocol specific SAS (SAS-1)";
    mkPcd 0x40 "Translate address (SBC)";
    mkPcd 0x41 "Device status (SBC)" ].

Fixpoint find_page_code_desc_loop (pcdp : list page_code_desc) (page_num : Z)
  : option string :=
  match pcdp with
  | [] => None
  | d :: rest =>
      if page_num =? page_code d then Some (pc_desc d)
      else if page_num <? page_code d then None
      else find_page_code_desc_loop rest page_num
  end.

Definition find_page_code_desc (page_num : Z) : option string :=
  find_page_code_desc_loop pc_desc_arr page_num.

Record element_desc := mkEd { type_code : Z; e_desc : string }.

Definition element_desc_arr : list element_desc :=
  [ mkEd 0x0 "Unspecified";
    mkEd 0x1 "Device";
    mkEd 0x2 "Power supply";
    mkEd 0x3 "Cooling";
    mkEd 0x4 "Temperature sense";
    mkEd 0x5 "Door lock";
    mkEd 0x6 "Audible alarm";
    mkEd 0x7 "Enclosure service controller electronics";
    mkEd 0x8 "SCC controller electronics";
    mkEd 0x9 "Nonvolatile cache";
    mkEd 0xa "Invalid operation reason";
    mkEd 0xb "Uninterruptible power supply";
    mkEd 0xc "Display";
    mkEd 0xd "Key pad entry";
    mkEd 0xe "Enclosure";
    mkEd 0xf "SCSI port/transceiver";
    mkEd 0x10 "Language";
    mkEd 0x11 "Communication port";
    mkEd 0x12 "Voltage sensor";
    mkEd 0x13 "Current sensor";
    mkEd 0x14 "SCSI target port";
    mkEd 0x15 "SCSI initiator port";
    mkEd 0x16 "Simple subenclosure";
    mkEd 0x17 "Array device" ].

Fixpoint find_element_desc_loop (edp : list element_desc) (tc : Z) : option string :=
  match edp with
  | [] => None
  | d :: rest =>
      if tc =? type_code d then Some (e_desc d)
      else if tc <? type_code d then None
      else find_element_desc_loop rest tc
  end.

Definition find_element_desc (tc : Z) : option string :=
  find_element_desc_loop element_desc_arr tc.

(** ** The element map *)

Record element_hdr := mkHdr {
  etype : Z;
  num_elements : Z;
  se_id : Z;
  unused : Z
}.

(** [static struct element_hdr element_hdr_arr[MX_ELEM_HDR]]: zero at start. *)
Definition element_hdr_arr : list element_hdr :=
  repeat (mkHdr 0 0 0 0) (Z.to_nat MX_ELEM_HDR).

(** [ehp[k]] read. *)
Definition ehp_get (ehp : list element_hdr) (k : Z) : element_hdr :=
  nth (Z.to_nat k) ehp (mkHdr 0 0 0 0).

Fixpoint list_set {A : Type} (n : nat) (x : A) (l : list A) : list A :=
  match l, n with
  | [], _ => []
  | _ :: t, O => x :: t
  | h :: t, S n' => h :: list_set n' x t
  end.

(** [ehp[k] = h].  A store outside the array is undefined in C: [None]. *)
Definition ehp_store (ehp : list element_hdr) (k : Z) (h : element_hdr)
  : option (list element_hdr) :=
  if (0 <=? k) && (k <? Z.of_nat (List.length ehp))
  then Some (list_set (Z.to_nat k) h ehp)
  else None.

(** The line naming an element type, printed by every decoder that walks
    element types; [indent] is the leading blanks of the format. *)
Definition element_type_line (indent : string) (tc sid : Z) : out_item :=
  match find_element_desc tc with
  | Some cp => pr (indent ++ "Element type: %s, subenclosure id: %d\n")%string
                  [AStr cp; AInt sid]
  | None => pr (indent ++ "Element type: [0x%x], subenclosure id: %d\n")%string
               [AInt tc; AInt sid]
  end.

(** [for (m = 0; m < n; ++m) printf(fmt, p[m])]. *)
Definition print_each (fmt : string) (b : buf) (off : Z) (n : nat) : list out_item :=
  map (fun x => pr fmt [AInt x]) (bytes_at b off n).

(** ** Supported diagnostic pages (page 0x0 and 0xd) *)

Fixpoint supported_pages_loop (n : nat) (resp : buf) (k prev : Z) : list out_item :=
  match n with
  | O => []
  | S n' =>
      let code := rd resp (k + 4) in
      if code <? prev then []      (* assume to be padding at end *)
      else
        let cp := find_page_code_desc code in
        pr "  %s [0x%x]\n"
           [AStr (match cp with Some s => s | None => "<unknown>" end); AInt code]
        :: supported_pages_loop n' resp (k + 1) code
  end.

Definition ses_supported_pages_sdg (leadin : string) (resp : buf) (resp_len : Z)
  : list out_item :=
  pr "%s:\n" [AStr leadin]
  :: supported_pages_loop (Z.to_nat (resp_len - 4)) resp 0 0.

(** ** Configuration page (page 0x1) *)

Section Configuration.
Variable resp : buf.
Variable resp_len : Z.

Let last_ucp : Z := resp_len - 1.

(** The walk over the subenclosure descriptors; [None] is [goto truncated],
    otherwise the cursor and [sum_elem_types] after the loop. *)
Fixpoint conf_subs (n : nat) (ucp sum_elem_types : Z)
  : list out_item * option (Z * Z) :=
  match n with
  | O => ([], Some (ucp, sum_elem_types))
  | S n' =>
      if ucp + 4 >? last_ucp then ([], None)
      else
        let el := rd resp (ucp + 3) + 4 in
        let sum' := sum_elem_types + rd resp (ucp + 2) in
        let here :=
          [ pr "    Subenclosure identifier: %d\n" [AInt (rd resp (ucp + 1))];
            pr "      relative e.s. process id: %d, number of e.s. processes: %d\n"
               [AInt (Z.shiftr (Z.land (rd resp ucp) 0x70) 4);
                AInt (Z.land (rd resp ucp) 0x7)];
            pr "      number of element types supported: %d\n"
               [AInt (rd resp (ucp + 2))] ]
          ++ (if el <? 40 then [epr "      enc descriptor len=%d ??\n" [AInt el]]
              else
                pr "      logical id (hex): " []
                :: print_each "%02x " resp (ucp + 4) 8
                ++ [pr "\n      vendor: %.8s  product: %.16s  rev: %.4s\n"
                       [ABytes (c_str (bytes_at resp (ucp + 12) 8));
                        ABytes (c_str (bytes_at resp (ucp + 20) 16));
                        ABytes (c_str (bytes_at resp (ucp + 36) 4))]]
                ++ ifp (el >? 40)
                     [ pr "      vendor-specific data:\n" [];
                       DStrHex (bytes_at resp (ucp + 40) (Z.to_nat (el - 40))) 0 ]) in
        let (rest, r) := conf_subs n' (ucp + el) sum' in
        (here ++ rest, r)
  end.

(** The walk over the type descriptor headers. *)
Fixpoint conf_types (n : nat) (ucp text_ucp : Z) : list out_item :=
  match n with
  | O => []
  | S n' =>
      if ucp + 4 >? last_ucp then [truncated]
      else
        element_type_line "    " (rd resp ucp) (rd resp (ucp + 2))
        :: pr "      possible number of elements: %d\n" [AInt (rd resp (ucp + 1))]
        :: (if rd resp (ucp + 3) >? 0 then
              if text_ucp >? last_ucp then [truncated]
              else
                pr "      Description: %.*s\n"
                   [AInt (rd resp (ucp + 3));
                    ABytes (c_str (bytes_at resp text_ucp
                                     (Z.to_nat (rd resp (ucp + 3)))))]
                :: conf_types n' (ucp + 4) (text_ucp + rd resp (ucp + 3))
            else conf_types n' (ucp + 4) text_ucp)
  end.

Definition ses_configuration_sdg : list out_item :=
  pr "Configuration diagnostic page:\n" []
  :: (if resp_len <? 4 then [truncated]
      else
        let num_subs := rd resp 1 + 1 in
        pr "  number of subenclosures (other than primary): %d\n"
           [AInt (num_subs - 1)]
        :: pr "  generation code: 0x%x\n" [AInt (gen_code_of resp)]
        :: match conf_subs (Z.to_nat num_subs) 8 0 with
           | (o, None) => o ++ [truncated]
           | (o, Some (ucp, sum_elem_types)) =>
               o ++ pr "\n" []
                 :: conf_types (Z.to_nat sum_elem_types) ucp
                      (ucp + sum_elem_types * 4)
           end).
End Configuration.

(** ** Building the element map: [populate_element_hdr_arr] *)

(** [(resp[2] << 8) + resp[3] + 4] *)
Definition page_len (resp : buf) : Z := Z.shiftl (rd resp 2) 8 + rd resp 3 + 4.

Definition buffer_too_small (len : Z) : list out_item :=
  ifp (len >? MX_ALLOC_LEN)
    [epr "<<< warning response buffer too small [%d but need %d]>>>\n"
         [AInt MX_ALLOC_LEN; AInt len]].

Definition clamp_len (len : Z) : Z :=
  if len >? MX_ALLOC_LEN then MX_ALLOC_LEN else len.

(** How the second loop of [populate_element_hdr_arr] is left. *)
Inductive pop_exit := PopDone | PopTruncated | PopTooMany.

Section Populate.
Variable resp : buf.
Variable resp_len : Z.

Let last_ucp : Z := resp_len - 1.

Fixpoint pop_subs (n : nat) (ucp sum_elem_types : Z)
  : list out_item * option (Z * Z) :=
  match n with
  | O => ([], Some (ucp, sum_elem_types))
  | S n' =>
      if ucp + 4 >? last_ucp then ([], None)
      else
        let el := rd resp (ucp + 3) + 4 in
        let sum' := sum_elem_types + rd resp (ucp + 2) in
        let here :=
          ifp (el <? 40)
            [epr "populate: short enc descriptor len=%d ??\n" [AInt el]] in
        let (rest, r) := pop_subs n' (ucp + el) sum' in
        (here ++ rest, r)
  end.

(** [None]: a store outside [ehp]. *)
Fixpoint pop_hdrs (n : nat) (k ucp : Z) (ehp : list element_hdr)
  : option (pop_exit * list element_hdr) :=
  match n with
  | O => Some (PopDone, ehp)
  | S n' =>
      if ucp + 4 >? last_ucp then Some (PopTruncated, ehp)
      else if k >=? MX_ELEM_HDR then Some (PopTooMany, ehp)
      else
        match ehp_store ehp k
                (mkHdr (rd resp ucp) (rd resp (ucp + 1)) (rd resp (ucp + 2)) 0) with
        | None => None
        | Some ehp' => pop_hdrs n' (k + 1) (ucp + 4) ehp'
        end
  end.
End Populate.

Record pop_result := mkPop {
  pop_res : Z;                    (* the value returned *)
  pop_gen : option Z;             (* [*generationp], when it was assigned *)
  pop_ehp : list element_hdr;     (* the array afterwards *)
  pop_out : list out_item
}.

Definition config_too_short : out_item := epr "populate: config too short\n" [].
Definition too_many_elements : out_item := epr "populate: too many elements\n" [].

(** [populate_element_hdr_arr] after a successful [do_rcvdiag] that left
    [resp] in the buffer. *)
Definition populate_parse (resp : buf) (ehp : list element_hdr)
  : option pop_result :=
  let warn := buffer_too_small (page_len resp) in
  let resp_len := clamp_len (page_len resp) in
  if negb (rd resp 0 =? 1) then
    Some (mkPop (-1) None ehp
            (warn ++
             [ if (rd resp 0 =? 0x9) && nz (Z.land 1 (rd resp 1)) then
                 pr "Enclosure busy, try again later\n" []
               else if rd resp 0 =? 0x8 then
                 pr "Enclosure only supports Short Enclosure status: 0x%x\n"
                    [AInt (rd resp 1)]
               else
                 pr "Invalid response, wanted page code: 0x%x but got 0x%x\n"
                    [AInt 1; AInt (rd resp 0)] ]))
  else if resp_len <? 4 then Some (mkPop (-1) None ehp warn)
  else
    let num_subs := rd resp 1 + 1 in
    let gen_code := gen_code_of resp in
    match pop_subs resp resp_len (Z.to_nat num_subs) 8 0 with
    | (o, None) =>
        Some (mkPop (-1) (Some gen_code) ehp (warn ++ o ++ [config_too_short]))
    | (o, Some (ucp, sum_elem_types)) =>
        match pop_hdrs resp resp_len (Z.to_nat sum_elem_types) 0 ucp ehp with
        | None => None
        | Some (PopDone, ehp') =>
            Some (mkPop sum_elem_types (Some gen_code) ehp' (warn ++ o))
        | Some (PopTruncated, ehp') =>
            Some (mkPop (-1) (Some gen_code) ehp' (warn ++ o ++ [config_too_short]))
        | Some (PopTooMany, ehp') =>
            Some (mkPop (-1) (Some gen_code) ehp' (warn ++ o ++ [too_many_elements]))
        end
    end.

(** ** Enclosure status page (page 0x2) *)

Definition element_status_desc : list string :=
  [ "Unsupported"; "OK"; "Critical"; "Non-critical";
    "Unrecoverable"; "Not installed"; "Unknown"; "Not available";
    "reserved [8]"; "reserved [9]"; "reserved [10]"; "reserved [11]";
    "reserved [12]"; "reserved [13]"; "reserved [14]"; "reserved [15]" ].

Definition actual_speed_desc : list string :=
  [ "stopped"; "at lowest speed"; "at second lowest speed";
    "at third lowest speed"; "at intermediate speed";
    "at third highest speed"; "at second highest speed"; "at highest speed" ].

Definition nv_cache_unit : list string := [ "Bytes"; "KiB"; "MiB"; "GiB" ].

Definition invop_type_desc : list string :=
  [ "SEND DIAGNOSTIC page code error"; "SEND DIAGNOSTIC page format error";
    "Reserved"; "Vendor specific error" ].

(** [tbl[i]] for a table of strings. *)
Definition str_at (tbl : list string) (i : Z) : string := nth (Z.to_nat i) tbl EmptyString.

(** [!!(x & m)] as a [%d] argument. *)
Definition fl (x m : Z) : arg := AInt (bang2 (Z.land x m)).

(** [(int)(short)v] for [v] in 0..65535. *)
Definition to_short (v : Z) : Z := if v <? 32768 then v else v - 65536.

Definition print_over_elem_status (pad : string) (resp : buf) (statp : Z)
    (etype filter : Z) : list out_item :=
  let s0 := rd resp statp in
  let s1 := rd resp (statp + 1) in
  let s2 := rd resp (statp + 2) in
  let s3 := rd resp (statp + 3) in
  let p := AStr pad in
  let nf := filter =? 0 in
  pr "%sPredicted failure=%d, swap=%d, status: %s\n"
     [p; fl s0 0x40; fl s0 0x10; AStr (str_at element_status_desc (Z.land s0 0xf))]
  :: match etype with
     | 0 =>     (* unspecified *)
         [pr "%sstatus in hex: %02x %02x %02x %02x\n"
             [p; AInt s0; AInt s1; AInt s2; AInt s3]]
     | 1 =>     (* device *)
         [pr "%sSlot address: %d\n" [p; AInt s1]]
         ++ ifp (nf || nz (Z.land 0xe0 s2))
              [pr "%sApp client bypassed A=%d, Do not remove=%d, Enc bypassed A=%d\n"
                  [p; fl s2 0x80; fl s2 0x40; fl s2 0x20]]
         ++ ifp (nf || nz (Z.land 0x1c s2))
              [pr "%sEnc bypassed B=%d, Ready to insert=%d, RMV=%d, Ident=%d\n"
                  [p; fl s2 0x10; fl s2 0x8; fl s2 0x4; fl s2 0x2]]
         ++ ifp (nf || (nz (Z.land 1 s2) || nz (Z.land 0xe0 s3)))
              [pr "%sReport=%d, App client bypassed B=%d, Fault sensed=%d, Fault requested=%d\n"
                  [p; fl s2 0x1; fl s3 0x80; fl s3 0x40; fl s3 0x20]]
         ++ ifp (nf || nz (Z.land 0x1e s3))
              [pr "%sDevice off=%d, Bypassed A=%d, Bypassed B=%d, Device bypassed A=%d\n"
                  [p; fl s3 0x10; fl s3 0x8; fl s3 0x4; fl s3 0x2]]
         ++ ifp (nf || nz (Z.land 0x1 s3))
              [pr "%sDevice bypassed B=%d\n" [p; fl s3 0x1]]
     | 2 =>     (* power supply *)
         ifp (nf || (nz (Z.land 0x80 s1) || nz (Z.land 0xe s2)))
           [pr "%sIdent=%d, DC overvoltage=%d, DC undervoltage=%d, DC overcurrent=%d\n"
               [p; fl s1 0x80; fl s2 0x8; fl s2 0x4; fl s2 0x2]]
         ++ ifp (nf || nz (Z.land 0x78 s3))
              [pr "%sFail=%d, Requested on=%d, Off=%d, Overtemperature fail=%d\n"
                  [p; fl s3 0x40; fl s3 0x20; fl s3 0x10; fl s3 0x8]]
         ++ ifp (nf || nz (Z.land 0x7 s3))
              [pr "%sTemperature warn=%d, AC fail=%d, DC fail=%d\n"
                  [p; fl s3 0x4; fl s3 0x2; fl s3 0x1]]
     | 3 =>     (* cooling *)
         ifp (nf || (nz (Z.land 0x80 s1) || nz (Z.land 0x70 s3)))
           [pr "%sIdent=%d, Fail=%d, Requested on=%d, Off=%d\n"
               [p; fl s1 0x80; fl s3 0x40; fl s3 0x20; fl s3 0x10]]
         ++ [pr "%sActual speed=%d rpm, Fan %s\n"
                [p; AInt ((Z.shiftl (Z.land 3 s1) 8 + s2) * 10);
                 AStr (str_at actual_speed_desc (Z.land 7 s3))]]
     | 4 =>     (* temperature sensor *)
         ifp (nf || (nz (Z.land 0x80 s1) || nz (Z.land 0xf s3)))
           [pr "%sIdent=%d, OT Failure=%d, OT warning=%d, UT failure=%d, UT warning=%d\n"
               [p; fl s1 0x80; fl s3 0x8; fl s3 0x4; fl s3 0x2; fl s3 0x1]]
         ++ (if nz s2 then [pr "%sTemperature=%d C\n" [p; AInt (s2 - 20)]]
             else [pr "%sTemperature: <reserved>\n" [p]])
     | 5 =>     (* door lock *)
         ifp (nf || (nz (Z.land 0x80 s1) || nz (Z.land 0x1 s3)))
           [pr "%sIdent=%d, Unlock=%d\n" [p; fl s1 0x80; fl s3 0x1]]
     | 6 =>     (* audible alarm *)
         ifp (nf || (nz (Z.land 0x80 s1) || nz (Z.land 0xd0 s3)))
           [pr "%sIdent=%d, Request mute=%d, Mute=%d, Remind=%d\n"
               [p; fl s1 0x80; fl s3 0x80; fl s3 0x40; fl s3 0x10]]
         ++ ifp (nf || nz (Z.land 0xf s3))
              [pr "%sTone indicator: Info=%d, Non-crit=%d, Crit=%d, Unrecov=%d\n"
                  [p; fl s3 0x8; fl s3 0x4; fl s3 0x2; fl s3 0x1]]
     | 7 =>     (* enclosure services controller electronics element *)
         ifp (nf || (nz (Z.land 0x80 s1) || nz (Z.land 0x1 s2)))
           [pr "%sIdent=%d, Report=%d\n" [p; fl s1 0x80; fl s2 0x1]]
     | 8 =>     (* SCC controller electronics element *)
         ifp (nf || (nz (Z.land 0x80 s1) || nz (Z.land 0x1 s2)))
           [pr "%sIdent=%d, Report=%d\n" [p; fl s1 0x80; fl s2 0x1]]
     | 9 =>     (* Non volatile cache element *)
         let res := Z.shiftl s2 8 + s3 in
         [ pr "%sIdent=%d, Size multiplier=%d, Non volatile cache size=0x%x\n"
              [p; fl s1 0x80; AInt (Z.land s1 0x3); AInt res];
           pr "%sHence non volatile cache size: %d %s\n"
              [p; AInt res; AStr (str_at nv_cache_unit (Z.land s1 0x3))] ]
     | 0xa =>   (* Invalid operation reason element *)
         let res := Z.land (Z.shiftr s1 6) 3 in
         pr "%sInvop type=%d   %s\n" [p; AInt res; AStr (str_at invop_type_desc res)]
         :: match res with
            | 0 => [pr "%sPage not supported=%d\n" [p; AInt (Z.land s1 1)]]
            | 1 => [pr "%sByte offset=%d, bit number=%d\n"
                       [p; AInt (Z.shiftl s2 8 + s3); AInt (Z.land s1 7)]]
            | 2 | 3 => [pr "%slast 3 bytes (hex): %02x %02x %02x\n"
                           [p; AInt s1; AInt s2; AInt s3]]
            | _ => []
            end
     | 0xb =>   (* Uninterruptible power supply *)
         (if s1 =? 0 then [pr "%sBattery status: discharged or unknown\n" [p]]
          else if s1 =? 255 then
            [pr "%sBattery status: 255 or more minutes remaining\n" [p]]
          else [pr "%sBattery status: %d minutes remaining\n" [p; AInt s1]])
         ++ ifp (nf || nz (Z.land 0xf8 s2))
              [pr "%sAC low=%d, AC high=%d, AC qual=%d, AC fail=%d, DC fail=%d\n"
                  [p; fl s2 0x80; fl s2 0x40; fl s2 0x20; fl s2 0x10; fl s2 0x8]]
         ++ ifp (nf || (nz (Z.land 0x7 s2) || nz (Z.land 0x83 s3)))
              [pr "%sUPS fail=%d, Warn=%d, Intf fail=%d, Ident=%d, Batt fail=%d,BPF=%d\n"
                  [p; fl s2 0x4; fl s2 0x2; fl s2 0x1; fl s3 0x80; fl s3 0x2; fl s3 0x1]]
     | 0xc =>   (* Display *)
         ifp (nf || nz (Z.land 0x80 s1)) [pr "%sIdent=%d\n" [p; fl s1 0x80]]
     | 0xd =>   (* Key pad entry *)
         ifp (nf || nz (Z.land 0x80 s1)) [pr "%sIdent=%d\n" [p; fl s1 0x80]]
     | 0xe =>   (* Enclosure *)
         ifp (nf || (nz (Z.land 0x80 s1) || nz (Z.land 0x3 s2)))
           [pr "%sIdent=%d, Failure indication=%d, Warning indication=%d\n"
               [p; fl s1 0x80; fl s2 0x2; fl s2 0x1]]
         ++ ifp (nf || nz (Z.land 0x3 s3))
              [pr "%sFailure requested=%d, Warning requested=%d\n"
                  [p; fl s3 0x2; fl s3 0x1]]
     | 0xf =>   (* SCSI port/transceiver *)
         ifp (nf || (nz (Z.land 0x80 s1) || nz (Z.land 0x1 s2) || nz (Z.land 0x13 s3)))
           [pr "%sIdent=%d, Report=%d, disabled=%d, loss of link=%d, Xmit fail=%d\n"
               [p; fl s1 0x80; fl s2 0x1; fl s3 0x10; fl s3 0x2; fl s3 0x1]]
     | 0x10 =>  (* Language *)
         [pr "%sIdent=%d, Language code: %.2s\n"
             [p; fl s1 0x80; ABytes (c_str (bytes_at resp (statp + 2) 2))]]
     | 0x11 =>  (* Communication port *)
         ifp (nf || (nz (Z.land 0x80 s1) || nz (Z.land 0x1 s3)))
           [pr "%sIdent=%d, Disabled=%d\n" [p; fl s1 0x80; fl s3 0x1]]
     | 0x12 =>  (* Voltage sensor *)
         ifp (nf || nz (Z.land 0x8f s1))
           [pr "%sIdent=%d, Warn Over=%d, Warn Under=%d, Crit Over=%d, Crit Under=%d\n"
               [p; fl s1 0x80; fl s1 0x8; fl s1 0x4; fl s1 0x2; fl s1 0x1]]
         ++ [pr "%sVoltage: %.2f volts\n"
                [p; ADbl (to_short (Z.shiftl s2 8 + s3)) 100]]
     | 0x13 =>  (* Current sensor *)
         ifp (nf || nz (Z.land 0x8a s1))
           [pr "%sIdent=%d, Warn Over=%d, Crit Over=%d\n"
               [p; fl s1 0x80; fl s1 0x8; fl s1 0x2]]
         ++ [pr "%sCurrent: %.2f amps\n"
                [p; ADbl (to_short (Z.shiftl s2 8 + s3)) 100]]
     | 0x14 =>  (* SCSI target port *)
         ifp (nf || (nz (Z.land 0x80 s1) || nz (Z.land 0x1 s2) || nz (Z.land 0x1 s3)))
           [pr "%sIdent=%d, Report=%d, Enabled=%d\n" [p; fl s1 0x80; fl s2 0x1; fl s3 0x1]]
     | 0x15 =>  (* SCSI initiator port *)
         ifp (nf || (nz (Z.land 0x80 s1) || nz (Z.land 0x1 s2) || nz (Z.land 0x1 s3)))
           [pr "%sIdent=%d, Report=%d, Enabled=%d\n" [p; fl s1 0x80; fl s2 0x1; fl s3 0x1]]
     | 0x16 =>  (* Simple subenclosure *)
         [pr "%sIdent=%d, Short enclosure status: 0x%x\n" [p; fl s1 0x80; AInt s3]]
     | 0x17 =>  (* Array device *)
         ifp (nf || nz (Z.land 0xf0 s1))
           [pr "%sOK=%d, Reserved device=%d, Hot spare=%d, Cons check=%d\n"
               [p; fl s1 0x80; fl s1 0x40; fl s1 0x20; fl s1 0x10]]
         ++ ifp (nf || nz (Z.land 0xf s1))
              [pr "%sIn crit array=%d, In failed array=%d, Rebuild/remap=%d, R/R abort=%d\n"
                  [p; fl s1 0x8; fl s1 0x4; fl s1 0x2; fl s1 0x1]]
         ++ ifp (nf || nz (Z.land 0xf0 s2))
              [pr "%sApp client bypass A=%d, Don't remove=%d, Enc bypass A=%d, Enc bypass B=%d\n"
                  [p; fl s2 0x80; fl s2 0x40; fl s2 0x20; fl s2 0x10]]
         ++ ifp (nf || nz (Z.land 0xf s2))
              [pr "%sReady to insert=%d, RMV=%d, Ident=%d, Report=%d\n"
                  [p; fl s2 0x8; fl s2 0x4; fl s2 0x2; fl s2 0x1]]
         ++ ifp (nf || nz (Z.land 0xf0 s3))
              [pr "%sApp client bypass B=%d, Fault sensed=%d, Fault reqstd=%d, Device off=%d\n"
                  [p; fl s3 0x80; fl s3 0x40; fl s3 0x20; fl s3 0x10]]
         ++ ifp (nf || nz (Z.land 0xf s3))
              [pr "%sBypassed A=%d, Bypassed B=%d, Dev bypassed A=%d, Dev bypassed B=%d\n"
                  [p; fl s3 0x8; fl s3 0x4; fl s3 0x2; fl s3 0x1]]
     | _ =>
         [pr "%sUnknown element type, status in hex: %02x %02x %02x %02x\n"
             [p; AInt s0; AInt s1; AInt s2; AInt s3]]
     end.

Section Enclosure.
Variable ehp : list element_hdr.
Variable resp : buf.
Variable resp_len : Z.
Variables inner_hex filter : Z.

Let last_ucp : Z := resp_len - 1.

(** The loop over the individual elements of one type; returns the cursor. *)
Fixpoint enc_elems (n : nat) (j ucp : Z) (et : Z) : list out_item * Z :=
  match n with
  | O => ([], ucp)
  | S n' =>
      let here :=
        if nz inner_hex then
          [pr "      Element %d status(hex): %02x %02x %02x %02x\n"
              [AInt (j + 1); AInt (rd resp ucp); AInt (rd resp (ucp + 1));
               AInt (rd resp (ucp + 2)); AInt (rd resp (ucp + 3))]]
        else
          pr "      Element %d status:\n" [AInt (j + 1)]
          :: print_over_elem_status "       " resp ucp et filter in
      let (rest, ucp') := enc_elems n' (j + 1) (ucp + 4) et in
      (here ++ rest, ucp')
  end.

Fixpoint enc_types (n : nat) (k ucp : Z) : list out_item :=
  match n with
  | O => []
  | S n' =>
      if ucp + 4 >? last_ucp then [truncated]
      else
        let h := ehp_get ehp k in
        let overall :=
          if nz inner_hex then
            [pr "    Overall status(hex): %02x %02x %02x %02x\n"
                [AInt (rd resp ucp); AInt (rd resp (ucp + 1));
                 AInt (rd resp (ucp + 2)); AInt (rd resp (ucp + 3))]]
          else
            pr "    Overall status:\n" []
            :: print_over_elem_status "     " resp ucp (etype h) filter in
        let (els, ucp') :=
          enc_elems (Z.to_nat (num_elements h)) 0 (ucp + 4) (etype h) in
        element_type_line "    " (etype h) (se_id h)
        :: overall ++ els ++ enc_types n' (k + 1) ucp'
  end.

Definition ses_enclosure_sdg (num_telems ref_gen_code : Z) : list out_item :=
  pr "Enclosure status diagnostic page:\n" []
  :: (if resp_len <? 4 then [truncated]
      else
        pr "  INVOP=%d, INFO=%d, NON-CRIT=%d, CRIT=%d, UNRECOV=%d\n"
           [fl (rd resp 1) 0x10; fl (rd resp 1) 0x8; fl (rd resp 1) 0x4;
            fl (rd resp 1) 0x2; fl (rd resp 1) 0x1]
        :: (if resp_len <? 8 then [truncated]
            else
              let gen_code := gen_code_of resp in
              pr "  generation code: 0x%x\n" [AInt gen_code]
              :: (if negb (ref_gen_code =? gen_code) then [enclosure_changed]
                  else enc_types (Z.to_nat num_telems) 0 8))).
End Enclosure.

(** ** Threshold In page (page 0x5) *)

Definition reserved_or_num (num reserve_num : Z) : string :=
  if num =? reserve_num then "<res>" else dec num.

Definition ses_threshold_helper (pad : string) (resp : buf) (tp : Z)
    (etype p_num inner_hex : Z) : list out_item :=
  let t0 := rd resp tp in
  let t1 := rd resp (tp + 1) in
  let t2 := rd resp (tp + 2) in
  let t3 := rd resp (tp + 3) in
  let buff :=
    if p_num <? 0 then "Overall threshold"
    else ("Element " ++ dec (p_num + 1) ++ " threshold")%string in
  if nz inner_hex then
    [pr "%s%s (in hex): %02x %02x %02x %02x\n"
        [AStr pad; AStr buff; AInt t0; AInt t1; AInt t2; AInt t3]]
  else
    match etype with
    | 0x4 =>   (* temperature *)
        [ pr "%s%s: high critical=%s, high warning=%s\n"
             [AStr pad; AStr buff; AStr (reserved_or_num (t0 - 20) (-20));
              AStr (reserved_or_num (t1 - 20) (-20))];
          pr "%s  low warning=%s, low critical=%s (in degrees Celsius)\n"
             [AStr pad; AStr (reserved_or_num (t2 - 20) (-20));
              AStr (reserved_or_num (t3 - 20) (-20))] ]
    | 0xb =>   (* UPS *)
        [ pr "%s%s: low warning=%s, "
             [AStr pad; AStr buff; AStr (if 0 =? t2 then "<vendor>" else dec t2)];
          pr "low critical=%s (in minutes)\n"
             [AStr (if 0 =? t3 then "<vendor>" else dec t3)] ]
    | 0x12 =>  (* voltage *)
        [ pr "%s%s: high critical=%.1f %%, high warning=%.1f %%\n"
             [AStr pad; AStr buff; ADbl t0 2; ADbl t1 2];
          pr "%s  low warning=%.1f %%, low critical=%.1f %% (from nominal voltage)\n"
             [AStr pad; ADbl t2 2; ADbl t3 2] ]
    | 0x13 =>  (* current *)
        [ pr "%s%s: high critical=%.1f %%, high warning=%.1f %%\n"
             [AStr pad; AStr buff; ADbl t0 2; ADbl t1 2];
          pr "%s  (above nominal current)\n" [AStr pad] ]
    | _ => []
    end.

Section Threshold.
Variable ehp : list element_hdr.
Variable resp : buf.
Variable resp_len : Z.
Variable inner_hex : Z.

Let last_ucp : Z := resp_len - 1.

Fixpoint thr_elems (n : nat) (j ucp : Z) (et : Z) : list out_item * Z :=
  match n with
  | O => ([], ucp)
  | S n' =>
      let here := ses_threshold_helper "      " resp ucp et j inner_hex in
      let (rest, ucp') := thr_elems n' (j + 1) (ucp + 4) et in
      (here ++ rest, ucp')
  end.

Fixpoint thr_types (n : nat) (k ucp : Z) : list out_item :=
  match n with
  | O => []
  | S n' =>
      if ucp + 4 >? last_ucp then [truncated]
      else
        let h := ehp_get ehp k in
        let (els, ucp') :=
          thr_elems (Z.to_nat (num_elements h)) 0 (ucp + 4) (etype h) in
        element_type_line "    " (etype h) (se_id h)
        :: ses_threshold_helper "    " resp ucp (etype h) (-1) inner_hex
        ++ els ++ thr_types n' (k + 1) ucp'
  end.

Definition ses_threshold_sdg (num_telems ref_gen_code : Z) : list out_item :=
  pr "Threshold In diagnostic page:\n" []
  :: (if resp_len <? 4 then [truncated]
      else
        pr "  INVOP=%d\n" [fl (rd resp 1) 0x10]
        :: (if resp_len <? 8 then [truncated]
            else
              let gen_code := gen_code_of resp in
              pr "  generation code: 0x%x\n" [AInt gen_code]
              :: (if negb (ref_gen_code =? gen_code) then [enclosure_changed]
                  else thr_types (Z.to_nat num_telems) 0 8))).
End Threshold.

(** ** Element descriptor page (page 0x7) *)

(** [(ucp[2] << 8) + ucp[3] + 4] *)
Definition desc_len_at (resp : buf) (ucp : Z) : Z :=
  Z.shiftl (rd resp (ucp + 2)) 8 + rd resp (ucp + 3) + 4.

(** The [(n, p)] arguments of [%.*s]. *)
Definition text_args (resp : buf) (p n : Z) : list arg :=
  [AInt n; ABytes (c_str (bytes_at resp p (Z.to_nat n)))].

Section ElementDesc.
Variable ehp : list element_hdr.
Variable resp : buf.
Variable resp_len : Z.

Let last_ucp : Z := resp_len - 1.

Fixpoint edesc_elems (n : nat) (j ucp : Z) : list out_item * Z :=
  match n with
  | O => ([], ucp)
  | S n' =>
      let desc_len := desc_len_at resp ucp in
      let here :=
        if desc_len >? 4 then
          pr "      Element %d descriptor: %.*s\n"
             (AInt (j + 1) :: text_args resp (ucp + 4) (desc_len - 4))
        else pr "      Element %d descriptor: <empty>\n" [AInt (j + 1)] in
      let (rest, ucp') := edesc_elems n' (j + 1) (ucp + desc_len) in
      (here :: rest, ucp')
  end.

Fixpoint edesc_types (n : nat) (k ucp : Z) : list out_item :=
  match n with
  | O => []
  | S n' =>
      if ucp + 4 >? last_ucp then [truncated]
      else
        let h := ehp_get ehp k in
        let desc_len := desc_len_at resp ucp in
        let overall :=
          if desc_len >? 4 then
            pr "    Overall descriptor: %.*s\n"
               (text_args resp (ucp + 4) (desc_len - 4))
          else pr "    Overall descriptor: <empty>\n" [] in
        let (els, ucp') :=
          edesc_elems (Z.to_nat (num_elements h)) 0 (ucp + desc_len) in
        element_type_line "    " (etype h) (se_id h)
        :: overall :: els ++ edesc_types n' (k + 1) ucp'
  end.

Definition ses_element_desc_sdg (num_telems ref_gen_code : Z) : list out_item :=
  pr "Element descriptor In diagnostic page:\n" []
  :: (if resp_len <? 4 then [truncated]
      else if resp_len <? 8 then [truncated]
      else
        let gen_code := gen_code_of resp in
        pr "  generation code: 0x%x\n" [AInt gen_code]
        :: (if negb (ref_gen_code =? gen_code) then [enclosure_changed]
            else edesc_types (Z.to_nat num_telems) 0 8)).
End ElementDesc.

(** ** Device element status page (page 0xa) *)

Definition transport_proto_arr : list string :=
  [ "Fibre Channel (FCP-2)";
    "Parallel SCSI (SPI-5)";
    "SSA (SSA-S3P)";
    "IEEE 1394 (SBP-3)";
    "Remote Direct Memory Access (RDMA)";
    "Internet SCSI (iSCSI)";
    "Serial Attached SCSI (SAS)";
    "Automation/Drive Interface Transport Protocol (ADT)";
    "ATA Packet Interface (ATA/ATAPI-7)";
    "Ox9"; "Oxa"; "Oxb"; "Oxc"; "Oxd"; "Oxe";
    "No specific protocol" ].

Definition sas_device_type : list string :=
  [ "no device attached";
    "end device";
    "edge expander device";
    "fanout expander device";
    "reserved [4]"; "reserved [5]"; "reserved [6]"; "reserved [7]" ].

(** [(x & m) ? s : empty] as a [%s] argument. *)
Definition role (x m : Z) (s : string) : arg :=
  AStr (if nz (Z.land x m) then s else EmptyString).

Section TransportProto.
Variable resp : buf.

(** The per-port loop of the FCP descriptor. *)
Fixpoint fcp_ports (n : nat) (j per_ucp : Z) : list out_item :=
  match n with
  | O => []
  | S n' =>
      [ pr "    [%d] port loop position: %d, port requested hard address: %d\n"
           [AInt (j + 1); AInt (rd resp per_ucp); AInt (rd resp (per_ucp + 4))];
        pr "      n_port identifier: %02x%02x%02x\n"
           [AInt (rd resp (per_ucp + 5)); AInt (rd resp (per_ucp + 6));
            AInt (rd resp (per_ucp + 7))];
        pr "      n_port name: " [] ]
      ++ print_each "%02x" resp (per_ucp + 8) 8
      ++ [pr "\n" []]
      ++ fcp_ports n' (j + 1) (per_ucp + 16)
  end.

(** The body of the per-phy loop of the SAS descriptor. *)
Definition sas_phy (phys per_ucp : Z) : list out_item :=
  [ pr "    [%d] device type: %s\n"
       [AInt (phys + 1);
        AStr (str_at sas_device_type
                (Z.shiftr (Z.land 0x70 (rd resp (per_ucp + 4))) 4))];
    pr "      initiator port for: %s %s %s\n"
       [role (rd resp (per_ucp + 6)) 8 "SSP"; role (rd resp (per_ucp + 6)) 4 "STP";
        role (rd resp (per_ucp + 6)) 2 "SMP"];
    pr "      target port for: %s %s %s\n"
       [role (rd resp (per_ucp + 7)) 8 "SSP"; role (rd resp (per_ucp + 7)) 4 "STP";
        role (rd resp (per_ucp + 7)) 2 "SMP"];
    pr "      attached SAS address: " [] ]
  ++ print_each "%02x" resp (per_ucp + 8) 8
  ++ [pr "\n      SAS address: " []]
  ++ print_each "%02x" resp (per_ucp + 16) 8
  ++ [pr "\n      phy identifier: 0x%x\n" [AInt (rd resp (per_ucp + 24))]].

(** [for (j = 0; j < phys; ++j, per_ucp += 28)] *)
Fixpoint sas_phys (n : nat) (phys j per_ucp : Z) : list out_item :=
  match n with
  | O => []
  | S n' => sas_phy phys per_ucp ++ sas_phys n' phys (j + 1) (per_ucp + 28)
  end.

Definition ses_transport_proto (ucp len elem_num : Z) : list out_item :=
  match Z.land 0xf (rd resp ucp) with
  | 0 =>
      let ports := rd resp (ucp + 2) in
      [ pr "   [%d] Transport protocol: FCP, number of ports: %d\n"
           [AInt (elem_num + 1); AInt ports];
        pr "    node_name: " [] ]
      ++ print_each "%02x" resp (ucp + 4) 8
      ++ [pr "\n" []]
      ++ fcp_ports (Z.to_nat ports) 0 (ucp + 12)
  | 6 =>
      let phys := rd resp (ucp + 2) in
      [ pr "   [%d] Transport protocol: SAS, number of phys: %d\n"
           [AInt (elem_num + 1); AInt phys];
        pr "    not all phys: %d\n" [AInt (Z.land (rd resp (ucp + 3)) 1)] ]
      ++ sas_phys (Z.to_nat phys) phys 0 (ucp + 4)
  | _ =>
      [ pr "   [%d] Transport protocol: %s not decoded, in hex:\n"
           [AInt (elem_num + 1);
            AStr (str_at transport_proto_arr (Z.land 0xf (rd resp ucp)))];
        DStrHex (bytes_at resp (ucp + 4) (Z.to_nat (len - 4))) 0 ]
  end.
End TransportProto.

Section DeviceElem.
Variable ehp : list element_hdr.
Variable resp : buf.
Variable resp_len : Z.

Let last_ucp : Z := resp_len - 1.

Fixpoint dev_elems (n : nat) (j ucp : Z) : list out_item * Z :=
  match n with
  | O => ([], ucp)
  | S n' =>
      let desc_len := rd resp (ucp + 1) + 2 in
      let here := ses_transport_proto resp ucp desc_len j in
      let (rest, ucp') := dev_elems n' (j + 1) (ucp + desc_len) in
      (here ++ rest, ucp')
  end.

Fixpoint dev_types (n : nat) (k ucp : Z) : list out_item :=
  match n with
  | O => []
  | S n' =>
      if ucp + 2 >? last_ucp then [truncated]
      else
        let h := ehp_get ehp k in
        if negb (1 =? etype h) && negb (0x17 =? etype h)
        then dev_types n' (k + 1) ucp
        else
          (* only interested in device and array elements *)
          let (els, ucp') := dev_elems (Z.to_nat (num_elements h)) 0 ucp in
          element_type_line "  " (etype h) (se_id h)
          :: els ++ dev_types n' (k + 1) ucp'
  end.

Definition ses_device_elem_sdg (num_telems ref_gen_code : Z) : list out_item :=
  pr "Device element status diagnostic page:\n" []
  :: (if resp_len <? 4 then [truncated]
      else
        let gen_code := gen_code_of resp in
        pr "  generation code: 0x%x\n" [AInt gen_code]
        :: (if negb (ref_gen_code =? gen_code) then [enclosure_changed]
            else dev_types (Z.to_nat num_telems) 0 8)).
End DeviceElem.

(** ** Subenclosure help text and string pages (pages 0xb and 0xc) *)

Section Subenclosure.
Variable resp : buf.
Variable resp_len : Z.

Let last_ucp : Z := resp_len - 1.

Fixpoint subenc_help_loop (n : nat) (ucp : Z) : list out_item :=
  match n with
  | O => []
  | S n' =>
      if ucp + 4 >? last_ucp then [truncated]
      else
        let el := desc_len_at resp ucp in
        pr "   subenclosure identifier: %d\n" [AInt (rd resp (ucp + 1))]
        :: (if el >? 4 then pr "    %.*s\n" (text_args resp (ucp + 4) (el - 4))
            else pr "    <empty>\n" [])
        :: subenc_help_loop n' (ucp + el)
  end.

Definition ses_subenc_help_sdg : list out_item :=
  pr "Subenclosure help text diagnostic page:\n" []
  :: (if resp_len <? 4 then [truncated]
      else
        let num_subs := rd resp 1 + 1 in
        pr "  number of subenclosures (other than primary): %d\n"
           [AInt (num_subs - 1)]
        :: pr "  generation code: 0x%x\n" [AInt (gen_code_of resp)]
        :: subenc_help_loop (Z.to_nat num_subs) 8).

Fixpoint subenc_string_loop (n : nat) (ucp : Z) : list out_item :=
  match n with
  | O => []
  | S n' =>
      if ucp + 4 >? last_ucp then [truncated]
      else
        let el := desc_len_at resp ucp in
        pr "   subenclosure identifier: %d\n" [AInt (rd resp (ucp + 1))]
        :: (if el >? 4 then DStrHex (bytes_at resp (ucp + 4) (Z.to_nat (el - 4))) 0
            else pr "    <empty>\n" [])
        :: subenc_string_loop n' (ucp + el)
  end.

Definition ses_subenc_string_sdg : list out_item :=
  pr "Subenclosure string in diagnostic page:\n" []
  :: (if resp_len <? 4 then [truncated]
      else
        let num_subs := rd resp 1 + 1 in
        pr "  number of subenclosures (other than primary): %d\n"
           [AInt (num_subs - 1)]
        :: pr "  generation code: 0x%x\n" [AInt (gen_code_of resp)]
        :: subenc_string_loop (Z.to_nat num_subs) 8).
End Subenclosure.

(** ** The transport and the dispatcher *)

(** The state a request runs in: the device's answers to the RECEIVE
    DIAGNOSTIC RESULTS commands still to come (each is given the page code
    asked for; [None] is a failed command), the page codes of the commands
    issued so far, what has been printed, and [element_hdr_arr]. *)
Record world := mkWorld {
  w_dev : list (Z -> option buf);
  w_rcv : list Z;
  w_out : list out_item;
  w_ehdr : list element_hdr
}.

(** Computations on the world; [None] is undefined behaviour. *)
Definition M (A : Type) : Type := world -> option (A * world).

Definition ret {A : Type} (a : A) : M A := fun w => Some (a, w).

Definition bind {A B : Type} (m : M A) (f : A -> M B) : M B :=
  fun w => match m w with
           | None => None
           | Some (a, w') => f a w'
           end.

Notation "x <- m ;; k" := (bind m (fun x => k))
  (at level 61, m at next level, right associativity).
Notation "m ;;; k" := (bind m (fun _ => k))
  (at level 61, right associativity).

Definition emit (l : list out_item) : M unit :=
  fun w => Some (tt, mkWorld (w_dev w) (w_rcv w) (w_out w ++ l) (w_ehdr w)).

(** [do_rcvdiag(sg_fd, pcv, pg_code, resp, mx_resp_len, 1, verbose)]:
    [Some resp] when it returns 0, with the buffer it filled.  On a failure
    the source reports on the standard error, through [perror] or
    [sg_chk_n_print3], a text that depends on [errno] or on the sense data:
    it is not recorded, so what a run with a failed command has printed
    lacks these lines of the standard error. *)
Definition do_rcvdiag (pcv pg_code : Z) : M (option buf) :=
  fun w =>
    match w_dev w with
    | [] => Some (None, mkWorld [] (w_rcv w ++ [pg_code]) (w_out w) (w_ehdr w))
    | answer :: later =>
        Some (answer pg_code,
              mkWorld later (w_rcv w ++ [pg_code]) (w_out w) (w_ehdr w))
    end.

(** [populate_element_hdr_arr(fd, element_hdr_arr, &ref_gen_code, verbose)]:
    the value returned and what [ref_gen_code] then holds, if assigned. *)
Definition populate_element_hdr_arr : M (Z * option Z) :=
  r <- do_rcvdiag 1 1 ;;
  match r with
  | Some resp =>
      fun w =>
        match populate_parse resp (w_ehdr w) with
        | None => None
        | Some p =>
            Some ((pop_res p, pop_gen p),
                  mkWorld (w_dev w) (w_rcv w) (w_out w ++ pop_out p) (pop_ehp p))
        end
  | None =>
      emit [epr "populate: couldn't read config page\n" []] ;;;
      ret (-1, None)
  end.

(** An element-keyed page: build the map, then decode against it.  An
    unassigned [ref_gen_code] is never read, since [res < 0] leaves. *)
Definition with_element_map
    (decode : list element_hdr -> Z -> Z -> list out_item) : M unit :=
  r <- populate_element_hdr_arr ;;
  let '(res, gen) := r in
  if res <? 0 then ret tt
  else
    fun w =>
      emit (decode (w_ehdr w) res (match gen with Some g => g | None => 0 end)) w.

Definition ses_process_status (page_code do_raw do_hex inner_hex filter : Z)
  : M unit :=
  r <- do_rcvdiag 1 page_code ;;
  match r with
  | None => emit [pr "Attempt to fetch status diagnostic page failed\n" []]
  | Some rsp_buff =>
      emit (buffer_too_small (page_len rsp_buff)) ;;;
      let rsp_len := clamp_len (page_len rsp_buff) in
      let cp := find_page_code_desc page_code in
      let whole := DStrHex (bytes_at rsp_buff 0 (Z.to_nat rsp_len)) 0 in
      if negb (page_code =? rd rsp_buff 0) then
        if (0x9 =? rd rsp_buff 0) && nz (Z.land 1 (rd rsp_buff 1)) then
          emit (epr "Enclosure busy, try again later\n" []
                :: ifp (nz do_hex) [whole])
        else if 0x8 =? rd rsp_buff 0 then
          emit [epr "Enclosure only supports Short Enclosure status: 0x%x\n"
                    [AInt (rd rsp_buff 1)]]
        else
          emit [ epr "Invalid response, wanted page code: 0x%x but got 0x%x\n"
                     [AInt page_code; AInt (rd rsp_buff 0)];
                 whole ]
      else if nz do_raw then
        emit [DStrHex (bytes_at rsp_buff 4 (Z.to_nat (rsp_len - 4))) (-1)]
      else if nz do_hex then
        emit [ match cp with
               | Some s => pr "Response in hex from diagnostic page: %s\n" [AStr s]
               | None => pr "Response in hex from unknown diagnostic page [0x%x]\n"
                            [AInt page_code]
               end;
               whole ]
      else
        match page_code with
        | 0 =>
            emit (ses_supported_pages_sdg "Supported diagnostic pages"
                    rsp_buff rsp_len)
        | 1 => emit (ses_configuration_sdg rsp_buff rsp_len)
        | 2 =>
            with_element_map
              (fun ehp res ref_gen_code =>
                 ses_enclosure_sdg ehp rsp_buff rsp_len inner_hex filter
                   res ref_gen_code)
        | 3 =>
            emit [ pr "Help text diagnostic page (for primary subenclosure):\n" [];
                   if rsp_len >? 4 then
                     pr "  %.*s\n" (text_args rsp_buff 4 (rsp_len - 4))
                   else pr "  <empty>\n" [] ]
        | 4 =>
            emit [ pr "String In diagnostic page (for primary subenclosure):\n" [];
                   if rsp_len >? 4 then
                     DStrHex (bytes_at rsp_buff 4 (Z.to_nat (rsp_len - 4))) 0
                   else pr "  <empty>\n" [] ]
        | 5 =>
            with_element_map
              (fun ehp res ref_gen_code =>
                 ses_threshold_sdg ehp rsp_buff rsp_len inner_hex res ref_gen_code)
        | 7 =>
            with_element_map
              (fun ehp res ref_gen_code =>
                 ses_element_desc_sdg ehp rsp_buff rsp_len res ref_gen_code)
        | 8 =>
            emit [pr "Short enclosure status diagnostic page, status=0x%x\n"
                     [AInt (rd rsp_buff 1)]]
        | 9 =>
            emit [pr "Enclosure busy diagnostic page, busy=%d [vendor specific=0x%x]\n"
                     [AInt (Z.land (rd rsp_buff 1) 1);
                      AInt (Z.land (Z.shiftr (rd rsp_buff 1) 1) 0xff)]]
        | 0xa =>
            with_element_map
              (fun ehp res ref_gen_code =>
                 ses_device_elem_sdg ehp rsp_buff rsp_len res ref_gen_code)
        | 0xb => emit (ses_subenc_help_sdg rsp_buff rsp_len)
        | 0xc => emit (ses_subenc_string_sdg rsp_buff rsp_len)
        | 0xd =>
            emit (ses_supported_pages_sdg "Supported SES diagnostic pages"
                    rsp_buff rsp_len)
        | _ =>
            emit [ pr "Cannot decode response from diagnostic page: %s\n"
                      [AStr (match cp with Some s => s | None => "<unknown>" end)];
                   whole ]
        end
  end.

(** A request against a device: nothing issued or printed yet. *)
Definition start (dev : list (Z -> option buf)) : world :=
  mkWorld dev [] [] element_hdr_arr.

(** ** Reading the results of a run *)

Definition issued (r : option (unit * world)) : list Z :=
  match r with Some (_, w) => w_rcv w | None => [] end.

Definition printed (r : option (unit * world)) : list out_item :=
  match r with Some (_, w) => w_out w | None => [] end.

(** [a] is requested from the transport, and later [b] is. *)
Fixpoint fetched_before (a b : Z) (log : list Z) : bool :=
  match log with
  | [] => false
  | x :: later =>
      if x =? a then existsb (Z.eqb b) later else fetched_before a b later
  end.

Definition is_truncated (i : out_item) : bool :=
  match i with
  | Printf Stderr f [] => String.eqb f "    <<<response too short>>>\n"
  | _ => false
  end.

Definition item_args (i : out_item) : list arg :=
  match i with
  | Printf _ _ args => args
  | DStrHex _ _ => []
  end.

(** No byte is smaller than the one before it, [prev] coming first. *)
Fixpoint ascending_from (prev : Z) (cs : list Z) : Prop :=
  match cs with
  | [] => True
  | c :: cs' => prev <= c /\ ascending_from c cs'
  end.

(** The line printed for one supported page. *)
Definition page_line (code : Z) : out_item :=
  pr "  %s [0x%x]\n"
     [AStr (match find_page_code_desc code with
            | Some s => s
            | None => "<unknown>"
            end);
      AInt code].

(** The decoder [ses_process_status] hands an element-keyed page to. *)
Definition element_keyed_decoder (page_code : Z) (rsp_buff : buf)
    (inner_hex filter : Z) (ehp : list element_hdr) (res ref_gen_code : Z)
  : list out_item :=
  let rsp_len := clamp_len (page_len rsp_buff) in
  match page_code with
  | 2 => ses_enclosure_sdg ehp rsp_buff rsp_len inner_hex filter res ref_gen_code
  | 5 => ses_threshold_sdg ehp rsp_buff rsp_len inner_hex res ref_gen_code
  | 7 => ses_element_desc_sdg ehp rsp_buff rsp_len res ref_gen_code
  | _ => ses_device_elem_sdg ehp rsp_buff rsp_len res ref_gen_code
  end.

(** What each element-keyed decoder prints ahead of the generation code. *)
Definition page_heading (page_code : Z) (resp : buf) : list out_item :=
  match page_code with
  | 2 =>
      [ pr "Enclosure status diagnostic page:\n" [];
        pr "  INVOP=%d, INFO=%d, NON-CRIT=%d, CRIT=%d, UNRECOV=%d\n"
           [fl (rd resp 1) 0x10; fl (rd resp 1) 0x8; fl (rd resp 1) 0x4;
            fl (rd resp 1) 0x2; fl (rd resp 1) 0x1] ]
  | 5 =>
      [ pr "Threshold In diagnostic page:\n" [];
        pr "  INVOP=%d\n" [fl (rd resp 1) 0x10] ]
  | 7 => [ pr "Element descriptor In diagnostic page:\n" [] ]
  | _ => [ pr "Device element status diagnostic page:\n" [] ]
  end.

(** ** Pages used in the examples *)

(** A Configuration page for one subenclosure declaring two element types,
    Device with 3 possible elements and Power supply with 1, with generation
    code 0x12345678 and no type descriptor text; [tail] is what follows the
    last type descriptor header. *)
Definition scenario_a_page (tail : list Z) : buf :=
  [0x01; 0x00; 0x00; 52 + Z.of_nat (List.length tail)]
  ++ [0x12; 0x34; 0x56; 0x78]
  ++ [0x11; 0x00; 0x02; 36] ++ repeat 0x20 36
  ++ [0x01; 0x03; 0x00; 0x00]
  ++ [0x02; 0x01; 0x00; 0x00]
  ++ tail.

(** A Configuration page of 4096 bytes announcing 3 x 255 element types. *)
Definition crowded_config_page : buf :=
  [0x01; 0x02; 0x0f; 0xfc] ++ [0; 0; 0; 0]
  ++ [0x11; 0; 255; 0] ++ [0x11; 1; 255; 0] ++ [0x11; 2; 255; 0].

(** The same announcement in a page of 1000 bytes, which ends before the
    declaration of index 244. *)
Definition short_crowded_config_page : buf :=
  [0x01; 0x02; 0x03; 0xe4] ++ [0; 0; 0; 0]
  ++ [0x11; 0; 255; 0] ++ [0x11; 1; 255; 0] ++ [0x11; 2; 255; 0].

(** An Enclosure status page for the map [(Device, 3, 0)] cut down to 13
    bytes by its length field, in a buffer that still holds the bytes of
    the three individual elements, and the same page in a zeroed buffer. *)
Definition device_map : list element_hdr := [mkHdr 1 3 0 0].

Definition cut_status_page : buf :=
  [0x02; 0x00; 0x00; 9] ++ [0; 0; 0; 0]
  ++ [0x01; 0x00; 0x00; 0x00]
  ++ [0x01; 0x05; 0xA0; 0x12] ++ [0x01; 0x06; 0x00; 0x00] ++ [0x01; 0x07; 0x00; 0x00].

(** An Enclosure status page of generation 1 for that map. *)
Definition later_status_page : buf :=
  [0x02; 0x00; 0x00; 21] ++ [0; 0; 0; 1]
  ++ [0x01; 0x00; 0x00; 0x00]
  ++ [0x01; 0x05; 0xA0; 0x12] ++ [0x01; 0x06; 0x00; 0x00] ++ [0x01; 0x07; 0x00; 0x00]
  ++ [0x00].

(** A Configuration page of generation 0 declaring [(Device, 3, 0)]. *)
Definition device_config_page : buf :=
  [0x01; 0x00; 0x00; 13] ++ [0; 0; 0; 0]
  ++ [0x11; 0x00; 0x01; 0x00]
  ++ [0x01; 0x03; 0x00; 0x00] ++ [0x00].

(** An Element descriptor page for the map [(Device, 1, 0)] cut down to 13
    bytes: the overall descriptor is empty and the descriptor of element 1,
    from byte 12 on, has its length field in bytes 14 and 15. *)
Definition single_device_map : list element_hdr := [mkHdr 1 1 0 0].

Definition cut_descriptor_page : buf :=
  [0x07; 0x00; 0x00; 9] ++ [0; 0; 0; 0]
  ++ [0; 0; 0; 0]
  ++ [0; 0; 0; 2; 104; 105].

(** A Configuration page of generation 0 declaring [(Device, 1, 0)]. *)
Definition single_device_config_page : buf :=
  [0x01; 0x00; 0x00; 13] ++ [0; 0; 0; 0]
  ++ [0x11; 0x00; 0x01; 0x00]
  ++ [0x01; 0x01; 0x00; 0x00] ++ [0x00].

(** An Enclosure status page of generation 0x12345678 for the map of
    scenario A: an overall record and 3 + 1 individual records. *)
Definition scenario_a_status_page : buf :=
  [0x02; 0x00; 0x00; 29] ++ [0x12; 0x34; 0x56; 0x78]
  ++ [0x01; 0x00; 0x00; 0x00]
  ++ [0x01; 0x05; 0xA0; 0x12] ++ [0x01; 0x06; 0x00; 0x00] ++ [0x01; 0x07; 0x00; 0x00]
  ++ [0x01; 0x00; 0x00; 0x00]
  ++ [0x01; 0x00; 0x00; 0x00]
  ++ [0x00].

(** A Subenclosure help text page of 13 bytes whose only record announces 3
    bytes of text, of which the page holds one. *)
Definition cut_help_page : buf :=
  [0x0b; 0x00; 0x00; 9] ++ [0; 0; 0; 0]
  ++ [0; 0; 0; 3] ++ [97; 98; 99].

(** What a caller sees of a run of [populate_parse]: the value returned,
    the generation code, what was printed and the first two headers. *)
Definition populate_view (r : option pop_result)
  : option (Z * option Z * list out_item * list element_hdr) :=
  match r with
  | Some p => Some (pop_res p, pop_gen p, pop_out p, firstn 2 (pop_ehp p))
  | None => None
  end.

(** Membership in an explicit list. *)
Ltac find_in := repeat (first [left; reflexivity | right]).

(** ** Further notions used in the statements *)

(** Codes in strictly ascending order, all above [lo]. *)
Fixpoint codes_above (lo : Z) (l : list Z) : Prop :=
  match l with
  | [] => True
  | c :: t => lo < c /\ codes_above c t
  end.

(** The format of the line of the default arm of [print_over_elem_status]. *)
Definition unknown_type_fmt : string :=
  "%sUnknown element type, status in hex: %02x %02x %02x %02x\n".

Definition item_fmt (i : out_item) : string :=
  match i with
  | Printf _ f _ => f
  | DStrHex _ _ => EmptyString
  end.

Definition on_stdout (i : out_item) : bool :=
  match i with
  | Printf Stdout _ _ => true
  | Printf Stderr _ _ => false
  | DStrHex _ _ => true
  end.

(** [l] is [m] with some items left out. *)
Inductive kept_from {A : Type} : list A -> list A -> Prop :=
| kept_nil : kept_from [] []
| kept_keep (x : A) (l m : list A) : kept_from l m -> kept_from (x :: l) (x :: m)
| kept_drop (x : A) (l m : list A) : kept_from l m -> kept_from l (x :: m).

(** ** The command blocks and the control path *)

Definition SEND_DIAGNOSTIC_CMD : Z := 0x1d.
Definition RECEIVE_DIAGNOSTIC_CMD : Z := 0x1c.

(** [(unsigned char)x] *)
Definition uchar (x : Z) : Z := Z.land x 255.

(** The command block [do_senddiag] builds. *)
Definition senddiagCmdBlk (pf_bit outgoing_len : Z) : list Z :=
  [ SEND_DIAGNOSTIC_CMD;
    uchar (Z.shiftl pf_bit 4);
    0;
    uchar (Z.land (Z.shiftr outgoing_len 8) 0xff);
    uchar (Z.land outgoing_len 0xff);
    0 ].

(** The command block [do_rcvdiag] builds. *)
Definition rcvdiagCmdBlk (pcv pg_code mx_resp_len : Z) : list Z :=
  [ RECEIVE_DIAGNOSTIC_CMD;
    uchar (if nz pcv then 0x1 else 0);
    uchar pg_code;
    uchar (Z.land (Z.shiftr mx_resp_len 8) 0xff);
    uchar (Z.land mx_resp_len 0xff);
    0 ].

(** What [do_senddiag] hands to the SG_IO ioctl: the command block, whether
    data goes to the device, and the data with its length. *)
Record sg_io_hdr := mkIo {
  cmdp : list Z;
  dxfer_to_dev : bool;
  dxfer_len : Z;
  dxferp : list Z
}.

(** The bytes the device is handed. *)
Definition transferred (io : sg_io_hdr) : list Z :=
  firstn (Z.to_nat (dxfer_len io)) (dxferp io).

(** [do_senddiag(sg_fd, pf_bit, outgoing_pg, outgoing_len, 1, verbose)]:
    the request issued and the value returned, [dev] telling whether the
    command succeeds.  What is printed about a failure by the library is
    not part of the model. *)
Definition do_senddiag (dev : sg_io_hdr -> bool) (pf_bit : Z)
    (outgoing_pg : list Z) (outgoing_len : Z) : sg_io_hdr * Z :=
  let io_hdr :=
    mkIo (senddiagCmdBlk pf_bit outgoing_len) (nz outgoing_len)
         outgoing_len outgoing_pg in
  (io_hdr, if dev io_hdr then 0 else -1).

(** One arm of the switch of [main] that sends a control page. *)
Definition send_control_page (dev : sg_io_hdr -> bool) (sending couldnt : string)
    (page_code : Z) (data_arr : list Z) (arr_len : Z)
  : option (list out_item * list sg_io_hdr * Z) :=
  if arr_len + 4 >? Z.of_nat (List.length data_arr) then None
  else
    let (io_hdr, res) := do_senddiag dev 1 data_arr (arr_len + 4) in
    if nz res then
      Some ([pr sending [AInt page_code; AInt arr_len]; epr couldnt []],
            [io_hdr], 1)
    else Some ([pr sending [AInt page_code; AInt arr_len]], [io_hdr], 0).

(** The control branch of [main], from [data_arr[0] = page_code] on:
    [data_arr] is the array as [read_hex] left it, with [arr_len] bytes
    stored from offset 4.  The result is what is printed, the requests
    issued and [ret]; [None] is a transfer that runs past [data_arr]. *)
Definition main_control (dev : sg_io_hdr -> bool) (page_code byte1 : Z)
    (data_arr : list Z) (arr_len : Z)
  : option (list out_item * list sg_io_hdr * Z) :=
  let data_arr :=
    list_set 3 (uchar (Z.land arr_len 0xff))
      (list_set 2 (uchar (Z.land (Z.shiftr arr_len 8) 0xff))
         (list_set 1 (uchar byte1)
            (list_set 0 (uchar page_code) data_arr))) in
  match page_code with
  | 0x2 =>     (* Enclosure control diagnostic page *)
      send_control_page dev
        "Sending Enclosure control [0x%x] page, with page length=%d bytes\n"
        "couldn't send Enclosure control page\n" page_code data_arr arr_len
  | 0x4 =>     (* String Out diagnostic page *)
      send_control_page dev
        "Sending String Out [0x%x] page, with page length=%d bytes\n"
        "couldn't send String Out page\n" page_code data_arr arr_len
  | 0x5 =>     (* Threshold Out diagnostic page *)
      send_control_page dev
        "Sending Threshold Out [0x%x] page, with page length=%d bytes\n"
        "couldn't send Threshold Out page\n" page_code data_arr arr_len
  | 0x6 =>     (* Array control diagnostic page (obsolete) *)
      send_control_page dev
        "Sending Array control [0x%x] page, with page length=%d bytes\n"
        "couldn't send Array control page\n" page_code data_arr arr_len
  | 0xc =>     (* Subenclosure String Out diagnostic page *)
      send_control_page dev
        "Sending Subenclosure String Out [0x%x] page, with page length=%d bytes\n"
        "couldn't send Subenclosure String Out page\n" page_code data_arr arr_len
  | _ =>
      Some ([epr "Setting SES control page 0x%x not supported yet\n"
                 [AInt page_code]],
            [], 0)
  end.

Definition is_byte (b : Z) : Prop := 0 <= b <= 255.

(** The answer of the device to the first command, asked for page [pg]. *)
Definition first_answer (dev : list (Z -> option buf)) (pg : Z) : option buf :=
  match dev with
  | [] => None
  | answer :: _ => answer pg
  end.


(** The cursor after [i] element types have been walked from type [k] at
    [ucp], each taking an overall record and one record per element, of 4
    bytes each. *)
Fixpoint walk_offset (ehp : list element_hdr) (k ucp : Z) (i : nat) : Z :=
  match i with
  | O => ucp
  | S i' =>
      walk_offset ehp (k + 1)
        (ucp + 4 * (1 + Z.max 0 (num_elements (ehp_get ehp k)))) i'
  end.

(** The offset of the overall record of the [i]-th element type of a page
    of 4-byte records. *)
Definition type_offset (ehp : list element_hdr) (i : nat) : Z :=
  walk_offset ehp 0 8 i.

(** ** Names taken from the tables of strings *)

(** A [%s] argument that is an entry of [tbl]; other arguments pass. *)
Definition from_table (tbl : list string) (a : arg) : Prop :=
  match a with
  | AStr s => In s tbl
  | _ => True
  end.

(** The tables [print_over_elem_status] reads, and those
    [ses_transport_proto] reads. *)
Definition status_tables : list string :=
  element_status_desc ++ actual_speed_desc ++ nv_cache_unit ++ invop_type_desc.

Definition transport_tables : list string := transport_proto_arr ++ sas_device_type.

(** The two lines of [ses_transport_proto] whose strings are literals of
    the program, not entries of a table. *)
Definition initiator_fmt : string := "      initiator port for: %s %s %s\n".
Definition target_fmt : string := "      target port for: %s %s %s\n".

(** A line of [ses_transport_proto] other than these two takes its strings
    from the tables. *)
Definition transport_line (i : out_item) : Prop :=
  item_fmt i <> initiator_fmt -> item_fmt i <> target_fmt ->
  Forall (from_table transport_tables) (item_args i).

(** ** Reading the payload of a control page: [read_hex] *)

(** A C string is the list of its characters, the terminating NUL left
    out; a pointer into it is the rest of the string and its offset. *)
Definition chars (s : string) : list Ascii.ascii := list_ascii_of_string s.

(** [strspn(s, accept)] *)
Fixpoint strspn (s accept : list Ascii.ascii) : nat :=
  match s with
  | [] => O
  | c :: t => if existsb (Ascii.eqb c) accept then S (strspn t accept) else O
  end.

(** [strpbrk(s, accept)]: the offset of the first character of [s] that is
    in [accept]; [strchr(s, c)] is [strpbrk] for one character. *)
Fixpoint strpbrk (s accept : list Ascii.ascii) : option nat :=
  match s with
  | [] => None
  | c :: t =>
      if existsb (Ascii.eqb c) accept then Some O
      else match strpbrk t accept with
           | Some n => Some (S n)
           | None => None
           end
  end.

Definition TAB : Ascii.ascii := Ascii.ascii_of_nat 9.
Definition NEWLINE : Ascii.ascii := Ascii.ascii_of_nat 10.
Definition NUL : Ascii.ascii := Ascii.ascii_of_nat 0.

(** The character sets of the source: [" \t"], [" ,\t"],
    ["0123456789aAbBcCdDeEfF,"] and ["0123456789aAbBcCdDeEfF ,\t"]. *)
Definition blanks : list Ascii.ascii := chars " " ++ [TAB].
Definition separators : list Ascii.ascii := chars " ," ++ [TAB].
Definition hex_and_comma : list Ascii.ascii := chars "0123456789aAbBcCdDeEfF,".
Definition hex_and_separators : list Ascii.ascii :=
  chars "0123456789aAbBcCdDeEfF ," ++ [TAB].

(** The value of a hexadecimal digit. *)
Definition hex_digit (c : Ascii.ascii) : option Z :=
  let n := Z.of_N (Ascii.N_of_ascii c) in
  if (48 <=? n) && (n <=? 57) then Some (n - 48)
  else if (97 <=? n) && (n <=? 102) then Some (n - 87)
  else if (65 <=? n) && (n <=? 70) then Some (n - 55)
  else None.

(** The value of the hexadecimal digits [s] starts with, after [acc]. *)
Fixpoint hex_run (s : list Ascii.ascii) (acc : Z) : Z :=
  match s with
  | [] => acc
  | c :: t =>
      match hex_digit c with
      | Some d => hex_run t (acc * 16 + d)
      | None => acc
      end
  end.

(** [sscanf(lcp, "%x", &h)] where [read_hex] calls it: on a text of
    hexadecimal digits, commas, blanks and tabs that does not start with a
    blank or a tab.  It converts one item when the text starts with a digit,
    and none otherwise.  The C standard leaves open what is stored for a
    number that an [unsigned int] cannot hold; the C library the program is
    built with, where [long] has 64 bits, converts the digits as [strtoul]
    does, a number above [ULONG_MAX] giving [ULONG_MAX], and stores the low
    32 bits of the result in [h]. *)
Definition ULONG_MAX : Z := 2 ^ 64 - 1.
Definition UINT_RANGE : Z := 2 ^ 32.

Definition strtoul_hex (s : list Ascii.ascii) : Z := Z.min (hex_run s 0) ULONG_MAX.

Inductive scanned := ScanNothing | ScanValue (h : Z).

Definition sscanf_x (lcp : list Ascii.ascii) : scanned :=
  match lcp with
  | [] => ScanNothing
  | c :: _ =>
      match hex_digit c with
      | None => ScanNothing
      | Some _ => ScanValue (strtoul_hex lcp mod UINT_RANGE)
      end
  end.

(** [arr[k] = h]: a store outside the room [arr] has is undefined. *)
Definition arr_store (arr : list Z) (k h : Z) : option (list Z) :=
  if (0 <=? k) && (k <? Z.of_nat (List.length arr))
  then Some (list_set (Z.to_nat k) h arr)
  else None.

(** How the loop over the numbers of one text is left: with the value of
    [k] and the array, or through an error message. *)
Inductive hex_loop :=
| HexRead (k : Z) (arr : list Z)
| HexError (msg : out_item) (arr : list Z).

(** The loop of the command line branch; [pos] is [lcp - inp]. *)
Fixpoint read_hex_args (fuel : nat) (k : Z) (lcp : list Ascii.ascii) (pos : Z)
    (arr : list Z) : option hex_loop :=
  match fuel with
  | O => Some (HexRead k arr)
  | S fuel' =>
      match sscanf_x lcp with
      | ScanNothing =>
          Some (HexError (epr "read_hex: error at pos %d\n" [AInt (pos + 1)]) arr)
      | ScanValue h =>
          if h >? 0xff then
            Some (HexError
                    (epr "read_hex: hex number larger than 0xff at pos %d\n"
                         [AInt (pos + 1)]) arr)
          else
            match arr_store arr k h with
            | None => None
            | Some arr' =>
                match strpbrk lcp (chars ",") with
                | None => Some (HexRead k arr')
                | Some n =>
                    read_hex_args fuel' (k + 1) (skipn (S n) lcp)
                      (pos + Z.of_nat (S n)) arr'
                end
            end
      end
  end.

(** The loop over the numbers of one line of the standard input; [pos] is
    [lcp - line]. *)
Fixpoint read_hex_line (fuel : nat) (j off k : Z) (lcp : list Ascii.ascii)
    (pos : Z) (arr : list Z) : option hex_loop :=
  match fuel with
  | O => Some (HexRead k arr)
  | S fuel' =>
      match sscanf_x lcp with
      | ScanNothing =>
          Some (HexError (epr "read_hex: error in line %d, at pos %d\n"
                              [AInt (j + 1); AInt (pos + 1)]) arr)
      | ScanValue h =>
          if h >? 0xff then
            Some (HexError
                    (epr "read_hex: hex number larger than 0xff in line %d, pos %d\n"
                         [AInt (j + 1); AInt (pos + 1)]) arr)
          else
            match arr_store arr (off + k) h with
            | None => None
            | Some arr' =>
                match strpbrk lcp separators with
                | None => Some (HexRead k arr')
                | Some n =>
                    let sep := skipn n lcp in
                    let m := strspn sep separators in
                    match skipn m sep with
                    | [] => Some (HexRead k arr')
                    | rest =>
                        read_hex_line fuel' j off (k + 1) rest
                          (pos + Z.of_nat n + Z.of_nat m) arr'
                    end
                end
            end
      end
  end.

(** [fgets(line, sizeof(line), stdin)] with [line] of 512 characters: at
    most [n] characters are read, up to and including a newline. *)
Fixpoint fgets_take (n : nat) (stdin : list Ascii.ascii)
  : list Ascii.ascii * list Ascii.ascii :=
  match n, stdin with
  | O, _ => ([], stdin)
  | _, [] => ([], [])
  | S n', c :: t =>
      if Ascii.eqb c NEWLINE then ([c], t)
      else let (l, rest) := fgets_take n' t in (c :: l, rest)
  end.

Definition fgets (stdin : list Ascii.ascii)
  : option (list Ascii.ascii * list Ascii.ascii) :=
  match stdin with
  | [] => None
  | _ => Some (fgets_take 511 stdin)
  end.

(** The string a buffer holds: its characters up to the first NUL. *)
Fixpoint c_string (l : list Ascii.ascii) : list Ascii.ascii :=
  match l with
  | [] => []
  | c :: t => if Ascii.eqb c NUL then [] else c :: c_string t
  end.

(** The line without the newline that ends it, if one does. *)
Definition chomp (line : list Ascii.ascii) : list Ascii.ascii :=
  match rev line with
  | c :: before => if Ascii.eqb c NEWLINE then rev before else line
  | [] => line
  end.

(** The loop over the lines of the standard input. *)
Fixpoint read_hex_stdin (fuel : nat) (j off : Z) (stdin : list Ascii.ascii)
    (arr : list Z) : option hex_loop :=
  match fuel with
  | O => Some (HexRead off arr)
  | S fuel' =>
      match fgets stdin with
      | None => Some (HexRead off arr)
      | Some (buffer, stdin') =>
          let line := chomp (c_string buffer) in
          let m := strspn line blanks in
          let lcp := skipn m line in
          if (List.length line =? 0)%nat then
            read_hex_stdin fuel' (j + 1) off stdin' arr
          else if (m =? List.length line)%nat then
            read_hex_stdin fuel' (j + 1) off stdin' arr
          else if match lcp with
                  | c :: _ => Ascii.eqb c (Ascii.ascii_of_nat 35)   (* '#' *)
                  | [] => false
                  end then
            read_hex_stdin fuel' (j + 1) off stdin' arr
          else
            let k := strspn lcp hex_and_separators in
            if negb (List.length lcp =? k)%nat then
              Some (HexError
                      (epr "read_hex: syntax error at line %d, pos %d\n"
                           [AInt (j + 1); AInt (Z.of_nat m + Z.of_nat k + 1)])
                      arr)
            else
              match read_hex_line 1024 j off 0 lcp (Z.of_nat m) arr with
              | None => None
              | Some (HexError msg arr') => Some (HexError msg arr')
              | Some (HexRead k arr') =>
                  read_hex_stdin fuel' (j + 1) (off + (k + 1)) stdin' arr'
              end
      end
  end.

(** [read_hex(inp, arr, &arr_len)] with pointers that are not NULL: the
    value returned, the array and [*arr_len] afterwards, and what was
    printed; [stdin] is the standard input, read when [inp] starts with
    '-'.  [None] is a store outside the room [arr] has. *)
Definition read_hex (inp stdin : list Ascii.ascii) (arr : list Z) (arr_len : Z)
  : option (Z * list Z * Z * list out_item) :=
  let in_len := List.length inp in
  let arr_len := if (in_len =? 0)%nat then 0 else arr_len in
  if match inp with
     | c :: _ => Ascii.eqb c (Ascii.ascii_of_nat 45)   (* '-' *)
     | [] => false
     end then
    (* read from stdin *)
    match read_hex_stdin 512 0 0 stdin arr with
    | None => None
    | Some (HexError msg arr') => Some (1, arr', arr_len, [msg])
    | Some (HexRead off arr') => Some (0, arr', off, [])
    end
  else
    (* hex string on command line *)
    let k := strspn inp hex_and_comma in
    if negb (in_len =? k)%nat then
      Some (1, arr, arr_len,
            [epr "read_hex: error at pos %d\n" [AInt (Z.of_nat k + 1)]])
    else
      match read_hex_args 1024 0 inp 0 arr with
      | None => None
      | Some (HexError msg arr') => Some (1, arr', arr_len, [msg])
      | Some (HexRead k arr') => Some (0, arr', k + 1, [])
      end.

(** The ['d'] option of [main], given once: [data_arr] is cleared and
    [read_hex] stores from [data_arr + 4].  The result is what is printed
    and, unless [main] returns 1 there, [data_arr] and [arr_len]. *)
Definition main_data (optarg stdin : list Ascii.ascii)
  : option (list out_item * option (list Z * Z)) :=
  match read_hex optarg stdin (repeat 0 1020) 0 with
  | None => None
  | Some (res, arr, arr_len, out) =>
      if nz res then Some (out ++ [epr "bad argument to '--data'\n" []], None)
      else Some (out, Some ([0; 0; 0; 0] ++ arr, arr_len))
  end.

(** The text of a list of bytes as two hexadecimal digits each, with
    commas between them. *)
Definition hex_char (d : Z) : Ascii.ascii :=
  nth (Z.to_nat d) (chars "0123456789abcdef") NUL.

Definition hex2 (b : Z) : list Ascii.ascii := [hex_char (b / 16); hex_char (b mod 16)].

Fixpoint hex_text (bs : list Z) : list Ascii.ascii :=
  match bs with
  | [] => []
  | [b] => hex2 b
  | b :: rest => hex2 b ++ chars "," ++ hex_text rest
  end.

(** [arr] with the values [bs] stored from index [k] on. *)
Fixpoint store_all (arr : list Z) (k : nat) (bs : list Z) : list Z :=
  match bs with
  | [] => arr
  | b :: rest => store_all (list_set k b arr) (S k) rest
  end.


(** What follows a number in a text: nothing, or a character that is not
    a hexadecimal digit. *)
Definition ends_number (rest : list Ascii.ascii) : Prop :=
  match rest with
  | [] => True
  | c :: _ => hex_digit c = None
  end.


(** * Properties *)

(** ** Bytes *)

Lemma rd_range (b : buf) (i : Z) : 0 <= rd b i <= 255.
Proof.
  unfold rd. change 255 with (Z.ones 8). rewrite Z.land_ones by lia.
  assert (H : 0 <= nth (Z.to_nat i) b 0 mod 2 ^ 8 < 2 ^ 8)
    by (apply Z.mod_pos_bound; reflexivity).
  change (Z.ones 8) with 255. change (2 ^ 8) with 256 in *. lia.
Qed.

Lemma bytes_at_S (b : buf) (off : Z) (n : nat) :
  bytes_at b off (S n) = rd b off :: bytes_at b (off + 1) n.
Proof.
  unfold bytes_at. simpl. rewrite Z.add_0_r. f_equal.
  rewrite <- seq_shift, map_map. apply map_ext. intro m. f_equal. lia.
Qed.

Lemma last_cons_default {A : Type} (l : list A) (x d d' : A) :
  last (x :: l) d = last (x :: l) d'.
Proof.
  revert x. induction l as [|y l IH]; intro x; [reflexivity|].
  change (last (y :: l) d = last (y :: l) d'). apply IH.
Qed.

(** ** Supported pages *)

Lemma supported_pages_loop_run (resp : buf) (n : nat) :
  forall k prev,
  exists cs rest,
    bytes_at resp (k + 4) n = cs ++ rest
    /\ supported_pages_loop n resp k prev = map page_line cs
    /\ ascending_from prev cs
    /\ (rest = [] \/ exists c rest', rest = c :: rest' /\ c < last cs prev).
Proof.
  induction n as [|n IH]; intros k prev.
  - exists [], []. simpl. auto.
  - rewrite bytes_at_S. simpl.
    destruct (rd resp (k + 4) <? prev) eqn:E.
    + exists [], (rd resp (k + 4) :: bytes_at resp (k + 4 + 1) n).
      simpl. repeat split; auto.
      right. eexists _, _. split; [reflexivity|]. apply Z.ltb_lt. exact E.
    + destruct (IH (k + 1) (rd resp (k + 4))) as (cs & rest & Hb & Hl & Ha & Hs).
      exists (rd resp (k + 4) :: cs), rest.
      replace (k + 4 + 1) with (k + 1 + 4) by lia.
      rewrite Hb, Hl. repeat split; auto.
      * apply Z.ltb_ge. exact E.
      * destruct Hs as [->|(c & rest' & -> & Hc)]; [now left|].
        right. exists c, rest'. split; [reflexivity|].
        destruct cs as [|z cs]; [exact Hc|].
        change (c < last (z :: cs) prev).
        rewrite (last_cons_default cs z prev (rd resp (k + 4))). exact Hc.
Qed.

(** C8. The Supported-Pages decoder prints, after its lead-in, one line per
    page-code byte taken from offset 4 on, each resolved through the page-code
    catalog; the bytes printed form the longest run in which no byte is
    smaller than its predecessor, and it stops at the first byte that is:
    what follows is taken for padding.  On the bytes 00 01 02 00 at offset 4
    it prints pages 0, 1 and 2 and nothing for the last byte. *)
Theorem supported_pages_stop_at_first_descent :
  (forall leadin resp resp_len,
     exists cs rest,
       bytes_at resp 4 (Z.to_nat (resp_len - 4)) = cs ++ rest
       /\ ses_supported_pages_sdg leadin resp resp_len
          = pr "%s:\n" [AStr leadin] :: map page_line cs
       /\ ascending_from 0 cs
       /\ (rest = [] \/ exists c rest', rest = c :: rest' /\ c < last cs 0))
  /\ (forall leadin,
        ses_supported_pages_sdg leadin [0x00; 0x00; 0x00; 0x04; 0x00; 0x01; 0x02; 0x00] 8
        = [ pr "%s:\n" [AStr leadin];
            pr "  %s [0x%x]\n" [AStr "Supported diagnostic pages"; AInt 0];
            pr "  %s [0x%x]\n" [AStr "Configuration (SES)"; AInt 1];
            pr "  %s [0x%x]\n" [AStr "Enclosure status/control (SES)"; AInt 2] ]).
Proof.
  split.
  - intros leadin resp resp_len.
    destruct (supported_pages_loop_run resp (Z.to_nat (resp_len - 4)) 0 0)
      as (cs & rest & Hb & Hl & Ha & Hs).
    exists cs, rest. unfold ses_supported_pages_sdg.
    rewrite Hl. auto.
  - intro leadin. reflexivity.
Qed.

(** ** Bits *)

Lemma bang2_land_pow2 (x n : Z) :
  0 <= n -> bang2 (Z.land x (2 ^ n)) = Z.b2z (Z.testbit x n).
Proof.
  intro Hn. unfold bang2. destruct (Z.testbit x n) eqn:T.
  - destruct (Z.land x (2 ^ n) =? 0) eqn:E; [|reflexivity].
    apply Z.eqb_eq in E.
    assert (H : Z.testbit (Z.land x (2 ^ n)) n = true)
      by (rewrite Z.land_spec, T, Z.pow2_bits_true; auto).
    rewrite E, Z.bits_0 in H. discriminate.
  - replace (Z.land x (2 ^ n)) with 0; [reflexivity|].
    symmetry. apply Z.bits_inj'. intros m Hm.
    rewrite Z.land_spec, Z.bits_0, Z.pow2_bits_eqb by lia.
    destruct (Z.eqb_spec n m) as [->|_].
    + rewrite T. reflexivity.
    + apply andb_false_r.
Qed.

Lemma fl_bit (x : Z) (n : Z) :
  0 <= n -> fl x (2 ^ n) = AInt (Z.b2z (Z.testbit x n)).
Proof. intro Hn. unfold fl. now rewrite bang2_land_pow2. Qed.

(** ** SAS transport descriptor *)

Lemma sas_phys_S (resp : buf) (n : nat) (phys j per_ucp : Z) :
  sas_phys resp (S n) phys j per_ucp
  = sas_phy resp phys per_ucp ++ sas_phys resp n phys (j + 1) (per_ucp + 28).
Proof. reflexivity. Qed.

Lemma sas_phy_length (resp : buf) (phys per_ucp : Z) :
  List.length (sas_phy resp phys per_ucp) = 22%nat.
Proof. reflexivity. Qed.

Lemma sas_phys_nth (resp : buf) (phys : Z) (n : nat) :
  forall (j0 per_ucp : Z) (i m : nat),
    (i < n)%nat -> (m < 22)%nat ->
    nth_error (sas_phys resp n phys j0 per_ucp) (22 * i + m)
    = nth_error (sas_phy resp phys (per_ucp + 28 * Z.of_nat i)) m.
Proof.
  induction n as [|n IH]; intros j0 per_ucp i m Hi Hm; [lia|].
  rewrite sas_phys_S. destruct i as [|i].
  - rewrite Nat.mul_0_r, Nat.add_0_l, Z.mul_0_r, Z.add_0_r.
    apply nth_error_app1. rewrite sas_phy_length. exact Hm.
  - rewrite nth_error_app2 by (rewrite sas_phy_length; lia).
    rewrite sas_phy_length.
    replace (22 * S i + m - 22)%nat with (22 * i + m)%nat by lia.
    rewrite IH by lia. f_equal. f_equal. lia.
Qed.

(** C9. In the SAS transport descriptor, the label printed in front of every
    per-phy record is the phy count plus one, whatever the index of the
    record in the loop, while the record itself (its device type, its phy
    identifier) is read 28 bytes further on for each record. *)
Theorem sas_phy_label_is_count_plus_one
    (resp : buf) (ucp len elem_num j : Z) :
  Z.land 0xf (rd resp ucp) = 6 ->
  0 <= j < rd resp (ucp + 2) ->
  nth_error (ses_transport_proto resp ucp len elem_num) (Z.to_nat (2 + 22 * j))
  = Some (pr "    [%d] device type: %s\n"
             [AInt (rd resp (ucp + 2) + 1);
              AStr (str_at sas_device_type
                      (Z.shiftr (Z.land 0x70 (rd resp (ucp + 4 + 28 * j + 4))) 4))])
  /\ nth_error (ses_transport_proto resp ucp len elem_num)
       (Z.to_nat (2 + 22 * j + 21))
     = Some (pr "\n      phy identifier: 0x%x\n"
                [AInt (rd resp (ucp + 4 + 28 * j + 24))]).
Proof.
  intros Hproto Hj. unfold ses_transport_proto. rewrite Hproto.
  set (phys := rd resp (ucp + 2)) in *.
  assert (Hi : (Z.to_nat j < Z.to_nat phys)%nat) by lia.
  split.
  - replace (Z.to_nat (2 + 22 * j)) with (2 + (22 * Z.to_nat j + 0))%nat by lia.
    change (nth_error (sas_phys resp (Z.to_nat phys) phys 0 (ucp + 4))
              (22 * Z.to_nat j + 0) = Some (hd truncated (sas_phy resp phys (ucp + 4 + 28 * j)))).
    rewrite (sas_phys_nth resp phys _ 0 (ucp + 4) _ 0%nat Hi) by lia.
    rewrite Z2Nat.id by lia. reflexivity.
  - replace (Z.to_nat (2 + 22 * j + 21)) with (2 + (22 * Z.to_nat j + 21))%nat by lia.
    change (nth_error (sas_phys resp (Z.to_nat phys) phys 0 (ucp + 4))
              (22 * Z.to_nat j + 21)
            = nth_error (sas_phy resp phys (ucp + 4 + 28 * j)) 21).
    rewrite (sas_phys_nth resp phys _ 0 (ucp + 4) _ 21%nat Hi) by lia.
    rewrite Z2Nat.id by lia. reflexivity.
Qed.

Lemma sas_phy_label_is_count_plus_one_witness :
  Z.land 0xf (rd [0x06; 58; 2; 0] 0) = 6
  /\ 0 <= 1 < rd [0x06; 58; 2; 0] (0 + 2)
  /\ nth_error (ses_transport_proto [0x06; 58; 2; 0] 0 60 0) (Z.to_nat (2 + 22 * 1))
     = Some (pr "    [%d] device type: %s\n"
                [AInt (rd [0x06; 58; 2; 0] (0 + 2) + 1);
                 AStr (str_at sas_device_type
                         (Z.shiftr (Z.land 0x70 (rd [0x06; 58; 2; 0] (0 + 4 + 28 * 1 + 4))) 4))]).
Proof.
  split; [reflexivity|]. split; [vm_compute; split; congruence|].
  apply (sas_phy_label_is_count_plus_one [0x06; 58; 2; 0] 0 60 0 1).
  - reflexivity.
  - vm_compute; split; congruence.
Defined.

(** ** Device status record *)

(** C6 (as amended). In the unfiltered rendering of a Device (type 1) status
    record the status is the entry of the status table for the low 4 bits of
    byte 0, predicted failure is bit 6 of byte 0, the slot address is byte 1,
    app-client-bypassed-A is bit 7 of byte 2 and enclosure-bypassed-A is bit 5
    of byte 2.  The record 01 05 A0 12 therefore decodes, in either
    rendering, to status OK, predicted failure 0, slot address 5, app client
    bypassed A 1 and enclosure bypassed A 1. *)
Theorem device_status_record_fields :
  (forall pad resp statp,
     exists rest,
       print_over_elem_status pad resp statp 1 0
       = pr "%sPredicted failure=%d, swap=%d, status: %s\n"
            [AStr pad;
             AInt (Z.b2z (Z.testbit (rd resp statp) 6));
             AInt (Z.b2z (Z.testbit (rd resp statp) 4));
             AStr (str_at element_status_desc (rd resp statp mod 16))]
         :: pr "%sSlot address: %d\n" [AStr pad; AInt (rd resp (statp + 1))]
         :: pr "%sApp client bypassed A=%d, Do not remove=%d, Enc bypassed A=%d\n"
               [AStr pad;
                AInt (Z.b2z (Z.testbit (rd resp (statp + 2)) 7));
                AInt (Z.b2z (Z.testbit (rd resp (statp + 2)) 6));
                AInt (Z.b2z (Z.testbit (rd resp (statp + 2)) 5))]
         :: rest)
  /\ (forall pad filter,
        exists rest,
          print_over_elem_status pad [0x01; 0x05; 0xA0; 0x12] 0 1 filter
          = pr "%sPredicted failure=%d, swap=%d, status: %s\n"
               [AStr pad; AInt 0; AInt 0; AStr "OK"]
            :: pr "%sSlot address: %d\n" [AStr pad; AInt 5]
            :: pr "%sApp client bypassed A=%d, Do not remove=%d, Enc bypassed A=%d\n"
                  [AStr pad; AInt 1; AInt 0; AInt 1]
            :: rest).
Proof.
  split.
  - intros pad resp statp. eexists.
    unfold print_over_elem_status.
    change (0 =? 0) with true. cbn [orb ifp app].
    change 0x40 with (2 ^ 6). change 0x10 with (2 ^ 4).
    change 0x80 with (2 ^ 7). change 0x20 with (2 ^ 5).
    rewrite !fl_bit by lia.
    change 0xf with (Z.ones 4). rewrite Z.land_ones by lia.
    change (2 ^ 4) with 16. reflexivity.
  - intros pad filter. eexists.
    unfold print_over_elem_status.
    change (nz (Z.land 0xe0 (rd [0x01; 0x05; 0xA0; 0x12] (0 + 2)))) with true.
    rewrite orb_true_r. cbn [ifp app]. reflexivity.
Qed.

(** The record of scenario B is not rendered as the scenario has it: the
    status is not Critical and enclosure bypassed A is not 0. *)
Lemma device_status_scenario_b_refuted :
  ~ (exists swap dnr rest,
       print_over_elem_status "       " [0x01; 0x05; 0xA0; 0x12] 0 1 0
       = pr "%sPredicted failure=%d, swap=%d, status: %s\n"
            [AStr "       "; AInt 0; AInt swap; AStr "Critical"]
         :: pr "%sSlot address: %d\n" [AStr "       "; AInt 5]
         :: pr "%sApp client bypassed A=%d, Do not remove=%d, Enc bypassed A=%d\n"
               [AStr "       "; AInt 1; AInt dnr; AInt 0]
         :: rest).
Proof.
  intros (swap & dnr & rest & H). vm_compute in H. discriminate H.
Qed.

(** ** UPS thresholds *)

(** C7 (as amended). A threshold record of a UPS element (type 0x0b),
    rendered in structured form, prints two fields: low warning from byte 2
    and low critical from byte 3 of the record.  Each of these bytes is its
    own sentinel: 0 is rendered as the marker <vendor>, any other value as
    the number.  Bytes 0 and 1 are not rendered. *)
Theorem ups_threshold_sentinels (pad : string) (resp : buf) (tp p_num : Z) :
  ses_threshold_helper pad resp tp 0xb p_num 0
  = [ pr "%s%s: low warning=%s, "
         [AStr pad;
          AStr (if p_num <? 0 then "Overall threshold"
                else ("Element " ++ dec (p_num + 1) ++ " threshold")%string);
          AStr (if rd resp (tp + 2) =? 0 then "<vendor>"
                else dec (rd resp (tp + 2)))];
      pr "low critical=%s (in minutes)\n"
         [AStr (if rd resp (tp + 3) =? 0 then "<vendor>"
                else dec (rd resp (tp + 3)))] ].
Proof.
  unfold ses_threshold_helper. change (nz 0) with false. cbv iota.
  rewrite (Z.eqb_sym 0 (rd resp (tp + 2))), (Z.eqb_sym 0 (rd resp (tp + 3))).
  reflexivity.
Qed.

(** A UPS threshold record whose byte 0 is 0 and whose other bytes are not:
    numbers are rendered, and no vendor-specific marker is. *)
Lemma ups_threshold_byte0_not_sentinel :
  ses_threshold_helper "    " [0; 5; 7; 9] 0 0xb (-1) 0
  = [ pr "%s%s: low warning=%s, "
         [AStr "    "; AStr "Overall threshold"; AStr "7"];
      pr "low critical=%s (in minutes)\n" [AStr "9"] ]
  /\ ~ In (AStr "<vendor-specific>")
         (flat_map item_args (ses_threshold_helper "    " [0; 5; 7; 9] 0 0xb (-1) 0)).
Proof.
  split; [reflexivity|].
  vm_compute. intros [H|[H|[H|[H|[]]]]]; discriminate H.
Qed.

(** ** The element map *)

Lemma list_set_length {A : Type} (l : list A) :
  forall n x, List.length (list_set n x l) = List.length l.
Proof.
  induction l as [|h t IH]; intros [|n] x; simpl; auto.
Qed.

Lemma nth_list_set_eq {A : Type} (l : list A) :
  forall n x d, (n < List.length l)%nat -> nth n (list_set n x l) d = x.
Proof.
  induction l as [|h t IH]; intros [|n] x d Hn; simpl in *; try lia; auto.
  apply IH. lia.
Qed.

Lemma nth_list_set_neq {A : Type} (l : list A) :
  forall n m x d, n <> m -> nth m (list_set n x l) d = nth m l d.
Proof.
  induction l as [|h t IH]; intros [|n] [|m] x d Hnm; simpl; auto; try congruence.
Qed.

Lemma ehp_store_inside (ehp : list element_hdr) (k : Z) (h : element_hdr) :
  0 <= k < Z.of_nat (List.length ehp) ->
  ehp_store ehp k h = Some (list_set (Z.to_nat k) h ehp).
Proof.
  intro Hk. unfold ehp_store.
  destruct (Z.leb_spec 0 k); [|lia].
  destruct (Z.ltb_spec k (Z.of_nat (List.length ehp))); [reflexivity|lia].
Qed.

Lemma pop_subs_sum (resp : buf) (resp_len : Z) (n : nat) :
  forall ucp s o ucp' s',
    pop_subs resp resp_len n ucp s = (o, Some (ucp', s')) -> s <= s'.
Proof.
  induction n as [|n IH]; intros ucp s o ucp' s' H; simpl in H.
  - inversion H. lia.
  - destruct (ucp + 4 >? resp_len - 1); [discriminate|].
    destruct (pop_subs resp resp_len n (ucp + (rd resp (ucp + 3) + 4))
                (s + rd resp (ucp + 2))) as [rest r] eqn:E.
    inversion H; subst. apply IH in E.
    pose proof (rd_range resp (ucp + 2)). lia.
Qed.

Lemma gtb_le_false (a b : Z) : a <= b -> (a >? b) = false.
Proof. rewrite Z.gtb_ltb. apply Z.ltb_ge. Qed.

Lemma geb_false_lt (a b : Z) : (a >=? b) = false -> a < b.
Proof. rewrite Z.geb_leb. apply Z.leb_gt. Qed.

(** Within an array of [MX_ELEM_HDR] entries the second loop never stores
    outside it, and it cannot run to its end over more than that many
    declarations. *)
Lemma pop_hdrs_inside (resp : buf) (resp_len : Z) (n : nat) :
  forall k ucp ehp,
    0 <= k <= MX_ELEM_HDR ->
    List.length ehp = Z.to_nat MX_ELEM_HDR ->
    exists e ehp',
      pop_hdrs resp resp_len n k ucp ehp = Some (e, ehp')
      /\ List.length ehp' = Z.to_nat MX_ELEM_HDR
      /\ (e = PopDone -> k + Z.of_nat n <= MX_ELEM_HDR).
Proof.
  induction n as [|n IH]; intros k ucp ehp Hk Hlen.
  - exists PopDone, ehp. simpl. repeat split; auto. intros _. lia.
  - cbn [pop_hdrs].
    destruct (ucp + 4 >? resp_len - 1).
    { exists PopTruncated, ehp. repeat split; auto. discriminate. }
    destruct (k >=? MX_ELEM_HDR) eqn:Ek.
    { exists PopTooMany, ehp. repeat split; auto. discriminate. }
    apply geb_false_lt in Ek.
    rewrite ehp_store_inside by (rewrite Hlen; unfold MX_ELEM_HDR in *; lia).
    destruct (IH (k + 1) (ucp + 4)
                (list_set (Z.to_nat k)
                   (mkHdr (rd resp ucp) (rd resp (ucp + 1)) (rd resp (ucp + 2)) 0) ehp))
      as (e & ehp' & Hrun & Hlen' & Hdone).
    + lia.
    + rewrite list_set_length. exact Hlen.
    + exists e, ehp'. repeat split; auto. intro He. specialize (Hdone He). lia.
Qed.

(** When more than [MX_ELEM_HDR] declarations are announced and the page
    holds the one of index [MX_ELEM_HDR], the loop is left through "too many
    elements", every entry of the array from [k] on having been written
    from the page and none elsewhere. *)
Lemma pop_hdrs_too_many (resp : buf) (resp_len : Z) (n : nat) :
  forall k ucp ehp,
    0 <= k <= MX_ELEM_HDR ->
    List.length ehp = Z.to_nat MX_ELEM_HDR ->
    MX_ELEM_HDR < k + Z.of_nat n ->
    ucp + 4 * (MX_ELEM_HDR - k) + 4 <= resp_len - 1 ->
    exists ehp',
      pop_hdrs resp resp_len n k ucp ehp = Some (PopTooMany, ehp')
      /\ (forall i, k <= i < MX_ELEM_HDR ->
            ehp_get ehp' i
            = mkHdr (rd resp (ucp + 4 * (i - k))) (rd resp (ucp + 4 * (i - k) + 1))
                    (rd resp (ucp + 4 * (i - k) + 2)) 0)
      /\ (forall i, 0 <= i < k -> ehp_get ehp' i = ehp_get ehp i).
Proof.
  induction n as [|n IH]; intros k ucp ehp Hk Hlen Hmany Hin; [lia|].
  cbn [pop_hdrs]. rewrite gtb_le_false by lia.
  destruct (k >=? MX_ELEM_HDR) eqn:Ek.
  { exists ehp. repeat split; auto. intros i Hi.
    rewrite Z.geb_leb in Ek. apply Z.leb_le in Ek. lia. }
  apply geb_false_lt in Ek.
  rewrite ehp_store_inside by (rewrite Hlen; unfold MX_ELEM_HDR in *; lia).
  set (h := mkHdr (rd resp ucp) (rd resp (ucp + 1)) (rd resp (ucp + 2)) 0).
  destruct (IH (k + 1) (ucp + 4) (list_set (Z.to_nat k) h ehp))
    as (ehp' & Hrun & Hnew & Hold).
  - lia.
  - rewrite list_set_length. exact Hlen.
  - lia.
  - lia.
  - exists ehp'. split; [exact Hrun|]. split.
    + intros i Hi. destruct (Z.eq_dec i k) as [->|Hne].
      * rewrite Hold by lia. unfold ehp_get.
        rewrite nth_list_set_eq by (rewrite Hlen; unfold MX_ELEM_HDR in *; lia).
        subst h. rewrite Z.sub_diag, Z.mul_0_r, !Z.add_0_r. reflexivity.
      * rewrite Hnew by lia.
        replace (ucp + 4 + 4 * (i - (k + 1))) with (ucp + 4 * (i - k)) by lia.
        reflexivity.
    + intros i Hi. rewrite Hold by lia. unfold ehp_get.
      apply nth_list_set_neq. lia.
Qed.

(** When more declarations are announced than the array holds but the page
    ends before the one of index [MX_ELEM_HDR] can be tested, the loop is
    left through "config too short": the test for the end of the page comes
    first. *)
Lemma pop_hdrs_too_short (resp : buf) (resp_len : Z) (n : nat) :
  forall k ucp ehp,
    0 <= k <= MX_ELEM_HDR ->
    List.length ehp = Z.to_nat MX_ELEM_HDR ->
    MX_ELEM_HDR < k + Z.of_nat n ->
    resp_len - 1 < ucp + 4 * (MX_ELEM_HDR - k) + 4 ->
    exists ehp', pop_hdrs resp resp_len n k ucp ehp = Some (PopTruncated, ehp').
Proof.
  induction n as [|n IH]; intros k ucp ehp Hk Hlen Hmany Hout; [lia|].
  cbn [pop_hdrs].
  destruct (Z.gtb_spec (ucp + 4) (resp_len - 1)) as [Hgt|Hle].
  { exists ehp. reflexivity. }
  destruct (k >=? MX_ELEM_HDR) eqn:Ek.
  { rewrite Z.geb_leb in Ek. apply Z.leb_le in Ek. lia. }
  apply geb_false_lt in Ek.
  rewrite ehp_store_inside by (rewrite Hlen; unfold MX_ELEM_HDR in *; lia).
  apply IH; [lia | rewrite list_set_length; exact Hlen | lia | lia].
Qed.

(** C10. Whatever Configuration page is received, building the element map
    in the array of 512 (MX_ELEM_HDR) headers never stores outside the array
    and never reports more than 512 headers.  When the page announces more
    than 512 element types the result is the error -1; and when the page is
    long enough to hold the 513th declaration, the 512 entries of the array
    are the first 512 declarations and the walk stops there with "too many
    elements", nothing being written for the 513th.  When the page ends
    before that, the walk stops with "config too short" instead, the end of
    the page being tested first. *)
Theorem populate_writes_at_most_512 (resp : buf) (ehp : list element_hdr) :
  List.length ehp = Z.to_nat MX_ELEM_HDR ->
  exists p,
    populate_parse resp ehp = Some p
    /\ List.length (pop_ehp p) = Z.to_nat MX_ELEM_HDR
    /\ pop_res p <= MX_ELEM_HDR
    /\ (forall o ucp sum_elem_types,
          rd resp 0 = 1 ->
          pop_subs resp (clamp_len (page_len resp)) (Z.to_nat (rd resp 1 + 1)) 8 0
          = (o, Some (ucp, sum_elem_types)) ->
          MX_ELEM_HDR < sum_elem_types ->
          pop_res p = -1
          /\ (ucp + 4 * MX_ELEM_HDR + 4 <= clamp_len (page_len resp) - 1 ->
              pop_out p = buffer_too_small (page_len resp) ++ o ++ [too_many_elements]
              /\ forall k, 0 <= k < MX_ELEM_HDR ->
                   ehp_get (pop_ehp p) k
                   = mkHdr (rd resp (ucp + 4 * k)) (rd resp (ucp + 4 * k + 1))
                           (rd resp (ucp + 4 * k + 2)) 0)
          /\ (clamp_len (page_len resp) - 1 < ucp + 4 * MX_ELEM_HDR + 4 ->
              pop_out p = buffer_too_small (page_len resp) ++ o ++ [config_too_short])).
Proof.
  intro Hlen. unfold populate_parse.
  destruct (rd resp 0 =? 1) eqn:E0; cbn [negb].
  2:{ eexists. split; [reflexivity|]. cbn [pop_ehp pop_res].
      split; [exact Hlen|]. split; [unfold MX_ELEM_HDR; lia|].
      intros o ucp s H1. apply Z.eqb_neq in E0. contradiction. }
  set (resp_len := clamp_len (page_len resp)).
  assert (Hl4 : (resp_len <? 4) = false).
  { apply Z.ltb_ge. subst resp_len. unfold clamp_len, page_len, MX_ALLOC_LEN.
    pose proof (rd_range resp 2). pose proof (rd_range resp 3).
    pose proof (Z.shiftl_nonneg (rd resp 2) 8).
    destruct (_ >? 4096); lia. }
  rewrite Hl4.
  destruct (pop_subs resp resp_len (Z.to_nat (rd resp 1 + 1)) 8 0)
    as [o [[ucp s]|]] eqn:Esubs.
  2:{ eexists. split; [reflexivity|]. cbn [pop_ehp pop_res].
      split; [exact Hlen|]. split; [unfold MX_ELEM_HDR; lia|].
      intros o0 ucp0 s0 _ Habs. discriminate Habs. }
  destruct (pop_hdrs_inside resp resp_len (Z.to_nat s) 0 ucp ehp)
    as (e & ehp' & Hrun & Hlen' & Hdone);
    [unfold MX_ELEM_HDR; lia | exact Hlen |].
  pose proof (pop_subs_sum _ _ _ _ _ _ _ _ Esubs) as Hs.
  rewrite Hrun.
  assert (Hmany : MX_ELEM_HDR < s ->
            ucp + 4 * MX_ELEM_HDR + 4 <= resp_len - 1 ->
            e = PopTooMany
            /\ forall k, 0 <= k < MX_ELEM_HDR ->
                 ehp_get ehp' k
                 = mkHdr (rd resp (ucp + 4 * k)) (rd resp (ucp + 4 * k + 1))
                         (rd resp (ucp + 4 * k + 2)) 0).
  { intros Hs0 Hin.
    destruct (pop_hdrs_too_many resp resp_len (Z.to_nat s) 0 ucp ehp)
      as (ehp2 & Hrun2 & Hnew & _);
      [unfold MX_ELEM_HDR; lia | exact Hlen | lia | lia |].
    rewrite Hrun in Hrun2. inversion Hrun2; subst. split; [reflexivity|].
    intros k Hk. rewrite Hnew by lia. rewrite Z.sub_0_r. reflexivity. }
  assert (Hshort : MX_ELEM_HDR < s ->
            resp_len - 1 < ucp + 4 * MX_ELEM_HDR + 4 ->
            e = PopTruncated).
  { intros Hs0 Hout.
    destruct (pop_hdrs_too_short resp resp_len (Z.to_nat s) 0 ucp ehp)
      as (ehp2 & Hrun2);
      [unfold MX_ELEM_HDR; lia | exact Hlen | lia | lia |].
    rewrite Hrun in Hrun2. inversion Hrun2; subst. reflexivity. }
  destruct e; (eexists; split; [reflexivity|]); cbn [pop_ehp pop_res pop_out];
    (split; [exact Hlen'|]).
  - specialize (Hdone eq_refl). split; [lia|].
    intros o0 ucp0 s0 _ Heq Hbig. inversion Heq; subst. lia.
  - split; [unfold MX_ELEM_HDR; lia|].
    intros o0 ucp0 s0 _ Heq Hbig. inversion Heq; subst.
    split; [reflexivity|]. split.
    + intro Hin. destruct (Hmany Hbig Hin) as [Habs _]. discriminate Habs.
    + intros _. reflexivity.
  - split; [unfold MX_ELEM_HDR; lia|].
    intros o0 ucp0 s0 _ Heq Hbig. inversion Heq; subst.
    split; [reflexivity|]. split.
    + intro Hin. destruct (Hmany Hbig Hin) as [_ Hall].
      split; [reflexivity|exact Hall].
    + intro Hout. pose proof (Hshort Hbig Hout) as Habs. discriminate Habs.
Qed.

Lemma populate_gen (resp : buf) (ehp : list element_hdr) (p : pop_result) :
  populate_parse resp ehp = Some p ->
  0 <= pop_res p ->
  pop_gen p = Some (gen_code_of resp).
Proof.
  unfold populate_parse. intros H Hres.
  destruct (negb (rd resp 0 =? 1)).
  { inversion H; subst; cbn in Hres; lia. }
  destruct (clamp_len (page_len resp) <? 4).
  { inversion H; subst; cbn in Hres; lia. }
  destruct (pop_subs _ _ _ _ _) as [o [[ucp s]|]].
  2:{ inversion H; subst; reflexivity. }
  destruct (pop_hdrs _ _ _ _ _ _) as [[[| |] ehp']|];
    inversion H; subst; reflexivity.
Qed.

Lemma populate_parse_total (resp : buf) (ehp : list element_hdr) :
  List.length ehp = Z.to_nat MX_ELEM_HDR ->
  exists p, populate_parse resp ehp = Some p.
Proof.
  intro Hlen. unfold populate_parse.
  destruct (negb (rd resp 0 =? 1)); [eexists; reflexivity|].
  destruct (clamp_len (page_len resp) <? 4); [eexists; reflexivity|].
  destruct (pop_subs _ _ _ _ _) as [o [[ucp s]|]]; [|eexists; reflexivity].
  destruct (pop_hdrs_inside resp (clamp_len (page_len resp)) (Z.to_nat s) 0 ucp ehp)
    as (e & ehp' & Hrun & _); [unfold MX_ELEM_HDR; lia | exact Hlen |].
  rewrite Hrun. destruct e; eexists; reflexivity.
Qed.

(** ** The dispatcher *)

Lemma with_element_map_run
    (decode : list element_hdr -> Z -> Z -> list out_item)
    (answer : Z -> option buf) (later : list (Z -> option buf))
    (log : list Z) (o : list out_item) (ehp : list element_hdr)
    (cfg : buf) (p : pop_result) :
  answer 1 = Some cfg ->
  populate_parse cfg ehp = Some p ->
  with_element_map decode (mkWorld (answer :: later) log o ehp)
  = Some (tt,
          mkWorld later (log ++ [1])
            ((o ++ pop_out p)
             ++ (if pop_res p <? 0 then []
                 else decode (pop_ehp p) (pop_res p)
                        (match pop_gen p with Some g => g | None => 0 end)))
            (pop_ehp p)).
Proof.
  intros Ha Hp.
  unfold with_element_map, populate_element_hdr_arr, bind, do_rcvdiag.
  cbn. rewrite Ha. cbn. rewrite Hp.
  destruct (pop_res p <? 0); cbn; [rewrite app_nil_r|]; reflexivity.
Qed.

Lemma with_element_map_issued
    (decode : list element_hdr -> Z -> Z -> list out_item) (w : world) :
  List.length (w_ehdr w) = Z.to_nat MX_ELEM_HDR ->
  issued (with_element_map decode w) = w_rcv w ++ [1].
Proof.
  intro Hlen. destruct w as [dev log o ehp]. cbn in Hlen.
  destruct dev as [|answer later].
  - reflexivity.
  - destruct (answer 1) as [cfg|] eqn:Ha.
    + destruct (populate_parse_total cfg ehp Hlen) as (p & Hp).
      rewrite (with_element_map_run decode answer later log o ehp cfg p Ha Hp).
      reflexivity.
    + unfold with_element_map, populate_element_hdr_arr, bind, do_rcvdiag.
      cbn. rewrite Ha. reflexivity.
Qed.


Lemma process_status_element_keyed
    (page_code : Z) (answer : Z -> option buf) (later : list (Z -> option buf))
    (rsp : buf) (inner_hex filter : Z) :
  In page_code [0x02; 0x05; 0x07; 0x0a] ->
  answer page_code = Some rsp ->
  rd rsp 0 = page_code ->
  ses_process_status page_code 0 0 inner_hex filter (start (answer :: later))
  = with_element_map (element_keyed_decoder page_code rsp inner_hex filter)
      (mkWorld later [page_code] (buffer_too_small (page_len rsp)) element_hdr_arr).
Proof.
  intros Hpc Ha Hrd.
  destruct Hpc as [<-|[<-|[<-|[<-|[]]]]];
    unfold ses_process_status, start; unfold bind at 1; unfold do_rcvdiag;
    cbn [w_dev w_rcv w_out w_ehdr]; rewrite Ha; unfold bind at 1;
    unfold emit at 1; cbn [w_dev w_rcv w_out w_ehdr app]; rewrite Hrd;
    reflexivity.
Qed.

Lemma clamp_len_ge (len : Z) : 8 <= len -> 8 <= clamp_len len.
Proof.
  unfold clamp_len, MX_ALLOC_LEN. destruct (len >? 4096); lia.
Qed.

(** Each element-keyed decoder, handed a page of at least 8 bytes whose
    generation code differs from the reference, prints its heading, the
    generation code and the request to try again, and nothing else. *)
Lemma element_keyed_decoder_stale
    (page_code : Z) (rsp : buf) (inner_hex filter : Z)
    (ehp : list element_hdr) (res ref_gen_code : Z) :
  In page_code [0x02; 0x05; 0x07; 0x0a] ->
  8 <= page_len rsp ->
  gen_code_of rsp <> ref_gen_code ->
  element_keyed_decoder page_code rsp inner_hex filter ehp res ref_gen_code
  = page_heading page_code rsp
    ++ [pr "  generation code: 0x%x\n" [AInt (gen_code_of rsp)]; enclosure_changed].
Proof.
  intros Hpc Hlen Hgen. apply clamp_len_ge in Hlen.
  assert (H4 : (clamp_len (page_len rsp) <? 4) = false) by (apply Z.ltb_ge; lia).
  assert (H8 : (clamp_len (page_len rsp) <? 8) = false) by (apply Z.ltb_ge; lia).
  assert (Hne : (ref_gen_code =? gen_code_of rsp) = false)
    by (apply Z.eqb_neq; congruence).
  destruct Hpc as [<-|[<-|[<-|[<-|[]]]]];
    unfold element_keyed_decoder, page_heading,
      ses_enclosure_sdg, ses_threshold_sdg, ses_element_desc_sdg,
      ses_device_elem_sdg;
    cbv iota; rewrite ?H4, ?H8, Hne; reflexivity.
Qed.

(** C2 (as amended). For an element-keyed page (0x02, 0x05, 0x07, 0x0a)
    decoded in structured form, the target page is requested from the
    transport first, and the Configuration page (0x01) is requested after
    it: when the first answer is the page asked for, the receive operations
    of the request are the target page and then the Configuration page. *)
Theorem target_page_fetched_before_configuration
    (page_code : Z) (answer : Z -> option buf) (later : list (Z -> option buf))
    (rsp : buf) (inner_hex filter : Z) :
  In page_code [0x02; 0x05; 0x07; 0x0a] ->
  answer page_code = Some rsp ->
  rd rsp 0 = page_code ->
  issued (ses_process_status page_code 0 0 inner_hex filter (start (answer :: later)))
  = [page_code; 0x01]
  /\ fetched_before page_code 0x01
       (issued (ses_process_status page_code 0 0 inner_hex filter
                  (start (answer :: later)))) = true.
Proof.
  intros Hpc Ha Hrd.
  assert (H : issued (ses_process_status page_code 0 0 inner_hex filter
                        (start (answer :: later))) = [page_code; 0x01]).
  { rewrite (process_status_element_keyed page_code answer later rsp) by assumption.
    rewrite with_element_map_issued by reflexivity. reflexivity. }
  split; [exact H|]. rewrite H.
  destruct Hpc as [<-|[<-|[<-|[<-|[]]]]]; reflexivity.
Qed.

(** C1. For an element-keyed page (0x02, 0x05, 0x07, 0x0a) decoded in
    structured form: when the element map has been built from a
    Configuration page and the target page, long enough to carry a
    generation code, carries one that differs from the one recorded with the
    map, all that is printed for the target page is its heading, its
    generation code and "state of enclosure changed, please try again".  No
    element type, overall record or individual record is decoded. *)
Theorem generation_mismatch_reports_stale
    (page_code : Z) (first second : Z -> option buf)
    (later : list (Z -> option buf)) (rsp cfg : buf) (p : pop_result)
    (inner_hex filter : Z) :
  In page_code [0x02; 0x05; 0x07; 0x0a] ->
  first page_code = Some rsp ->
  rd rsp 0 = page_code ->
  second 0x01 = Some cfg ->
  populate_parse cfg element_hdr_arr = Some p ->
  0 <= pop_res p ->
  8 <= page_len rsp ->
  gen_code_of rsp <> gen_code_of cfg ->
  pop_gen p = Some (gen_code_of cfg)
  /\ printed (ses_process_status page_code 0 0 inner_hex filter
                (start (first :: second :: later)))
     = (buffer_too_small (page_len rsp) ++ pop_out p)
       ++ page_heading page_code rsp
       ++ [ pr "  generation code: 0x%x\n" [AInt (gen_code_of rsp)];
            enclosure_changed ].
Proof.
  intros Hpc Ha Hrd Hb Hp Hres Hlen Hgen.
  pose proof (populate_gen cfg element_hdr_arr p Hp Hres) as Hg.
  split; [exact Hg|].
  rewrite (process_status_element_keyed page_code first (second :: later) rsp)
    by assumption.
  rewrite (with_element_map_run _ second later _ _ _ cfg p Hb Hp).
  cbn [printed w_out].
  destruct (Z.ltb_spec (pop_res p) 0) as [Hneg|_]; [lia|].
  rewrite Hg. f_equal.
  apply element_keyed_decoder_stale; auto.
Qed.

Lemma generation_mismatch_reports_stale_witness :
  In 0x02 [0x02; 0x05; 0x07; 0x0a]
  /\ populate_parse device_config_page element_hdr_arr
     = Some (mkPop 1 (Some 0)
               (list_set 0 (mkHdr 1 3 0 0) element_hdr_arr)
               [epr "populate: short enc descriptor len=%d ??\n" [AInt 4]])
  /\ gen_code_of later_status_page <> gen_code_of device_config_page
  /\ printed (ses_process_status 0x02 0 0 0 0
                (start [fun _ => Some later_status_page;
                        fun _ => Some device_config_page]))
     = [ epr "populate: short enc descriptor len=%d ??\n" [AInt 4];
         pr "Enclosure status diagnostic page:\n" [];
         pr "  INVOP=%d, INFO=%d, NON-CRIT=%d, CRIT=%d, UNRECOV=%d\n"
            [AInt 0; AInt 0; AInt 0; AInt 0; AInt 0];
         pr "  generation code: 0x%x\n" [AInt 1];
         enclosure_changed ].
Proof.
  assert (Hp : populate_parse device_config_page element_hdr_arr
               = Some (mkPop 1 (Some 0)
                         (list_set 0 (mkHdr 1 3 0 0) element_hdr_arr)
                         [epr "populate: short enc descriptor len=%d ??\n" [AInt 4]]))
    by (vm_compute; reflexivity).
  assert (Hg : gen_code_of later_status_page <> gen_code_of device_config_page)
    by (vm_compute; congruence).
  split; [left; reflexivity|]. split; [exact Hp|]. split; [exact Hg|].
  refine (proj2 (generation_mismatch_reports_stale 0x02
                   (fun _ => Some later_status_page)
                   (fun _ => Some device_config_page) []
                   later_status_page device_config_page _ 0 0
                   (or_introl eq_refl) eq_refl eq_refl eq_refl Hp _ _ Hg)).
  - vm_compute; congruence.
  - vm_compute; congruence.
Defined.

(** On an Enclosure status request the transport is asked for page 0x02
    first and for the Configuration page after it: the Configuration fetch
    does not precede the target-page fetch. *)
Lemma configuration_not_fetched_first :
  issued (ses_process_status 0x02 0 0 0 0
            (start [fun _ => Some later_status_page;
                    fun _ => Some device_config_page]))
  = [0x02; 0x01]
  /\ fetched_before 0x01 0x02
       (issued (ses_process_status 0x02 0 0 0 0
                  (start [fun _ => Some later_status_page;
                          fun _ => Some device_config_page])))
     = false.
Proof. split; vm_compute; reflexivity. Qed.

Lemma target_page_fetched_before_configuration_witness :
  In 0x05 [0x02; 0x05; 0x07; 0x0a]
  /\ rd [0x05; 0; 0; 4; 0; 0; 0; 0] 0 = 0x05
  /\ issued (ses_process_status 0x05 0 0 0 0
               (start [fun _ => Some [0x05; 0; 0; 4; 0; 0; 0; 0];
                       fun _ => Some device_config_page]))
     = [0x05; 0x01].
Proof.
  split; [right; left; reflexivity|]. split; [reflexivity|].
  exact (proj1 (target_page_fetched_before_configuration 0x05
                  (fun _ => Some [0x05; 0; 0; 4; 0; 0; 0; 0])
                  [fun _ => Some device_config_page]
                  [0x05; 0; 0; 4; 0; 0; 0; 0] 0 0
                  (or_intror (or_introl eq_refl)) eq_refl eq_refl)).
Defined.

Lemma populate_writes_at_most_512_witness :
  List.length element_hdr_arr = Z.to_nat MX_ELEM_HDR
  /\ exists p,
       populate_parse crowded_config_page element_hdr_arr = Some p
       /\ pop_res p = -1
       /\ pop_out p
          = [ epr "populate: short enc descriptor len=%d ??\n" [AInt 4];
              epr "populate: short enc descriptor len=%d ??\n" [AInt 4];
              epr "populate: short enc descriptor len=%d ??\n" [AInt 4];
              too_many_elements ].
Proof.
  split; [reflexivity|].
  destruct (populate_writes_at_most_512 crowded_config_page element_hdr_arr eq_refl)
    as (p & Hp & _ & _ & Hmany).
  exists p. split; [exact Hp|].
  destruct (Hmany
              [ epr "populate: short enc descriptor len=%d ??\n" [AInt 4];
                epr "populate: short enc descriptor len=%d ??\n" [AInt 4];
                epr "populate: short enc descriptor len=%d ??\n" [AInt 4] ]
              20 765 eq_refl eq_refl eq_refl) as (Hres & Hout & _).
  split; [exact Hres|].
  apply Hout. vm_compute. congruence.
Defined.

(** C10, as first stated: an accumulated count above 512 does not always end
    in "too many elements".  The page of 1000 bytes announces 765 element
    types, and the page ends before the declaration of index 512 is reached:
    the result is -1 with "config too short", and "too many elements" is not
    printed. *)
Theorem populate_overflow_announced_on_short_page :
  pop_subs short_crowded_config_page
    (clamp_len (page_len short_crowded_config_page))
    (Z.to_nat (rd short_crowded_config_page 1 + 1)) 8 0
  = ([ epr "populate: short enc descriptor len=%d ??\n" [AInt 4];
       epr "populate: short enc descriptor len=%d ??\n" [AInt 4];
       epr "populate: short enc descriptor len=%d ??\n" [AInt 4] ],
     Some (20, 765))
  /\ MX_ELEM_HDR < 765
  /\ exists p,
       populate_parse short_crowded_config_page element_hdr_arr = Some p
       /\ pop_res p = -1
       /\ pop_out p
          = [ epr "populate: short enc descriptor len=%d ??\n" [AInt 4];
              epr "populate: short enc descriptor len=%d ??\n" [AInt 4];
              epr "populate: short enc descriptor len=%d ??\n" [AInt 4];
              config_too_short ]
       /\ ~ In too_many_elements (pop_out p).
Proof.
  split; [reflexivity|]. split; [reflexivity|].
  eexists. split; [vm_compute; reflexivity|].
  split; [reflexivity|]. split; [reflexivity|].
  cbn [pop_out]. intros [H | [H | [H | [H | []]]]]; discriminate H.
Qed.

(** ** Pages whose last record ends with the page *)

(** C5. The Configuration page of scenario A in which the second type
    descriptor header ends the page (56 bytes, no type descriptor text) is
    rejected as too short: the result is -1 and only the first header has
    been stored, and an Enclosure status request answered with it prints
    "populate: config too short" and no status. *)
Theorem scenario_a_exact_page_rejected :
  page_len (scenario_a_page []) = 56
  /\ List.length (scenario_a_page []) = 56%nat
  /\ populate_view (populate_parse (scenario_a_page []) element_hdr_arr)
     = Some (-1, Some 0x12345678, [config_too_short],
             [mkHdr 1 3 0 0; mkHdr 0 0 0 0])
  /\ printed (ses_process_status 0x02 0 0 0 0
                (start [fun _ => Some scenario_a_status_page;
                        fun _ => Some (scenario_a_page [])]))
     = [config_too_short].
Proof. repeat split; vm_compute; reflexivity. Qed.

(** With one more byte after the second header the same declarations are
    read as scenario A has them. *)
Lemma scenario_a_page_with_a_trailing_byte :
  populate_view (populate_parse (scenario_a_page [0]) element_hdr_arr)
  = Some (2, Some 0x12345678, [], [mkHdr 1 3 0 0; mkHdr 2 1 0 0]).
Proof. vm_compute. reflexivity. Qed.

(** Any Configuration page of one subenclosure declaring Device (3 possible
    elements) and Power supply (1 possible element), in that order, is read
    as these two headers and its generation code, provided at least one
    byte of the page follows the second type descriptor header. *)
Lemma scenario_a_parsed_when_a_byte_follows (resp : buf) :
  rd resp 0 = 1 -> rd resp 1 = 0 -> rd resp 10 = 2 ->
  rd resp (8 + (rd resp 11 + 4)) = 1 ->
  rd resp (8 + (rd resp 11 + 4) + 1) = 3 ->
  rd resp (8 + (rd resp 11 + 4) + 2) = 0 ->
  rd resp (8 + (rd resp 11 + 4) + 4) = 2 ->
  rd resp (8 + (rd resp 11 + 4) + 4 + 1) = 1 ->
  rd resp (8 + (rd resp 11 + 4) + 4 + 2) = 0 ->
  8 + (rd resp 11 + 4) + 8 + 1 <= clamp_len (page_len resp) ->
  exists p,
    populate_parse resp element_hdr_arr = Some p
    /\ pop_res p = 2
    /\ pop_gen p = Some (gen_code_of resp)
    /\ firstn 2 (pop_ehp p) = [mkHdr 1 3 0 0; mkHdr 2 1 0 0].
Proof.
  intros H0 H1 H10 Ha0 Ha1 Ha2 Hb0 Hb1 Hb2 Hroom.
  pose proof (rd_range resp 11) as R11.
  unfold populate_parse. rewrite H0. cbn [Z.eqb Pos.eqb negb].
  destruct (Z.ltb_spec (clamp_len (page_len resp)) 4) as [Hlt|_]; [lia|].
  rewrite H1. change (Z.to_nat (0 + 1)) with 1%nat. cbn [pop_subs].
  change (8 + 3) with 11. change (8 + 2) with 10.
  rewrite gtb_le_false by lia. rewrite H10. change (0 + 2) with 2.
  change (Z.to_nat 2) with 2%nat. cbn [pop_hdrs].
  rewrite gtb_le_false by lia.
  change (0 >=? MX_ELEM_HDR) with false. cbv iota.
  rewrite Ha0, Ha1, Ha2.
  rewrite ehp_store_inside by (vm_compute; split; congruence).
  rewrite gtb_le_false by lia.
  change (0 + 1 >=? MX_ELEM_HDR) with false. cbv iota.
  rewrite Hb0, Hb1, Hb2.
  rewrite ehp_store_inside by (rewrite list_set_length; vm_compute; split; congruence).
  eexists. split; [reflexivity|]. cbn [pop_res pop_gen pop_ehp].
  repeat split.
Qed.

(** ** Reads past the end of a page *)

(** C3. An Enclosure status page cut down to 13 bytes, for a map of one
    Device type with 3 elements: the decoder does not report it as too
    short, and what it prints for the three elements comes from bytes 12 to
    23, so that two buffers with the same first 13 bytes are rendered
    differently; this is also what a request for page 0x02 prints.  Likewise
    the Configuration decoder, given 4 bytes, prints a generation code taken
    from bytes 4 to 7. *)
Theorem truncated_pages_render_bytes_past_their_end :
  (page_len cut_status_page = 13
   /\ firstn 13 cut_status_page = firstn 13 (firstn 13 cut_status_page)
   /\ existsb is_truncated
        (ses_enclosure_sdg device_map cut_status_page 13 0 0 1 0) = false
   /\ In (pr "%sSlot address: %d\n" [AStr "       "; AInt 5])
        (ses_enclosure_sdg device_map cut_status_page 13 0 0 1 0)
   /\ existsb is_truncated
        (ses_enclosure_sdg device_map (firstn 13 cut_status_page) 13 0 0 1 0) = false
   /\ In (pr "      Element %d status:\n" [AInt 3])
        (ses_enclosure_sdg device_map (firstn 13 cut_status_page) 13 0 0 1 0)
   /\ ~ In (pr "%sSlot address: %d\n" [AStr "       "; AInt 5])
          (ses_enclosure_sdg device_map (firstn 13 cut_status_page) 13 0 0 1 0)
   /\ printed (ses_process_status 0x02 0 0 0 0
                 (start [fun _ => Some cut_status_page;
                         fun _ => Some device_config_page]))
      = epr "populate: short enc descriptor len=%d ??\n" [AInt 4]
        :: ses_enclosure_sdg device_map cut_status_page 13 0 0 1 0)
  /\ (ses_configuration_sdg (firstn 8 (scenario_a_page [])) 4
      = [ pr "Configuration diagnostic page:\n" [];
          pr "  number of subenclosures (other than primary): %d\n" [AInt 0];
          pr "  generation code: 0x%x\n" [AInt 0x12345678];
          truncated ]
      /\ ses_configuration_sdg (firstn 4 (scenario_a_page [])) 4
         = [ pr "Configuration diagnostic page:\n" [];
             pr "  number of subenclosures (other than primary): %d\n" [AInt 0];
             pr "  generation code: 0x%x\n" [AInt 0];
             truncated ]).
Proof.
  split; [|split; vm_compute; reflexivity].
  split; [reflexivity|]. split; [reflexivity|].
  split; [vm_compute; reflexivity|]. split; [vm_compute; find_in|].
  split; [vm_compute; reflexivity|]. split; [vm_compute; find_in|]. split.
  - vm_compute. intro H.
    repeat (destruct H as [H|H]; [discriminate H|]). exact H.
  - vm_compute. reflexivity.
Qed.

(** C4. The Element descriptor walk reads the length field and the text of
    an individual element's descriptor without comparing the cursor with
    the end of the page: on a page of 13 bytes the descriptor of element 1
    is taken from bytes 12 to 17, through the dispatcher as well.  The
    Subenclosure help text walk checks the cursor before each record but not
    the extent of its text: a record announcing 3 bytes of text at byte 12
    of a 13-byte page is printed from bytes 12 to 14. *)
Theorem variable_walks_read_past_the_page :
  (page_len cut_descriptor_page = 13
   /\ existsb is_truncated
        (ses_element_desc_sdg single_device_map cut_descriptor_page 13 1 0) = false
   /\ In (pr "      Element %d descriptor: %.*s\n"
            [AInt 1; AInt 2; ABytes [104; 105]])
        (ses_element_desc_sdg single_device_map cut_descriptor_page 13 1 0)
   /\ In (pr "      Element %d descriptor: <empty>\n" [AInt 1])
        (ses_element_desc_sdg single_device_map (firstn 13 cut_descriptor_page) 13 1 0)
   /\ printed (ses_process_status 0x07 0 0 0 0
                 (start [fun _ => Some cut_descriptor_page;
                         fun _ => Some single_device_config_page]))
      = [ epr "populate: short enc descriptor len=%d ??\n" [AInt 4];
          pr "Element descriptor In diagnostic page:\n" [];
          pr "  generation code: 0x%x\n" [AInt 0];
          pr "    Element type: %s, subenclosure id: %d\n" [AStr "Device"; AInt 0];
          pr "    Overall descriptor: <empty>\n" [];
          pr "      Element %d descriptor: %.*s\n"
             [AInt 1; AInt 2; ABytes [104; 105]] ])
  /\ (page_len cut_help_page = 13
      /\ ses_subenc_help_sdg cut_help_page 13
         = [ pr "Subenclosure help text diagnostic page:\n" [];
             pr "  number of subenclosures (other than primary): %d\n" [AInt 0];
             pr "  generation code: 0x%x\n" [AInt 0];
             pr "   subenclosure identifier: %d\n" [AInt 0];
             pr "    %.*s\n" [AInt 3; ABytes [97; 98; 99]] ]
      /\ ses_subenc_help_sdg (firstn 13 cut_help_page) 13
         = [ pr "Subenclosure help text diagnostic page:\n" [];
             pr "  number of subenclosures (other than primary): %d\n" [AInt 0];
             pr "  generation code: 0x%x\n" [AInt 0];
             pr "   subenclosure identifier: %d\n" [AInt 0];
             pr "    %.*s\n" [AInt 3; ABytes [97]] ]).
Proof.
  split; [|repeat split; vm_compute; reflexivity].
  split; [reflexivity|]. split; [vm_compute; reflexivity|].
  split; [vm_compute; find_in|]. split; [vm_compute; find_in|].
  vm_compute. reflexivity.
Qed.

(** * Further properties *)

(** ** Catalogs *)

Lemma codes_above_lt (l : list Z) :
  forall lo c, codes_above lo l -> In c l -> lo < c.
Proof.
  induction l as [|x t IH]; intros lo c H Hin; [contradiction|].
  destruct H as [Hx Ht]. destruct Hin as [->|Hin]; [exact Hx|].
  specialize (IH x c Ht Hin). lia.
Qed.

Lemma find_page_code_desc_loop_exact (l : list page_code_desc) :
  forall lo c d,
    codes_above lo (map page_code l) ->
    (find_page_code_desc_loop l c = Some d <-> In (mkPcd c d) l).
Proof.
  induction l as [|[x dx] t IH]; intros lo c d Hs; simpl.
  - split; [discriminate|tauto].
  - destruct Hs as [_ Ht]. simpl in Ht.
    destruct (Z.eqb_spec c x) as [->|Hne].
    + split.
      * intro H. inversion H. now left.
      * intros [H|H]; [inversion H; reflexivity|].
        apply (in_map page_code) in H. simpl in H.
        pose proof (codes_above_lt _ _ _ Ht H). lia.
    + destruct (Z.ltb_spec c x) as [Hlt|Hge].
      * split; [discriminate|].
        intros [H|H]; [inversion H; congruence|].
        apply (in_map page_code) in H. simpl in H.
        pose proof (codes_above_lt _ _ _ Ht H). lia.
      * rewrite (IH x c d Ht). split; [now right|].
        intros [H|H]; [inversion H; congruence|exact H].
Qed.

(** X1. The page-code table is in strictly ascending order of code, and
    the lookup, which gives up at the first entry above the code sought,
    finds a description exactly when the table has an entry with that
    code and gives that entry's description. *)
Theorem find_page_code_desc_exact :
  codes_above (-1) (map page_code pc_desc_arr)
  /\ (forall c d,
        find_page_code_desc c = Some d <-> In (mkPcd c d) pc_desc_arr)
  /\ (forall c,
        find_page_code_desc c = None <-> ~ In c (map page_code pc_desc_arr)).
Proof.
  assert (Hs : codes_above (-1) (map page_code pc_desc_arr))
    by (simpl; repeat split; lia).
  split; [exact Hs|]. split.
  - intros c d. apply (find_page_code_desc_loop_exact pc_desc_arr (-1) c d Hs).
  - intro c. split.
    + intros Hn Hin. apply in_map_iff in Hin. destruct Hin as ([x dx] & Hx & Hin).
      simpl in Hx. subst x.
      apply (find_page_code_desc_loop_exact pc_desc_arr (-1) c dx Hs) in Hin.
      unfold find_page_code_desc in Hn. congruence.
    + intro Hn. destruct (find_page_code_desc c) as [d|] eqn:E; [|reflexivity].
      apply (find_page_code_desc_loop_exact pc_desc_arr (-1) c d Hs) in E.
      exfalso. apply Hn. apply (in_map page_code) in E. exact E.
Qed.

Lemma find_element_desc_loop_exact (l : list element_desc) :
  forall lo c d,
    codes_above lo (map type_code l) ->
    (find_element_desc_loop l c = Some d <-> In (mkEd c d) l).
Proof.
  induction l as [|[x dx] t IH]; intros lo c d Hs; simpl.
  - split; [discriminate|tauto].
  - destruct Hs as [_ Ht]. simpl in Ht.
    destruct (Z.eqb_spec c x) as [->|Hne].
    + split.
      * intro H. inversion H. now left.
      * intros [H|H]; [inversion H; reflexivity|].
        apply (in_map type_code) in H. simpl in H.
        pose proof (codes_above_lt _ _ _ Ht H). lia.
    + destruct (Z.ltb_spec c x) as [Hlt|Hge].
      * split; [discriminate|].
        intros [H|H]; [inversion H; congruence|].
        apply (in_map type_code) in H. simpl in H.
        pose proof (codes_above_lt _ _ _ Ht H). lia.
      * rewrite (IH x c d Ht). split; [now right|].
        intros [H|H]; [inversion H; congruence|exact H].
Qed.

Lemma find_element_desc_known (n : nat) :
  (n < 24)%nat -> find_element_desc (Z.of_nat n) <> None.
Proof.
  intro Hn.
  do 24 (destruct n as [|n]; [discriminate|]). lia.
Qed.

Lemma element_desc_arr_ascending :
  codes_above (-1) (map type_code element_desc_arr).
Proof. simpl; repeat split; lia. Qed.

Lemma find_element_desc_domain (c : Z) :
  find_element_desc c <> None <-> 0 <= c <= 0x17.
Proof.
  split.
  - intro Hn. destruct (find_element_desc c) as [d|] eqn:E; [|congruence].
    apply (find_element_desc_loop_exact element_desc_arr (-1) c d
             element_desc_arr_ascending) in E.
    simpl in E.
    repeat (destruct E as [E|E]; [inversion E; lia|]). contradiction.
  - intro Hc. replace c with (Z.of_nat (Z.to_nat c)) by lia.
    apply find_element_desc_known. lia.
Qed.

(** X2. The element-type table is in strictly ascending order, the lookup
    returns the description of the entry with the code sought, and the
    codes that have a description are exactly 0x00 to 0x17. *)
Theorem find_element_desc_exact :
  codes_above (-1) (map type_code element_desc_arr)
  /\ (forall c d,
        find_element_desc c = Some d <-> In (mkEd c d) element_desc_arr)
  /\ (forall c, find_element_desc c <> None <-> 0 <= c <= 0x17).
Proof.
  split; [exact element_desc_arr_ascending|]. split.
  - intros c d.
    apply (find_element_desc_loop_exact element_desc_arr (-1) c d
             element_desc_arr_ascending).
  - exact find_element_desc_domain.
Qed.

(** ** The status decoder *)

Lemma Forall_ifp (P : out_item -> Prop) (c : bool) (l : list out_item) :
  Forall P l -> Forall P (ifp c l).
Proof. destruct c; simpl; auto. Qed.

(** Splits a [Forall] over the output of a decoder into its items. *)
Ltac forall_items tac :=
  repeat first
    [ apply Forall_nil
    | apply Forall_cons; [tac|]
    | apply Forall_app; split
    | apply Forall_ifp
    | match goal with
      | |- Forall _ (if ?c then _ else _) => destruct c
      | |- Forall _ (match ?x with _ => _ end) => destruct x
      end ].

Lemma print_over_elem_status_unknown
    (pad : string) (resp : buf) (statp etype filter : Z) :
  etype < 0 \/ 0x17 < etype ->
  print_over_elem_status pad resp statp etype filter
  = [ pr "%sPredicted failure=%d, swap=%d, status: %s\n"
         [AStr pad; fl (rd resp statp) 0x40; fl (rd resp statp) 0x10;
          AStr (str_at element_status_desc (Z.land (rd resp statp) 0xf))];
      pr unknown_type_fmt
         [AStr pad; AInt (rd resp statp); AInt (rd resp (statp + 1));
          AInt (rd resp (statp + 2)); AInt (rd resp (statp + 3))] ].
Proof.
  intro H. unfold print_over_elem_status.
  destruct etype as [|p|p]; [lia| |reflexivity].
  do 5 (try (destruct p as [p|p|])); first [reflexivity | lia].
Qed.

Lemma print_over_elem_status_known
    (pad : string) (resp : buf) (statp filter : Z) (n : nat) :
  (n < 24)%nat ->
  Forall (fun i => item_fmt i <> unknown_type_fmt)
    (print_over_elem_status pad resp statp (Z.of_nat n) filter).
Proof.
  intro Hn.
  do 24 (destruct n as [|n];
         [unfold print_over_elem_status; cbn [Z.of_nat Pos.of_succ_nat Pos.succ];
          forall_items ltac:(simpl; discriminate)|]).
  lia.
Qed.

(** X3. The status decoder takes its "Unknown element type" arm, printing
    the four bytes of the record in hex, for exactly the type codes that
    have no entry in the element-type table; for a code that has one it
    never prints that line. *)
Theorem unknown_type_arm_iff_no_catalog_entry
    (pad : string) (resp : buf) (statp etype filter : Z) :
  (find_element_desc etype = None ->
   print_over_elem_status pad resp statp etype filter
   = [ pr "%sPredicted failure=%d, swap=%d, status: %s\n"
          [AStr pad; fl (rd resp statp) 0x40; fl (rd resp statp) 0x10;
           AStr (str_at element_status_desc (Z.land (rd resp statp) 0xf))];
       pr "%sUnknown element type, status in hex: %02x %02x %02x %02x\n"
          [AStr pad; AInt (rd resp statp); AInt (rd resp (statp + 1));
           AInt (rd resp (statp + 2)); AInt (rd resp (statp + 3))] ])
  /\ (find_element_desc etype <> None ->
      Forall (fun i => item_fmt i
                       <> "%sUnknown element type, status in hex: %02x %02x %02x %02x\n")
        (print_over_elem_status pad resp statp etype filter)).
Proof.
  split.
  - intro Hn. apply print_over_elem_status_unknown.
    destruct (Z_lt_dec etype 0) as [|Hge]; [now left|].
    destruct (Z_lt_dec 0x17 etype) as [|Hle]; [now right|].
    exfalso. apply (proj2 (find_element_desc_domain etype)); [lia|exact Hn].
  - intro Hs. apply find_element_desc_domain in Hs.
    replace etype with (Z.of_nat (Z.to_nat etype)) by lia.
    apply print_over_elem_status_known. lia.
Qed.

Lemma kept_from_refl {A : Type} (l : list A) : kept_from l l.
Proof. induction l; constructor; auto. Qed.

Lemma kept_from_app {A : Type} (l1 m1 l2 m2 : list A) :
  kept_from l1 m1 -> kept_from l2 m2 -> kept_from (l1 ++ l2) (m1 ++ m2).
Proof.
  intros H1 H2. induction H1; simpl; try constructor; auto.
Qed.

Lemma kept_from_nil {A : Type} (m : list A) : kept_from [] m.
Proof. induction m; constructor; auto. Qed.

Lemma kept_ifp_filter (filter : Z) (c : bool) (l : list out_item) :
  kept_from (ifp ((filter =? 0) || c) l) (ifp ((0 =? 0) || c) l).
Proof.
  change (0 =? 0) with true. cbn [orb ifp].
  destruct ((filter =? 0) || c); simpl; [apply kept_from_refl|apply kept_from_nil].
Qed.

Ltac kept_items :=
  repeat first
    [ apply kept_from_refl
    | apply kept_ifp_filter
    | apply kept_keep
    | apply kept_from_app ].

(** X4. The filter only leaves lines out: for every element type and every
    record, what is printed with the filter on is what is printed with it
    off, with some lines dropped and none changed, added or reordered. *)
Theorem filter_only_drops_lines
    (pad : string) (resp : buf) (statp etype filter : Z) :
  kept_from (print_over_elem_status pad resp statp etype filter)
            (print_over_elem_status pad resp statp etype 0).
Proof.
  unfold print_over_elem_status.
  destruct etype as [|p|p]; [| |cbv beta iota zeta; kept_items].
  - cbv beta iota zeta. kept_items.
  - do 5 (try (destruct p as [p|p|])); cbv beta iota zeta; kept_items.
Qed.

(** ** Numbers read from a page *)

Lemma lor_low (x b n : Z) :
  0 <= n -> x mod 2 ^ n = 0 -> 0 <= b < 2 ^ n -> Z.lor x b = x + b.
Proof.
  intros Hn Hx Hb.
  assert (Hl : Z.land x b = 0).
  { apply Z.bits_inj'. intros m Hm. rewrite Z.land_spec, Z.bits_0.
    destruct (Z.lt_ge_cases m n) as [Hlt|Hge].
    - replace x with ((x / 2 ^ n) * 2 ^ n).
      + rewrite Z.mul_pow2_bits_low by lia. reflexivity.
      + pose proof (Z.div_mod x (2 ^ n)). lia.
    - replace (Z.testbit b m) with false; [apply andb_false_r|].
      symmetry. destruct (Z.eq_dec b 0) as [->|Hnz]; [apply Z.bits_0|].
      apply Z.bits_above_log2; [lia|].
      apply Z.log2_lt_pow2; [lia|].
      assert (2 ^ n <= 2 ^ m) by (apply Z.pow_le_mono_r; lia). lia. }
  pose proof (Z.add_lor_land x b). lia.
Qed.

Lemma gen_code_of_value (resp : buf) :
  gen_code_of resp
  = rd resp 4 * 2 ^ 24 + rd resp 5 * 2 ^ 16 + rd resp 6 * 2 ^ 8 + rd resp 7.
Proof.
  unfold gen_code_of.
  pose proof (rd_range resp 4). pose proof (rd_range resp 5).
  pose proof (rd_range resp 6). pose proof (rd_range resp 7).
  rewrite !Z.shiftl_mul_pow2 by lia.
  change (2 ^ 24) with 16777216. change (2 ^ 16) with 65536.
  change (2 ^ 8) with 256. change (2 ^ 32) with 4294967296.
  rewrite (lor_low (rd resp 4 * 16777216) (rd resp 5 * 65536) 24);
    [|lia|change (2 ^ 24) with 16777216; apply Z.mod_mul; lia
     |change (2 ^ 24) with 16777216; lia].
  rewrite (lor_low _ (rd resp 6 * 256) 16);
    [|lia
     |change (2 ^ 16) with 65536;
      replace (rd resp 4 * 16777216 + rd resp 5 * 65536)
        with ((rd resp 4 * 256 + rd resp 5) * 65536) by lia;
      apply Z.mod_mul; lia
     |change (2 ^ 16) with 65536; lia].
  rewrite (lor_low _ (rd resp 7) 8);
    [|lia
     |change (2 ^ 8) with 256;
      replace (rd resp 4 * 16777216 + rd resp 5 * 65536 + rd resp 6 * 256)
        with ((rd resp 4 * 65536 + rd resp 5 * 256 + rd resp 6) * 256) by lia;
      apply Z.mod_mul; lia
     |change (2 ^ 8) with 256; lia].
  apply Z.mod_small. lia.
Qed.

(** X5. The generation code is the big-endian value of bytes 4 to 7 of the
    page, a number below 2^32, and two pages have the same generation code
    exactly when these four bytes are the same in both: no change in them
    escapes the comparison the decoders make. *)
Theorem gen_code_of_big_endian (r1 r2 : buf) :
  gen_code_of r1
  = rd r1 4 * 2 ^ 24 + rd r1 5 * 2 ^ 16 + rd r1 6 * 2 ^ 8 + rd r1 7
  /\ 0 <= gen_code_of r1 < 2 ^ 32
  /\ (gen_code_of r1 = gen_code_of r2
      <-> rd r1 4 = rd r2 4 /\ rd r1 5 = rd r2 5
          /\ rd r1 6 = rd r2 6 /\ rd r1 7 = rd r2 7).
Proof.
  rewrite !gen_code_of_value.
  pose proof (rd_range r1 4). pose proof (rd_range r1 5).
  pose proof (rd_range r1 6). pose proof (rd_range r1 7).
  pose proof (rd_range r2 4). pose proof (rd_range r2 5).
  pose proof (rd_range r2 6). pose proof (rd_range r2 7).
  change (2 ^ 24) with 16777216. change (2 ^ 16) with 65536.
  change (2 ^ 8) with 256. change (2 ^ 32) with 4294967296.
  split; [reflexivity|]. split; [lia|]. split.
  - intro E. repeat split; lia.
  - intros (E4 & E5 & E6 & E7). rewrite E4, E5, E6, E7. reflexivity.
Qed.

Lemma page_len_value (resp : buf) :
  page_len resp = rd resp 2 * 256 + rd resp 3 + 4.
Proof.
  unfold page_len. rewrite Z.shiftl_mul_pow2 by lia. reflexivity.
Qed.

(** X6. The length the dispatcher and the map builder work with is the
    big-endian length field of the page plus 4, cut down to the size of the
    buffer: it is never under 4 nor over 4096, and the "buffer too small"
    warning is printed exactly when the page announces more than 4096
    bytes. *)
Theorem response_length_within_buffer (resp : buf) :
  page_len resp = rd resp 2 * 256 + rd resp 3 + 4
  /\ 4 <= clamp_len (page_len resp) <= MX_ALLOC_LEN
  /\ clamp_len (page_len resp) <= page_len resp
  /\ (buffer_too_small (page_len resp) = [] <-> page_len resp <= MX_ALLOC_LEN)
  /\ (page_len resp <= MX_ALLOC_LEN -> clamp_len (page_len resp) = page_len resp).
Proof.
  pose proof (rd_range resp 2). pose proof (rd_range resp 3).
  rewrite !page_len_value.
  unfold clamp_len, buffer_too_small, MX_ALLOC_LEN.
  destruct (Z.gtb_spec (rd resp 2 * 256 + rd resp 3 + 4) 4096); cbn [ifp].
  - repeat split; try lia; try discriminate.
  - repeat split; lia.
Qed.

(** ** Tables of names *)

Lemma str_at_in (tbl : list string) (i : Z) :
  0 <= i < Z.of_nat (List.length tbl) -> In (str_at tbl i) tbl.
Proof. intro H. unfold str_at. apply nth_In. lia. Qed.

Lemma land_low_range (x n : Z) : 0 <= n -> 0 <= Z.land x (Z.ones n) < 2 ^ n.
Proof.
  intro Hn. rewrite Z.land_ones by lia. apply Z.mod_pos_bound.
  apply Z.pow_pos_nonneg; lia.
Qed.

Lemma status_table_reads (x : Z) :
  In (str_at element_status_desc (Z.land x 0xf)) status_tables
  /\ In (str_at actual_speed_desc (Z.land 7 x)) status_tables
  /\ In (str_at nv_cache_unit (Z.land x 0x3)) status_tables
  /\ In (str_at invop_type_desc (Z.land (Z.shiftr x 6) 3)) status_tables.
Proof.
  pose proof (land_low_range x 4 ltac:(lia)) as H4.
  pose proof (land_low_range x 3 ltac:(lia)) as H3.
  pose proof (land_low_range x 2 ltac:(lia)) as H2.
  pose proof (land_low_range (Z.shiftr x 6) 2 ltac:(lia)) as H62.
  change (Z.ones 4) with 0xf in H4. change (Z.ones 3) with 7 in *.
  change (Z.ones 2) with 3 in *.
  change (2 ^ 4) with 16 in *. change (2 ^ 3) with 8 in *.
  change (2 ^ 2) with 4 in *.
  unfold status_tables. repeat split.
  - apply in_or_app. left. apply str_at_in. exact H4.
  - apply in_or_app. right. apply in_or_app. left.
    apply str_at_in. rewrite Z.land_comm. exact H3.
  - do 2 (apply in_or_app; right). apply in_or_app. left.
    apply str_at_in. exact H2.
  - do 3 (apply in_or_app; right). apply str_at_in. exact H62.
Qed.

Lemma transport_table_reads (x : Z) :
  In (str_at sas_device_type (Z.shiftr (Z.land 0x70 x) 4)) transport_tables
  /\ In (str_at transport_proto_arr (Z.land 0xf x)) transport_tables.
Proof.
  pose proof (land_low_range x 4 ltac:(lia)) as H4.
  pose proof (land_low_range (Z.shiftr x 4) 3 ltac:(lia)) as H43.
  change (Z.ones 4) with 0xf in H4. change (Z.ones 3) with 7 in *.
  change (2 ^ 4) with 16 in *. change (2 ^ 3) with 8 in *.
  unfold transport_tables. split.
  - apply in_or_app. right. apply str_at_in.
    rewrite Z.shiftr_land, Z.land_comm. exact H43.
  - apply in_or_app. left. apply str_at_in. rewrite Z.land_comm. exact H4.
Qed.

(** Settles one line of [print_over_elem_status]: the strings after the
    pad are reads of the tables. *)
Ltac status_line :=
  unfold pr, fl; cbn [item_args tl];
  repeat (apply Forall_cons;
          [cbn [from_table];
           first [ exact I
                 | apply (proj1 (status_table_reads _))
                 | apply (proj1 (proj2 (status_table_reads _)))
                 | apply (proj1 (proj2 (proj2 (status_table_reads _))))
                 | apply (proj2 (proj2 (proj2 (status_table_reads _)))) ]|]);
  apply Forall_nil.

Lemma print_over_elem_status_tables
    (pad : string) (resp : buf) (statp etype filter : Z) :
  Forall (fun i => Forall (from_table status_tables) (tl (item_args i)))
    (print_over_elem_status pad resp statp etype filter).
Proof.
  destruct (Z_lt_dec etype 0) as [Hlt|Hge].
  { rewrite print_over_elem_status_unknown by now left.
    unfold unknown_type_fmt. forall_items status_line. }
  destruct (Z_lt_dec 0x17 etype) as [Hgt|Hle].
  { rewrite print_over_elem_status_unknown by now right.
    unfold unknown_type_fmt. forall_items status_line. }
  replace etype with (Z.of_nat (Z.to_nat etype)) by lia.
  assert (Hn : (Z.to_nat etype < 24)%nat) by lia.
  generalize dependent (Z.to_nat etype). intros n Hn.
  do 24 (destruct n as [|n];
         [unfold print_over_elem_status; cbn [Z.of_nat Pos.of_succ_nat Pos.succ];
          cbv zeta; forall_items status_line|]).
  lia.
Qed.

Lemma transport_line_numbers (f : string) (l : list Z) :
  transport_line (pr f (map AInt l)).
Proof.
  intros _ _. unfold pr. cbn [item_args]. apply Forall_forall.
  intros a Ha. apply in_map_iff in Ha. destruct Ha as (x & <- & _). exact I.
Qed.

Lemma print_each_transport (fmt : string) (b : buf) (off : Z) (n : nat) :
  Forall transport_line (print_each fmt b off n).
Proof.
  unfold print_each. apply Forall_forall. intros i Hi.
  apply in_map_iff in Hi. destruct Hi as (x & <- & _).
  apply (transport_line_numbers fmt [x]).
Qed.

(** Settles one line of [ses_transport_proto]. *)
Ltac transport_item :=
  first
    [ intros Hi Ht; exfalso; solve [apply Hi; reflexivity | apply Ht; reflexivity]
    | intros _ _; unfold pr, role; cbn [item_args];
      repeat (apply Forall_cons;
              [cbn [from_table];
               first [ exact I
                     | apply (proj1 (transport_table_reads _))
                     | apply (proj2 (transport_table_reads _)) ]|]);
      apply Forall_nil ].

Lemma fcp_ports_transport (resp : buf) (n : nat) :
  forall j per_ucp, Forall transport_line (fcp_ports resp n j per_ucp).
Proof.
  induction n as [|n IH]; intros j per_ucp; [constructor|].
  cbn [fcp_ports]. repeat (apply Forall_app; split);
    try apply print_each_transport; try apply IH;
    repeat (apply Forall_cons; [transport_item|]); apply Forall_nil.
Qed.

Lemma sas_phys_transport (resp : buf) (n : nat) :
  forall phys j per_ucp, Forall transport_line (sas_phys resp n phys j per_ucp).
Proof.
  induction n as [|n IH]; intros phys j per_ucp; [constructor|].
  rewrite sas_phys_S. apply Forall_app. split; [|apply IH].
  unfold sas_phy. repeat (apply Forall_app; split);
    try apply print_each_transport;
    repeat (apply Forall_cons; [transport_item|]); apply Forall_nil.
Qed.

Lemma ses_transport_proto_tables (resp : buf) (ucp len elem_num : Z) :
  Forall transport_line (ses_transport_proto resp ucp len elem_num).
Proof.
  unfold ses_transport_proto.
  assert (Hother :
            Forall transport_line
              [ pr "   [%d] Transport protocol: %s not decoded, in hex:\n"
                   [AInt (elem_num + 1);
                    AStr (str_at transport_proto_arr (Z.land 0xf (rd resp ucp)))];
                DStrHex (bytes_at resp (ucp + 4) (Z.to_nat (len - 4))) 0 ]).
  { apply Forall_cons; [transport_item|].
    apply Forall_cons; [|apply Forall_nil].
    intros _ _. cbn [item_args]. apply Forall_nil. }
  destruct (Z.land 0xf (rd resp ucp)) as [|p|p] eqn:Ep; [| |exact Hother].
  - cbv zeta. repeat (apply Forall_app; split);
      try apply print_each_transport; try apply fcp_ports_transport;
      repeat (apply Forall_cons; [transport_item|]); apply Forall_nil.
  - do 3 (try (destruct p as [p|p|])); try exact Hother.
    cbv zeta. apply Forall_app. split; [|apply sas_phys_transport].
    repeat (apply Forall_cons; [transport_item|]); apply Forall_nil.
Qed.

(** X7. No decoder reads a table of strings out of range, whatever the
    bytes of the page that select the entries.  In every line that
    [print_over_elem_status] prints, each string after the pad is an entry
    of [element_status_desc], [actual_speed_desc], [nv_cache_unit] or
    [invop_type_desc]; in every line that [ses_transport_proto] prints,
    apart from the two "port for" lines whose strings are literals, each
    string is an entry of [transport_proto_arr] or [sas_device_type].  The
    empty string, which is what a read past the end of a table gives here,
    is no entry of any of them. *)
Theorem table_reads_in_range
    (pad : string) (resp : buf) (statp etype filter ucp len elem_num : Z) :
  Forall (fun i => Forall (from_table status_tables) (tl (item_args i)))
    (print_over_elem_status pad resp statp etype filter)
  /\ Forall transport_line (ses_transport_proto resp ucp len elem_num)
  /\ ~ In EmptyString (status_tables ++ transport_tables)
  /\ (forall tbl i, Z.of_nat (List.length tbl) <= i -> str_at tbl i = EmptyString).
Proof.
  split; [apply print_over_elem_status_tables|].
  split; [apply ses_transport_proto_tables|].
  split.
  - intro H. vm_compute in H.
    repeat (destruct H as [H|H]; [discriminate H|]). exact H.
  - intros tbl i Hi. unfold str_at. apply nth_overflow. lia.
Qed.

(** ** The element map, when it is built *)

Lemma gtb_false_le (a b : Z) : (a >? b) = false -> a <= b.
Proof. rewrite Z.gtb_ltb. apply Z.ltb_ge. Qed.

Lemma ehp_store_some (ehp ehp' : list element_hdr) (k : Z) (h : element_hdr) :
  ehp_store ehp k h = Some ehp' ->
  0 <= k < Z.of_nat (List.length ehp) /\ ehp' = list_set (Z.to_nat k) h ehp.
Proof.
  unfold ehp_store.
  destruct (Z.leb_spec 0 k); destruct (Z.ltb_spec k (Z.of_nat (List.length ehp)));
    cbn [andb]; intro Hst; inversion Hst; split; [lia|reflexivity].
Qed.

Lemma pop_hdrs_done (resp : buf) (resp_len : Z) (n : nat) :
  forall k ucp ehp ehp',
    0 <= k ->
    pop_hdrs resp resp_len n k ucp ehp = Some (PopDone, ehp') ->
    (forall i, k <= i < k + Z.of_nat n ->
       ehp_get ehp' i
       = mkHdr (rd resp (ucp + 4 * (i - k))) (rd resp (ucp + 4 * (i - k) + 1))
               (rd resp (ucp + 4 * (i - k) + 2)) 0)
    /\ (forall i, 0 <= i -> ~ (k <= i < k + Z.of_nat n) ->
          ehp_get ehp' i = ehp_get ehp i)
    /\ ((0 < n)%nat -> ucp + 4 * Z.of_nat n <= resp_len - 1).
Proof.
  induction n as [|n IH]; intros k ucp ehp ehp' Hk Hrun.
  - simpl in Hrun. inversion Hrun; subst.
    split; [intros i Hi; lia|]. split; [reflexivity|lia].
  - cbn [pop_hdrs] in Hrun.
    destruct (ucp + 4 >? resp_len - 1) eqn:Et; [discriminate|].
    apply gtb_false_le in Et.
    destruct (k >=? MX_ELEM_HDR); [discriminate|].
    set (h := mkHdr (rd resp ucp) (rd resp (ucp + 1)) (rd resp (ucp + 2)) 0) in *.
    destruct (ehp_store ehp k h) as [ehp1|] eqn:Es; [|discriminate].
    apply ehp_store_some in Es. destruct Es as [Hin ->].
    destruct (IH (k + 1) (ucp + 4) _ ehp' ltac:(lia) Hrun) as (Hnew & Hold & Hroom).
    split; [|split].
    + intros i Hi. destruct (Z.eq_dec i k) as [->|Hne].
      * rewrite Hold by lia. unfold ehp_get.
        rewrite nth_list_set_eq by lia.
        subst h. rewrite Z.sub_diag, Z.mul_0_r, !Z.add_0_r. reflexivity.
      * rewrite Hnew by lia.
        replace (ucp + 4 + 4 * (i - (k + 1))) with (ucp + 4 * (i - k)) by lia.
        reflexivity.
    + intros i Hi Hout. rewrite Hold by lia. unfold ehp_get.
      apply nth_list_set_neq. lia.
    + intros _. destruct n as [|n]; [lia|].
      specialize (Hroom ltac:(lia)). lia.
Qed.

(** X8. When the map builder succeeds, returning a count [n]: the page was
    a Configuration page, the generation code handed back is the page's,
    the first [n] entries of the array are the [n] type descriptor headers
    of the page in the order they appear (type, possible number of
    elements, subenclosure id), the other entries are untouched, and every
    header stored was read from inside the page. *)
Theorem populate_success_stores_declared_headers
    (resp : buf) (ehp : list element_hdr) (p : pop_result) :
  populate_parse resp ehp = Some p ->
  0 <= pop_res p ->
  rd resp 0 = 1
  /\ pop_gen p = Some (gen_code_of resp)
  /\ exists o ucp,
       pop_subs resp (clamp_len (page_len resp)) (Z.to_nat (rd resp 1 + 1)) 8 0
       = (o, Some (ucp, pop_res p))
       /\ pop_out p = buffer_too_small (page_len resp) ++ o
       /\ (forall i, 0 <= i < pop_res p ->
             ehp_get (pop_ehp p) i
             = mkHdr (rd resp (ucp + 4 * i)) (rd resp (ucp + 4 * i + 1))
                     (rd resp (ucp + 4 * i + 2)) 0)
       /\ (forall i, pop_res p <= i -> ehp_get (pop_ehp p) i = ehp_get ehp i)
       /\ (0 < pop_res p -> ucp + 4 * pop_res p <= clamp_len (page_len resp) - 1).
Proof.
  intros Hp Hres.
  split; [|split; [exact (populate_gen resp ehp p Hp Hres)|]];
    unfold populate_parse in Hp;
    destruct (Z.eqb_spec (rd resp 0) 1) as [H0|H0]; cbn [negb] in Hp;
    try (inversion Hp; subst; cbn [pop_res] in Hres; lia); try exact H0.
  destruct (clamp_len (page_len resp) <? 4);
    [inversion Hp; subst; cbn [pop_res] in Hres; lia|].
  destruct (pop_subs _ _ _ _ _) as [o [[ucp s]|]] eqn:Esubs;
    [|inversion Hp; subst; cbn [pop_res] in Hres; lia].
  pose proof (pop_subs_sum _ _ _ _ _ _ _ _ Esubs) as Hs.
  destruct (pop_hdrs _ _ _ _ _ _) as [[[| |] ehp']|] eqn:Erun;
    inversion Hp; subst; cbn [pop_res] in Hres; try lia.
  cbn [pop_res pop_out pop_ehp].
  exists o, ucp. split; [reflexivity|]. split; [reflexivity|].
  destruct (pop_hdrs_done _ _ _ 0 _ _ _ (Z.le_refl 0) Erun) as (Hnew & Hold & Hroom).
  split; [|split].
  - intros i Hi. rewrite Hnew by lia. rewrite Z.sub_0_r. reflexivity.
  - intros i Hi. apply Hold; lia.
  - intro Hpos. specialize (Hroom ltac:(lia)). lia.
Qed.

Lemma populate_success_stores_declared_headers_witness :
  populate_parse (scenario_a_page [0]) element_hdr_arr
  = Some (mkPop 2 (Some 0x12345678)
            (list_set 1 (mkHdr 2 1 0 0) (list_set 0 (mkHdr 1 3 0 0) element_hdr_arr))
            [])
  /\ rd (scenario_a_page [0]) 0 = 1.
Proof.
  assert (Hp : populate_parse (scenario_a_page [0]) element_hdr_arr
               = Some (mkPop 2 (Some 0x12345678)
                         (list_set 1 (mkHdr 2 1 0 0)
                            (list_set 0 (mkHdr 1 3 0 0) element_hdr_arr))
                         []))
    by (vm_compute; reflexivity).
  split; [exact Hp|].
  apply (populate_success_stores_declared_headers _ _ _ Hp).
  cbn. lia.
Defined.

(** ** Command blocks and control pages *)

Lemma uchar_byte (x : Z) : is_byte x -> uchar x = x.
Proof.
  intro H. unfold uchar, is_byte in *. change 255 with (Z.ones 8).
  rewrite Z.land_ones by lia. apply Z.mod_small. change (2 ^ 8) with 256. lia.
Qed.

Lemma length_low_byte (x : Z) : uchar (Z.land x 0xff) = x mod 256.
Proof.
  unfold uchar. change 0xff with (Z.ones 8). rewrite <- Z.land_assoc, Z.land_diag.
  rewrite Z.land_ones by lia. reflexivity.
Qed.

Lemma length_high_byte (x : Z) :
  0 <= x < 65536 -> uchar (Z.land (Z.shiftr x 8) 0xff) = x / 256.
Proof.
  intro H. unfold uchar. change 0xff with (Z.ones 8).
  rewrite <- Z.land_assoc, Z.land_diag, Z.land_ones, Z.shiftr_div_pow2 by lia.
  change (2 ^ 8) with 256. apply Z.mod_small.
  split; [apply Z.div_pos; lia|apply Z.div_lt_upper_bound; lia].
Qed.

(** X9. The length fields of both command blocks are big-endian and give
    the length back: bytes 3 and 4 of the RECEIVE DIAGNOSTIC RESULTS block
    hold the allocation length and those of the SEND DIAGNOSTIC block the
    parameter list length, for any length below 65536; byte 2 of the receive
    block is the page code, its PCV bit is set for any nonzero [pcv], and
    the send block has the PF bit (0x10) for [pf_bit] = 1. *)
Theorem command_block_lengths (pcv pg_code len : Z) :
  0 <= len < 65536 ->
  is_byte pg_code ->
  rcvdiagCmdBlk pcv pg_code len
  = [0x1c; if pcv =? 0 then 0 else 1; pg_code; len / 256; len mod 256; 0]
  /\ senddiagCmdBlk 1 len = [0x1d; 0x10; 0; len / 256; len mod 256; 0]
  /\ nth 3 (rcvdiagCmdBlk pcv pg_code len) 0 * 256
     + nth 4 (rcvdiagCmdBlk pcv pg_code len) 0 = len
  /\ nth 3 (senddiagCmdBlk 1 len) 0 * 256 + nth 4 (senddiagCmdBlk 1 len) 0 = len.
Proof.
  intros Hlen Hpg.
  assert (Hr : rcvdiagCmdBlk pcv pg_code len
               = [0x1c; if pcv =? 0 then 0 else 1; pg_code;
                  len / 256; len mod 256; 0]).
  { unfold rcvdiagCmdBlk.
    rewrite length_high_byte, length_low_byte, (uchar_byte pg_code) by assumption.
    unfold nz. destruct (pcv =? 0); reflexivity. }
  assert (Hs : senddiagCmdBlk 1 len = [0x1d; 0x10; 0; len / 256; len mod 256; 0]).
  { unfold senddiagCmdBlk.
    rewrite length_high_byte, length_low_byte by assumption. reflexivity. }
  rewrite Hr, Hs. cbn [nth].
  pose proof (Z.div_mod len 256). repeat split; lia.
Qed.

Lemma command_block_lengths_witness :
  0 <= 4096 < 65536
  /\ rcvdiagCmdBlk 1 0x02 4096 = [0x1c; 1; 0x02; 0x10; 0x00; 0].
Proof.
  split; [lia|].
  apply (command_block_lengths 1 0x02 4096); unfold is_byte; lia.
Defined.

Lemma list_set_length_4 (a b c d : Z) (l : list Z) :
  List.length (list_set 3 d (list_set 2 c (list_set 1 b (list_set 0 a l))))
  = List.length l.
Proof. now rewrite !list_set_length. Qed.

Lemma bytes_at_bytes (l pre : list Z) :
  Forall is_byte l ->
  bytes_at (pre ++ l) (Z.of_nat (List.length pre)) (List.length l) = l.
Proof.
  revert pre. induction l as [|x l IH]; intros pre Hl; [reflexivity|].
  inversion Hl as [|? ? Hx Hl']; subst.
  cbn [List.length]. rewrite bytes_at_S. f_equal.
  - unfold rd. rewrite Nat2Z.id, nth_middle. apply uchar_byte. exact Hx.
  - replace (pre ++ x :: l) with ((pre ++ [x]) ++ l) by (rewrite <- app_assoc; reflexivity).
    replace (Z.of_nat (List.length pre) + 1)
      with (Z.of_nat (List.length (pre ++ [x])))
      by (rewrite length_app; cbn [List.length]; lia).
    apply IH. exact Hl'.
Qed.

(** What the control branch sends for a supported page. *)
Lemma main_control_sends
    (dev : sg_io_hdr -> bool) (page_code byte1 : Z) (data_arr : list Z)
    (arr_len : Z) :
  In page_code [0x2; 0x4; 0x5; 0x6; 0xc] ->
  is_byte byte1 ->
  List.length data_arr = 1024%nat ->
  0 <= arr_len <= 1020 ->
  exists out io,
    main_control dev page_code byte1 data_arr arr_len
    = Some (out, [io], if dev io then 0 else 1)
    /\ cmdp io = [0x1d; 0x10; 0; (arr_len + 4) / 256; (arr_len + 4) mod 256; 0]
    /\ dxfer_to_dev io = true
    /\ transferred io
       = [page_code; byte1; arr_len / 256; arr_len mod 256]
         ++ firstn (Z.to_nat arr_len) (skipn 4 data_arr).
Proof.
  intros Hpc Hb1 Hlen Hn.
  destruct data_arr as [|a0 [|a1 [|a2 [|a3 rest]]]]; try discriminate Hlen.
  cbn [List.length] in Hlen.
  assert (Hcmd : senddiagCmdBlk 1 (arr_len + 4)
                 = [0x1d; 0x10; 0; (arr_len + 4) / 256; (arr_len + 4) mod 256; 0]).
  { unfold senddiagCmdBlk.
    rewrite length_high_byte, length_low_byte by lia. reflexivity. }
  assert (Hgt : (arr_len + 4
                 >? Z.of_nat (List.length
                      (list_set 3 (uchar (Z.land arr_len 0xff))
                         (list_set 2 (uchar (Z.land (Z.shiftr arr_len 8) 0xff))
                            (list_set 1 (uchar byte1)
                               (list_set 0 (uchar page_code)
                                  (a0 :: a1 :: a2 :: a3 :: rest)))))))
                = false).
  { rewrite list_set_length_4. cbn [List.length]. apply gtb_le_false. lia. }
  assert (Hpcb : is_byte page_code)
    by (unfold is_byte; destruct Hpc as [<-|[<-|[<-|[<-|[<-|[]]]]]]; lia).
  assert (Htr : forall io,
             dxfer_len io = arr_len + 4 ->
             dxferp io
             = list_set 3 (uchar (Z.land arr_len 0xff))
                 (list_set 2 (uchar (Z.land (Z.shiftr arr_len 8) 0xff))
                    (list_set 1 (uchar byte1)
                       (list_set 0 (uchar page_code)
                          (a0 :: a1 :: a2 :: a3 :: rest)))) ->
             transferred io
             = [page_code; byte1; arr_len / 256; arr_len mod 256]
               ++ firstn (Z.to_nat arr_len) (skipn 4 (a0 :: a1 :: a2 :: a3 :: rest))).
  { intros io Hl Hp. unfold transferred. rewrite Hl, Hp.
    replace (Z.to_nat (arr_len + 4)) with (4 + Z.to_nat arr_len)%nat by lia.
    cbn [list_set firstn skipn Nat.add app].
    rewrite length_high_byte, length_low_byte by lia.
    rewrite (uchar_byte byte1), (uchar_byte page_code) by assumption.
    reflexivity. }
  destruct Hpc as [<-|[<-|[<-|[<-|[<-|[]]]]]];
    unfold main_control; cbv iota; unfold send_control_page;
    rewrite Hgt; unfold do_senddiag;
    match goal with
    | |- context [dev ?i] => set (IO := i)
    end;
    destruct (dev IO) eqn:Ed; cbv iota;
    change (nz 0) with false; change (nz (-1)) with true; cbv iota;
    eexists; exists IO; rewrite Ed;
    (split; [reflexivity|]); (split; [exact Hcmd|]);
    (split; [cbn [IO dxfer_to_dev]; unfold nz;
             destruct (Z.eqb_spec (arr_len + 4) 0); [lia|reflexivity]|]);
    apply Htr; reflexivity.
Qed.

Lemma raw_status_prints_payload
    (page_code byte1 do_hex inner_hex filter : Z) (payload : list Z) :
  is_byte page_code ->
  is_byte byte1 ->
  Forall is_byte payload ->
  Z.of_nat (List.length payload) <= 4092 ->
  ses_process_status page_code 1 do_hex inner_hex filter
    (start [fun _ =>
              Some ([page_code; byte1;
                     Z.of_nat (List.length payload) / 256;
                     Z.of_nat (List.length payload) mod 256] ++ payload)])
  = Some (tt, mkWorld [] [page_code] [DStrHex payload (-1)] element_hdr_arr).
Proof.
  intros Hpc Hb1 Hpl Hn.
  set (n := Z.of_nat (List.length payload)) in *.
  set (page := [page_code; byte1; n / 256; n mod 256] ++ payload).
  assert (Hn0 : 0 <= n) by (subst n; lia).
  assert (Hhi : is_byte (n / 256)).
  { unfold is_byte. split; [apply Z.div_pos; lia|].
    apply Z.lt_succ_r. apply Z.div_lt_upper_bound; lia. }
  assert (Hlo : is_byte (n mod 256)).
  { unfold is_byte. pose proof (Z.mod_pos_bound n 256). lia. }
  assert (H0 : rd page 0 = page_code) by (apply uchar_byte; exact Hpc).
  assert (H2 : rd page 2 = n / 256) by (apply uchar_byte; exact Hhi).
  assert (H3 : rd page 3 = n mod 256) by (apply uchar_byte; exact Hlo).
  assert (Hlen : page_len page = n + 4).
  { rewrite page_len_value, H2, H3. pose proof (Z.div_mod n 256). lia. }
  assert (Hclamp : clamp_len (page_len page) = n + 4).
  { rewrite Hlen. unfold clamp_len, MX_ALLOC_LEN.
    rewrite gtb_le_false by lia. reflexivity. }
  assert (Hwarn : buffer_too_small (page_len page) = []).
  { rewrite Hlen. unfold buffer_too_small, MX_ALLOC_LEN.
    rewrite gtb_le_false by lia. reflexivity. }
  unfold ses_process_status, start. unfold bind at 1. unfold do_rcvdiag.
  cbn [w_dev w_rcv w_out w_ehdr]. fold page. unfold bind at 1. unfold emit at 1.
  cbn [w_dev w_rcv w_out w_ehdr app]. rewrite Hwarn, Hclamp, H0, Z.eqb_refl.
  cbn [negb]. change (nz 1) with true. cbv iota. unfold emit.
  cbn [w_dev w_rcv w_out w_ehdr app].
  replace (n + 4 - 4) with n by lia. subst n. rewrite Nat2Z.id.
  change 4 with (Z.of_nat (List.length [page_code; byte1;
                   Z.of_nat (List.length payload) / 256;
                   Z.of_nat (List.length payload) mod 256])) at 1.
  subst page. rewrite bytes_at_bytes by exact Hpl. reflexivity.
Qed.

(** X10. A control page goes out as its 4-byte header (page code, byte 1,
    big-endian length of the payload) followed by the payload, in one SEND
    DIAGNOSTIC command with the PF bit and a parameter list length of the
    payload length plus 4; the value returned is 0, or 1 when the command
    fails.  Read back as a status page in raw form, what was sent renders
    the payload again, with no other fetch. *)
Theorem control_page_round_trip
    (dev : sg_io_hdr -> bool) (page_code byte1 : Z) (data_arr : list Z)
    (arr_len : Z) (do_hex inner_hex filter : Z) :
  In page_code [0x2; 0x4; 0x5; 0x6; 0xc] ->
  is_byte byte1 ->
  List.length data_arr = 1024%nat ->
  0 <= arr_len <= 1020 ->
  Forall is_byte (firstn (Z.to_nat arr_len) (skipn 4 data_arr)) ->
  exists out io,
    main_control dev page_code byte1 data_arr arr_len
    = Some (out, [io], if dev io then 0 else 1)
    /\ cmdp io = [0x1d; 0x10; 0; (arr_len + 4) / 256; (arr_len + 4) mod 256; 0]
    /\ dxfer_to_dev io = true
    /\ transferred io
       = [page_code; byte1; arr_len / 256; arr_len mod 256]
         ++ firstn (Z.to_nat arr_len) (skipn 4 data_arr)
    /\ page_len (transferred io) = arr_len + 4
    /\ ses_process_status page_code 1 do_hex inner_hex filter
         (start [fun _ => Some (transferred io)])
       = Some (tt, mkWorld [] [page_code]
                     [DStrHex (firstn (Z.to_nat arr_len) (skipn 4 data_arr)) (-1)]
                     element_hdr_arr).
Proof.
  intros Hpc Hb1 Hlen Hn Hbytes.
  destruct (main_control_sends dev page_code byte1 data_arr arr_len Hpc Hb1 Hlen Hn)
    as (out & io & Hrun & Hcmd & Hdir & Htr).
  exists out, io. split; [exact Hrun|]. split; [exact Hcmd|].
  split; [exact Hdir|]. split; [exact Htr|].
  assert (Hpcb : is_byte page_code)
    by (unfold is_byte; destruct Hpc as [<-|[<-|[<-|[<-|[<-|[]]]]]]; lia).
  assert (Hpl : Z.of_nat (List.length (firstn (Z.to_nat arr_len) (skipn 4 data_arr)))
                = arr_len).
  { rewrite length_firstn, length_skipn, Hlen. lia. }
  pose proof (raw_status_prints_payload page_code byte1 do_hex inner_hex filter
                (firstn (Z.to_nat arr_len) (skipn 4 data_arr))
                Hpcb Hb1 Hbytes ltac:(lia)) as Hraw.
  rewrite Hpl in Hraw. rewrite <- Htr in Hraw.
  split; [|exact Hraw].
  rewrite Htr. destruct Hn as [Hn0 Hn1].
  assert (Hhi : is_byte (arr_len / 256)).
  { unfold is_byte. split; [apply Z.div_pos; lia|].
    apply Z.lt_succ_r. apply Z.div_lt_upper_bound; lia. }
  assert (Hlo : is_byte (arr_len mod 256)).
  { unfold is_byte. pose proof (Z.mod_pos_bound arr_len 256). lia. }
  rewrite page_len_value.
  replace (rd _ 2) with (arr_len / 256) by (symmetry; apply uchar_byte; exact Hhi).
  replace (rd _ 3) with (arr_len mod 256) by (symmetry; apply uchar_byte; exact Hlo).
  pose proof (Z.div_mod arr_len 256). lia.
Qed.

Lemma control_page_round_trip_witness :
  In 0x2 [0x2; 0x4; 0x5; 0x6; 0xc]
  /\ exists out io,
       main_control (fun _ => true) 0x2 0 ([0; 0; 0; 0; 0x80; 0x01] ++ repeat 0 1018) 2
       = Some (out, [io], if (fun _ : sg_io_hdr => true) io then 0 else 1)
       /\ transferred io = [0x2; 0; 2 / 256; 2 mod 256] ++ [0x80; 0x01].
Proof.
  split; [left; reflexivity|].
  destruct (control_page_round_trip (fun _ => true) 0x2 0
              ([0; 0; 0; 0; 0x80; 0x01] ++ repeat 0 1018) 2 0 0 0)
    as (out & io & Hrun & _ & _ & Htr & _).
  - left; reflexivity.
  - unfold is_byte; lia.
  - reflexivity.
  - lia.
  - repeat constructor; lia.
  - exists out, io. split; [exact Hrun|exact Htr].
Defined.

(** X11. For any page code other than 0x02, 0x04, 0x05, 0x06 and 0x0c the
    control branch sends nothing: it prints that setting the page is not
    supported, and its result is 0, as for a page that was sent. *)
Theorem control_page_unsupported
    (dev : sg_io_hdr -> bool) (page_code byte1 : Z) (data_arr : list Z)
    (arr_len : Z) :
  ~ In page_code [0x2; 0x4; 0x5; 0x6; 0xc] ->
  main_control dev page_code byte1 data_arr arr_len
  = Some ([epr "Setting SES control page 0x%x not supported yet\n" [AInt page_code]],
          [], 0).
Proof.
  intro Hn. unfold main_control.
  destruct page_code as [|p|p]; [reflexivity| |reflexivity].
  do 4 (try (destruct p as [p|p|])); try reflexivity;
    exfalso; apply Hn; simpl; tauto.
Qed.

Lemma control_page_unsupported_witness :
  ~ In 0x7 [0x2; 0x4; 0x5; 0x6; 0xc]
  /\ main_control (fun _ => true) 0x7 0 (repeat 0 1024) 0
     = Some ([epr "Setting SES control page 0x%x not supported yet\n" [AInt 0x7]],
             [], 0).
Proof.
  assert (Hn : ~ In 0x7 [0x2; 0x4; 0x5; 0x6; 0xc])
    by (simpl; intros [H|[H|[H|[H|[H|[]]]]]]; discriminate H).
  split; [exact Hn|].
  apply (control_page_unsupported (fun _ => true) 0x7 0 (repeat 0 1024) 0 Hn).
Defined.

(** ** Requests that need no element map *)

(** X12. The Configuration page is fetched only for an element-keyed page
    decoded in structured form from an answer that is the page asked for.
    In every other case (another page code, raw or hex output, a failed
    command, an answer carrying another page code) the request issues the
    one RECEIVE DIAGNOSTIC RESULTS command for the target page and leaves
    the element map as it was. *)
Theorem single_fetch_without_element_map
    (page_code do_raw do_hex inner_hex filter : Z) (dev : list (Z -> option buf)) :
  ~ In page_code [0x02; 0x05; 0x07; 0x0a]
  \/ do_raw <> 0 \/ do_hex <> 0
  \/ (forall rsp, first_answer dev page_code = Some rsp -> rd rsp 0 <> page_code) ->
  exists out,
    ses_process_status page_code do_raw do_hex inner_hex filter (start dev)
    = Some (tt, mkWorld (tl dev) [page_code] out element_hdr_arr).
Proof.
  intro H. destruct dev as [|answer later]; [eexists; reflexivity|].
  unfold ses_process_status, start. unfold bind at 1. unfold do_rcvdiag.
  cbn [w_dev w_rcv w_out w_ehdr tl].
  destruct (answer page_code) as [rsp|] eqn:Ha; [|eexists; reflexivity].
  unfold bind at 1. unfold emit.
  cbn [w_dev w_rcv w_out w_ehdr app].
  destruct (Z.eqb_spec page_code (rd rsp 0)) as [He|Hne]; cbn [negb].
  2:{ destruct (_ && _); [eexists; reflexivity|].
      destruct (0x8 =? rd rsp 0); eexists; reflexivity. }
  unfold nz. destruct (Z.eqb_spec do_raw 0) as [Hr|Hr]; cbn [negb];
    [|eexists; reflexivity].
  destruct (Z.eqb_spec do_hex 0) as [Hh|Hh]; cbn [negb];
    [|eexists; reflexivity].
  assert (Hn : ~ In page_code [0x02; 0x05; 0x07; 0x0a]).
  { destruct H as [H|[H|[H|H]]]; [exact H|contradiction|contradiction|].
    exfalso. apply (H rsp); [exact Ha|symmetry; exact He]. }
  clear H He Ha.
  destruct page_code as [|p|p]; [eexists; reflexivity| |eexists; reflexivity].
  do 4 (try (destruct p as [p|p|])); try (eexists; reflexivity);
    exfalso; apply Hn; simpl; tauto.
Qed.

Lemma single_fetch_without_element_map_witness :
  (~ In 0x02 [0x02; 0x05; 0x07; 0x0a] \/ 1 <> 0 \/ 0 <> 0
   \/ (forall rsp,
         first_answer [fun _ : Z => Some later_status_page] 0x02 = Some rsp ->
         rd rsp 0 <> 0x02))
  /\ exists out,
       ses_process_status 0x02 1 0 0 0 (start [fun _ => Some later_status_page])
       = Some (tt, mkWorld [] [0x02] out element_hdr_arr).
Proof.
  assert (H : ~ In 0x02 [0x02; 0x05; 0x07; 0x0a] \/ 1 <> 0 \/ 0 <> 0
              \/ (forall rsp,
                    first_answer [fun _ : Z => Some later_status_page] 0x02
                    = Some rsp -> rd rsp 0 <> 0x02))
    by (right; left; lia).
  split; [exact H|].
  exact (single_fetch_without_element_map 0x02 1 0 0 0
           [fun _ => Some later_status_page] H).
Defined.

(** X13. When the element map cannot be built, nothing of the target page
    is rendered, although it has been fetched.  If the Configuration fetch
    fails, nothing is printed on the standard output, neither the heading of
    the page nor a line of its decoder, and the last message on the standard
    error is "populate: couldn't read config page" (it follows what the
    transport reports about the failed command, which is not modelled).  If
    the map builder rejects the Configuration page, only the map builder's
    messages are printed, after the warning about the target page's
    length if there is one. *)
Theorem no_decode_without_element_map
    (page_code : Z) (first second : Z -> option buf)
    (later : list (Z -> option buf)) (rsp : buf) (inner_hex filter : Z) :
  In page_code [0x02; 0x05; 0x07; 0x0a] ->
  first page_code = Some rsp ->
  rd rsp 0 = page_code ->
  (second 0x01 = None ->
   List.filter on_stdout
     (printed (ses_process_status page_code 0 0 inner_hex filter
                 (start (first :: second :: later)))) = []
   /\ last (printed (ses_process_status page_code 0 0 inner_hex filter
                       (start (first :: second :: later))))
           (pr EmptyString [])
      = epr "populate: couldn't read config page\n" [])
  /\ (forall cfg p,
        second 0x01 = Some cfg ->
        populate_parse cfg element_hdr_arr = Some p ->
        pop_res p < 0 ->
        printed (ses_process_status page_code 0 0 inner_hex filter
                   (start (first :: second :: later)))
        = buffer_too_small (page_len rsp) ++ pop_out p).
Proof.
  intros Hpc Ha Hrd.
  rewrite (process_status_element_keyed page_code first (second :: later) rsp)
    by assumption.
  split.
  - intro Hb.
    assert (Hout : printed
                     (with_element_map
                        (element_keyed_decoder page_code rsp inner_hex filter)
                        (mkWorld (second :: later) [page_code]
                           (buffer_too_small (page_len rsp)) element_hdr_arr))
                   = buffer_too_small (page_len rsp)
                     ++ [epr "populate: couldn't read config page\n" []]).
    { unfold with_element_map, populate_element_hdr_arr, bind, do_rcvdiag.
      cbn. rewrite Hb. reflexivity. }
    rewrite Hout. unfold buffer_too_small.
    destruct (_ >? _); split; reflexivity.
  - intros cfg p Hb Hp Hres.
    rewrite (with_element_map_run _ second later _ _ _ cfg p Hb Hp).
    cbn [printed w_out].
    destruct (Z.ltb_spec (pop_res p) 0) as [_|Hge]; [|lia].
    apply app_nil_r.
Qed.

Lemma no_decode_without_element_map_witness :
  In 0x02 [0x02; 0x05; 0x07; 0x0a]
  /\ List.filter on_stdout
       (printed (ses_process_status 0x02 0 0 0 0
                   (start [fun _ => Some later_status_page; fun _ => None]))) = []
  /\ last (printed (ses_process_status 0x02 0 0 0 0
                      (start [fun _ => Some later_status_page; fun _ => None])))
          (pr EmptyString [])
     = epr "populate: couldn't read config page\n" [].
Proof.
  split; [left; reflexivity|].
  apply (proj1 (no_decode_without_element_map 0x02
                  (fun _ => Some later_status_page) (fun _ => None) []
                  later_status_page 0 0 (or_introl eq_refl) eq_refl eq_refl)).
  reflexivity.
Defined.

(** ** Where a walk stops *)

Lemma print_over_elem_status_all (P : out_item -> Prop)
    (pad : string) (resp : buf) (statp etype filter : Z) :
  (forall f a, P (pr f a)) ->
  Forall P (print_over_elem_status pad resp statp etype filter).
Proof.
  intro HP.
  destruct (Z_lt_dec etype 0) as [Hlt|Hge].
  { rewrite print_over_elem_status_unknown by now left.
    repeat constructor; apply HP. }
  destruct (Z_lt_dec 0x17 etype) as [Hgt|Hle].
  { rewrite print_over_elem_status_unknown by now right.
    repeat constructor; apply HP. }
  replace etype with (Z.of_nat (Z.to_nat etype)) by lia.
  assert (Hn : (Z.to_nat etype < 24)%nat) by lia.
  generalize dependent (Z.to_nat etype). intros n Hn.
  do 24 (destruct n as [|n];
         [unfold print_over_elem_status; cbn [Z.of_nat Pos.of_succ_nat Pos.succ];
          forall_items ltac:(apply HP)|]).
  lia.
Qed.

Lemma ses_threshold_helper_all (P : out_item -> Prop)
    (pad : string) (resp : buf) (tp etype p_num inner_hex : Z) :
  (forall f a, P (pr f a)) ->
  Forall P (ses_threshold_helper pad resp tp etype p_num inner_hex).
Proof.
  intro HP. unfold ses_threshold_helper. cbv zeta.
  destruct (nz inner_hex); [repeat constructor; apply HP|].
  destruct etype as [|p|p]; [constructor| |constructor].
  do 5 (try (destruct p as [p|p|])); repeat constructor; apply HP.
Qed.

Lemma element_type_line_pr (indent : string) (tc sid : Z) :
  exists f a, element_type_line indent tc sid = pr f a.
Proof.
  unfold element_type_line. destruct (find_element_desc tc); eexists; eexists; reflexivity.
Qed.





Lemma pr_not_truncated (f : string) (a : list arg) : is_truncated (pr f a) = false.
Proof. reflexivity. Qed.

Lemma element_type_line_not_truncated (indent : string) (tc sid : Z) :
  is_truncated (element_type_line indent tc sid) = false.
Proof.
  destruct (element_type_line_pr indent tc sid) as (f & a & ->). reflexivity.
Qed.

Lemma enc_elems_run (resp : buf) (inner_hex filter : Z) (n : nat) :
  forall j ucp et,
    Forall (fun i => is_truncated i = false)
      (fst (enc_elems resp inner_hex filter n j ucp et))
    /\ snd (enc_elems resp inner_hex filter n j ucp et) = ucp + 4 * Z.of_nat n.
Proof.
  induction n as [|n IH]; intros j ucp et.
  - split; [constructor|simpl; lia].
  - cbn [enc_elems].
    destruct (IH (j + 1) (ucp + 4) et) as [Hf Hs].
    destruct (enc_elems resp inner_hex filter n (j + 1) (ucp + 4) et) as [rest ucp'].
    cbn [fst snd] in *. split; [|lia].
    apply Forall_app. split; [|exact Hf].
    destruct (nz inner_hex); [repeat constructor|].
    constructor; [reflexivity|].
    apply print_over_elem_status_all. intros; reflexivity.
Qed.

Lemma thr_elems_run (resp : buf) (inner_hex : Z) (n : nat) :
  forall j ucp et,
    Forall (fun i => is_truncated i = false)
      (fst (thr_elems resp inner_hex n j ucp et))
    /\ snd (thr_elems resp inner_hex n j ucp et) = ucp + 4 * Z.of_nat n.
Proof.
  induction n as [|n IH]; intros j ucp et.
  - split; [constructor|simpl; lia].
  - cbn [thr_elems].
    destruct (IH (j + 1) (ucp + 4) et) as [Hf Hs].
    destruct (thr_elems resp inner_hex n (j + 1) (ucp + 4) et) as [rest ucp'].
    cbn [fst snd] in *. split; [|lia].
    apply Forall_app. split; [|exact Hf].
    apply ses_threshold_helper_all. intros; reflexivity.
Qed.

Lemma print_each_all (P : out_item -> Prop) (fmt : string) (b : buf) (off : Z) (n : nat) :
  (forall f a, P (pr f a)) -> Forall P (print_each fmt b off n).
Proof.
  intro HP. unfold print_each. apply Forall_forall. intros i Hi.
  apply in_map_iff in Hi. destruct Hi as (x & <- & _). apply HP.
Qed.










Lemma conf_subs_run (resp : buf) (resp_len : Z) (n : nat) :
  forall ucp s,
    Forall (fun i => is_truncated i = false) (fst (conf_subs resp resp_len n ucp s)).
Proof.
  induction n as [|n IH]; intros ucp s; [constructor|].
  cbn [conf_subs]. destruct (ucp + 4 >? resp_len - 1); [constructor|].
  cbv zeta.
  specialize (IH (ucp + (rd resp (ucp + 3) + 4)) (s + rd resp (ucp + 2))).
  destruct (conf_subs resp resp_len n _ _) as [rest r].
  cbn [fst] in *. apply Forall_app. split; [|exact IH].
  apply Forall_app. split; [repeat constructor|].
  destruct (rd resp (ucp + 3) + 4 <? 40); [repeat constructor|].
  constructor; [reflexivity|].
  apply Forall_app. split; [apply print_each_all; intros; reflexivity|].
  apply Forall_app. split; [repeat constructor|].
  apply Forall_ifp. repeat constructor.
Qed.





(** ** When a page of 4-byte records is found too short *)

Lemma existsb_not_truncated (l : list out_item) :
  Forall (fun i => is_truncated i = false) l -> existsb is_truncated l = false.
Proof.
  induction 1 as [|x l Hx _ IH]; [reflexivity|].
  simpl. rewrite Hx, IH. reflexivity.
Qed.

Lemma enc_types_truncated (ehp : list element_hdr) (resp : buf)
    (resp_len inner_hex filter : Z) (n : nat) :
  forall k ucp,
    existsb is_truncated (enc_types ehp resp resp_len inner_hex filter n k ucp) = true
    <-> exists i, (i < n)%nat /\ walk_offset ehp k ucp i + 4 > resp_len - 1.
Proof.
  induction n as [|n IH]; intros k ucp.
  - simpl. split; [discriminate|intros (i & Hi & _); lia].
  - cbn [enc_types]. destruct (Z.gtb_spec (ucp + 4) (resp_len - 1)) as [Hgt|Hle].
    + split; [|reflexivity]. intros _. exists 0%nat. simpl. split; lia.
    + cbv zeta.
      destruct (enc_elems_run resp inner_hex filter
                  (Z.to_nat (num_elements (ehp_get ehp k))) 0 (ucp + 4)
                  (etype (ehp_get ehp k))) as [Hf Hs].
      destruct (enc_elems resp inner_hex filter _ 0 (ucp + 4) _) as [els ucp'].
      cbn [fst snd] in Hf, Hs.
      cbn [existsb]. rewrite element_type_line_not_truncated. cbn [orb].
      rewrite !existsb_app, (existsb_not_truncated els Hf).
      rewrite existsb_not_truncated.
      2:{ destruct (nz inner_hex); [repeat constructor|].
          constructor; [reflexivity|].
          apply print_over_elem_status_all. intros; reflexivity. }
      cbn [orb]. rewrite IH.
      replace ucp' with (ucp + 4 * (1 + Z.max 0 (num_elements (ehp_get ehp k))))
        by lia.
      split.
      * intros (i & Hi & Hoff). exists (S i). split; [lia|exact Hoff].
      * intros ([|i] & Hi & Hoff); [simpl in Hoff; lia|].
        exists i. split; [lia|exact Hoff].
Qed.

Lemma thr_types_truncated (ehp : list element_hdr) (resp : buf)
    (resp_len inner_hex : Z) (n : nat) :
  forall k ucp,
    existsb is_truncated (thr_types ehp resp resp_len inner_hex n k ucp) = true
    <-> exists i, (i < n)%nat /\ walk_offset ehp k ucp i + 4 > resp_len - 1.
Proof.
  induction n as [|n IH]; intros k ucp.
  - simpl. split; [discriminate|intros (i & Hi & _); lia].
  - cbn [thr_types]. destruct (Z.gtb_spec (ucp + 4) (resp_len - 1)) as [Hgt|Hle].
    + split; [|reflexivity]. intros _. exists 0%nat. simpl. split; lia.
    + cbv zeta.
      destruct (thr_elems_run resp inner_hex
                  (Z.to_nat (num_elements (ehp_get ehp k))) 0 (ucp + 4)
                  (etype (ehp_get ehp k))) as [Hf Hs].
      destruct (thr_elems resp inner_hex _ 0 (ucp + 4) _) as [els ucp'].
      cbn [fst snd] in Hf, Hs.
      cbn [existsb]. rewrite element_type_line_not_truncated. cbn [orb].
      rewrite !existsb_app, (existsb_not_truncated els Hf).
      rewrite existsb_not_truncated
        by (apply ses_threshold_helper_all; intros; reflexivity).
      cbn [orb]. rewrite IH.
      replace ucp' with (ucp + 4 * (1 + Z.max 0 (num_elements (ehp_get ehp k))))
        by lia.
      split.
      * intros (i & Hi & Hoff). exists (S i). split; [lia|exact Hoff].
      * intros ([|i] & Hi & Hoff); [simpl in Hoff; lia|].
        exists i. split; [lia|exact Hoff].
Qed.

(** X15. An Enclosure status page of at least 8 bytes whose generation code
    is the reference one is reported as too short exactly when, for one of
    the element types of the map, fewer than 5 bytes of the page are left at
    the offset of its overall record, the records being laid out from
    offset 8 with 4 bytes for each overall record and each element.  Where
    the records of the elements of a type end plays no part, and neither
    does the content of the records. *)
Theorem enclosure_status_too_short_iff
    (ehp : list element_hdr) (resp : buf)
    (resp_len inner_hex filter num_telems : Z) :
  8 <= resp_len ->
  (existsb is_truncated
     (ses_enclosure_sdg ehp resp resp_len inner_hex filter num_telems
        (gen_code_of resp)) = true
   <-> exists i, (i < Z.to_nat num_telems)%nat
                 /\ type_offset ehp i + 4 > resp_len - 1).
Proof.
  intro Hlen. unfold ses_enclosure_sdg, type_offset.
  destruct (Z.ltb_spec resp_len 4) as [|_]; [lia|].
  destruct (Z.ltb_spec resp_len 8) as [|_]; [lia|].
  cbv zeta. rewrite Z.eqb_refl. cbn [negb existsb is_truncated pr orb].
  apply enc_types_truncated.
Qed.

Lemma enclosure_status_too_short_iff_witness :
  8 <= 13
  /\ (existsb is_truncated
        (ses_enclosure_sdg device_map cut_status_page 13 0 0 1
           (gen_code_of cut_status_page)) = true
      <-> exists i, (i < Z.to_nat 1)%nat /\ type_offset device_map i + 4 > 13 - 1).
Proof.
  split; [lia|].
  apply (enclosure_status_too_short_iff device_map cut_status_page 13 0 0 1). lia.
Defined.

(** X16. The Threshold In decoder and the Enclosure status decoder walk the
    element map alike: for pages of the same length, each carrying the
    reference generation code, one is reported as too short exactly when
    the other is. *)
Theorem threshold_and_status_too_short_alike
    (ehp : list element_hdr) (status thresholds : buf)
    (resp_len inner_hex filter num_telems : Z) :
  8 <= resp_len ->
  existsb is_truncated
    (ses_threshold_sdg ehp thresholds resp_len inner_hex num_telems
       (gen_code_of thresholds))
  = existsb is_truncated
      (ses_enclosure_sdg ehp status resp_len inner_hex filter num_telems
         (gen_code_of status)).
Proof.
  intro Hlen. unfold ses_enclosure_sdg, ses_threshold_sdg.
  destruct (Z.ltb_spec resp_len 4) as [|_]; [lia|].
  destruct (Z.ltb_spec resp_len 8) as [|_]; [lia|].
  cbv zeta. rewrite !Z.eqb_refl. cbn [negb existsb is_truncated pr orb].
  apply eq_true_iff_eq.
  rewrite thr_types_truncated, enc_types_truncated. reflexivity.
Qed.

Lemma threshold_and_status_too_short_alike_witness :
  8 <= 13
  /\ existsb is_truncated
       (ses_threshold_sdg device_map cut_status_page 13 0 1
          (gen_code_of cut_status_page))
     = existsb is_truncated
         (ses_enclosure_sdg device_map cut_status_page 13 0 0 1
            (gen_code_of cut_status_page)).
Proof.
  split; [lia|].
  apply (threshold_and_status_too_short_alike device_map cut_status_page
           cut_status_page 13 0 0 1).
  lia.
Defined.

(** ** Thresholds *)

(** X17. In structured form a threshold record prints something for
    exactly four element types: temperature sensor (0x04), uninterruptible
    power supply (0x0b), voltage sensor (0x12) and current sensor (0x13).
    For every other type nothing is printed for the record. *)
Theorem thresholds_only_for_four_types
    (pad : string) (resp : buf) (tp etype p_num : Z) :
  ses_threshold_helper pad resp tp etype p_num 0 = []
  <-> ~ In etype [0x4; 0xb; 0x12; 0x13].
Proof.
  unfold ses_threshold_helper. change (nz 0) with false. cbv iota zeta.
  split.
  - intros H [<-|[<-|[<-|[<-|[]]]]]; discriminate H.
  - intro Hn. destruct etype as [|p|p]; [reflexivity| |reflexivity].
    do 5 (try (destruct p as [p|p|])); try reflexivity;
      exfalso; apply Hn; simpl; tauto.
Qed.

(** ** Fibre Channel transport descriptor *)

Lemma fcp_ports_S (resp : buf) (n : nat) (j per_ucp : Z) :
  fcp_ports resp (S n) j per_ucp
  = fcp_ports resp 1 j per_ucp ++ fcp_ports resp n (j + 1) (per_ucp + 16).
Proof.
  cbn [fcp_ports]. rewrite app_nil_r, <- !app_assoc. reflexivity.
Qed.

Lemma fcp_ports_1_length (resp : buf) (j per_ucp : Z) :
  List.length (fcp_ports resp 1 j per_ucp) = 12%nat.
Proof. reflexivity. Qed.

Lemma fcp_ports_nth (resp : buf) (n : nat) :
  forall (j0 per_ucp : Z) (i m : nat),
    (i < n)%nat -> (m < 12)%nat ->
    nth_error (fcp_ports resp n j0 per_ucp) (12 * i + m)
    = nth_error (fcp_ports resp 1 (j0 + Z.of_nat i) (per_ucp + 16 * Z.of_nat i)) m.
Proof.
  induction n as [|n IH]; intros j0 per_ucp i m Hi Hm; [lia|].
  rewrite fcp_ports_S. destruct i as [|i].
  - rewrite Nat.mul_0_r, Nat.add_0_l, Z.mul_0_r, !Z.add_0_r.
    apply nth_error_app1. rewrite fcp_ports_1_length. exact Hm.
  - rewrite nth_error_app2 by (rewrite fcp_ports_1_length; lia).
    rewrite fcp_ports_1_length.
    replace (12 * S i + m - 12)%nat with (12 * i + m)%nat by lia.
    rewrite IH by lia. f_equal. f_equal; lia.
Qed.

(** X18. In the Fibre Channel transport descriptor the record of each port
    is labelled with its own index plus one, and is read 16 bytes further
    on for each port from offset 12 of the descriptor: loop position at
    byte 0 of the record, requested hard address at byte 4. *)
Theorem fcp_port_label_is_index_plus_one
    (resp : buf) (ucp len elem_num j : Z) :
  Z.land 0xf (rd resp ucp) = 0 ->
  0 <= j < rd resp (ucp + 2) ->
  nth_error (ses_transport_proto resp ucp len elem_num) (Z.to_nat (11 + 12 * j))
  = Some (pr "    [%d] port loop position: %d, port requested hard address: %d\n"
             [AInt (j + 1);
              AInt (rd resp (ucp + 12 + 16 * j));
              AInt (rd resp (ucp + 12 + 16 * j + 4))]).
Proof.
  intros Hproto Hj. unfold ses_transport_proto. rewrite Hproto.
  set (ports := rd resp (ucp + 2)) in *.
  assert (Hi : (Z.to_nat j < Z.to_nat ports)%nat) by lia.
  replace (Z.to_nat (11 + 12 * j)) with (11 + (12 * Z.to_nat j + 0))%nat by lia.
  change (nth_error (fcp_ports resp (Z.to_nat ports) 0 (ucp + 12))
            (12 * Z.to_nat j + 0)
          = Some (pr "    [%d] port loop position: %d, port requested hard address: %d\n"
                     [AInt (j + 1);
                      AInt (rd resp (ucp + 12 + 16 * j));
                      AInt (rd resp (ucp + 12 + 16 * j + 4))])).
  rewrite (fcp_ports_nth resp _ 0 (ucp + 12) _ 0%nat Hi) by lia.
  rewrite Z2Nat.id by lia. cbn [fcp_ports app nth_error].
  rewrite Z.add_0_l. reflexivity.
Qed.

Lemma fcp_port_label_is_index_plus_one_witness :
  Z.land 0xf (rd [0x00; 42; 2; 0] 0) = 0
  /\ 0 <= 1 < rd [0x00; 42; 2; 0] (0 + 2)
  /\ nth_error (ses_transport_proto [0x00; 42; 2; 0] 0 44 0) (Z.to_nat (11 + 12 * 1))
     = Some (pr "    [%d] port loop position: %d, port requested hard address: %d\n"
                [AInt (1 + 1);
                 AInt (rd [0x00; 42; 2; 0] (0 + 12 + 16 * 1));
                 AInt (rd [0x00; 42; 2; 0] (0 + 12 + 16 * 1 + 4))]).
Proof.
  split; [reflexivity|]. split; [vm_compute; split; congruence|].
  apply (fcp_port_label_is_index_plus_one [0x00; 42; 2; 0] 0 44 0 1).
  - reflexivity.
  - vm_compute; split; congruence.
Defined.

(** ** The Configuration printer and the map builder *)

Lemma subs_walks_agree (resp : buf) (resp_len : Z) (n : nat) :
  forall ucp sum_elem_types,
    snd (conf_subs resp resp_len n ucp sum_elem_types)
    = snd (pop_subs resp resp_len n ucp sum_elem_types).
Proof.
  induction n as [|n IH]; intros ucp s; [reflexivity|].
  cbn [conf_subs pop_subs].
  destruct (ucp + 4 >? resp_len - 1); [reflexivity|].
  specialize (IH (ucp + (rd resp (ucp + 3) + 4)) (s + rd resp (ucp + 2))).
  destruct (conf_subs resp resp_len n _ _) as [o1 r1].
  destruct (pop_subs resp resp_len n _ _) as [o2 r2].
  exact IH.
Qed.

Lemma pop_subs_messages (resp : buf) (resp_len : Z) (n : nat) :
  forall ucp s,
    Forall (fun i => i <> config_too_short) (fst (pop_subs resp resp_len n ucp s)).
Proof.
  induction n as [|n IH]; intros ucp s; [constructor|].
  cbn [pop_subs]. destruct (ucp + 4 >? resp_len - 1); [constructor|].
  cbv zeta.
  specialize (IH (ucp + (rd resp (ucp + 3) + 4)) (s + rd resp (ucp + 2))).
  destruct (pop_subs resp resp_len n _ _) as [rest r].
  cbn [fst] in *. apply Forall_app. split; [|exact IH].
  apply Forall_ifp. repeat constructor. discriminate.
Qed.

Lemma pop_truncated_conf_truncated (resp : buf) (resp_len : Z) (n : nat) :
  forall k ucp text_ucp ehp ehp',
    pop_hdrs resp resp_len n k ucp ehp = Some (PopTruncated, ehp') ->
    existsb is_truncated (conf_types resp resp_len n ucp text_ucp) = true.
Proof.
  induction n as [|n IH]; intros k ucp text_ucp ehp ehp' H; [discriminate H|].
  cbn [pop_hdrs conf_types] in *.
  destruct (ucp + 4 >? resp_len - 1); [reflexivity|].
  destruct (k >=? MX_ELEM_HDR); [discriminate H|].
  destruct (ehp_store ehp k _) as [ehp1|]; [|discriminate H].
  cbn [existsb]. rewrite element_type_line_not_truncated. cbn [orb is_truncated pr].
  destruct (rd resp (ucp + 3) >? 0); [|exact (IH _ _ _ _ _ H)].
  destruct (text_ucp >? resp_len - 1); [reflexivity|].
  cbn [existsb orb is_truncated pr]. exact (IH _ _ _ _ _ H).
Qed.

(** X19. The Configuration decoder and the map builder walk the
    subenclosure descriptors alike: both find the page too short at the same
    descriptor, or both arrive at the same offset of the first type
    descriptor header with the same number of element types.  And a
    Configuration page that the map builder rejects with "config too short"
    is reported as too short by the Configuration decoder as well. *)
Theorem configuration_walks_agree (resp : buf) :
  (forall resp_len n ucp sum_elem_types,
     snd (conf_subs resp resp_len n ucp sum_elem_types)
     = snd (pop_subs resp resp_len n ucp sum_elem_types))
  /\ (forall ehp p,
        populate_parse resp ehp = Some p ->
        In config_too_short (pop_out p) ->
        existsb is_truncated
          (ses_configuration_sdg resp (clamp_len (page_len resp))) = true).
Proof.
  split; [intros; apply subs_walks_agree|].
  intros ehp p Hp Hin. unfold populate_parse in Hp.
  assert (Hw : ~ In config_too_short (buffer_too_small (page_len resp))).
  { unfold buffer_too_small. destruct (_ >? _); simpl; [|tauto].
    intros [H|[]]; discriminate H. }
  destruct (negb (rd resp 0 =? 1)).
  { inversion Hp; subst p; cbn [pop_out] in Hin.
    apply in_app_or in Hin. destruct Hin as [Hin|Hin]; [contradiction|].
    destruct Hin as [Hin|[]].
    destruct (_ && _); [discriminate Hin|].
    destruct (rd resp 0 =? 8); discriminate Hin. }
  unfold ses_configuration_sdg.
  destruct (clamp_len (page_len resp) <? 4).
  { inversion Hp; subst p; cbn [pop_out] in Hin. contradiction. }
  pose proof (subs_walks_agree resp (clamp_len (page_len resp))
                (Z.to_nat (rd resp 1 + 1)) 8 0) as Hag.
  pose proof (pop_subs_messages resp (clamp_len (page_len resp))
                (Z.to_nat (rd resp 1 + 1)) 8 0) as Hmsg.
  pose proof (conf_subs_run resp (clamp_len (page_len resp))
                (Z.to_nat (rd resp 1 + 1)) 8 0) as Hnt.
  destruct (pop_subs _ _ _ 8 0) as [o r].
  destruct (conf_subs _ _ _ 8 0) as [o' r'].
  cbn [fst snd] in *. subst r'.
  cbn [existsb is_truncated pr orb].
  destruct r as [[ucp s]|].
  2:{ rewrite existsb_app. cbn. apply orb_true_r. }
  rewrite existsb_app. cbn [existsb is_truncated pr orb].
  assert (Ho : ~ In config_too_short o).
  { intro Hi. rewrite Forall_forall in Hmsg. exact (Hmsg _ Hi eq_refl). }
  destruct (pop_hdrs _ _ _ 0 ucp ehp) as [[e ehp']|] eqn:Erun; [|discriminate Hp].
  destruct e.
  - inversion Hp; subst p; cbn [pop_out] in Hin.
    apply in_app_or in Hin. destruct Hin; contradiction.
  - rewrite (pop_truncated_conf_truncated _ _ _ _ _ _ _ _ Erun).
    apply orb_true_r.
  - inversion Hp; subst p; cbn [pop_out] in Hin.
    apply in_app_or in Hin. destruct Hin as [Hin|Hin]; [contradiction|].
    apply in_app_or in Hin. destruct Hin as [Hin|[Hin|[]]]; [contradiction|].
    discriminate Hin.
Qed.

(** ** Building the map twice *)

Lemma list_set_same {A : Type} (l : list A) :
  forall n x d, (n < List.length l)%nat -> nth n l d = x -> list_set n x l = l.
Proof.
  induction l as [|h t IH]; intros [|n] x d Hn Hx; simpl in *; try lia.
  - now subst.
  - f_equal. apply (IH n x d); [lia|exact Hx].
Qed.

Lemma pop_hdrs_keeps_below (resp : buf) (resp_len : Z) (n : nat) :
  forall k ucp ehp e ehp',
    0 <= k ->
    pop_hdrs resp resp_len n k ucp ehp = Some (e, ehp') ->
    List.length ehp' = List.length ehp
    /\ forall i d, (i < Z.to_nat k)%nat -> nth i ehp' d = nth i ehp d.
Proof.
  induction n as [|n IH]; intros k ucp ehp e ehp' Hk H; cbn [pop_hdrs] in H.
  - inversion H; subst. auto.
  - destruct (ucp + 4 >? resp_len - 1); [inversion H; subst; auto|].
    destruct (k >=? MX_ELEM_HDR); [inversion H; subst; auto|].
    destruct (ehp_store ehp k _) as [ehp1|] eqn:Es; [|discriminate H].
    apply ehp_store_some in Es. destruct Es as [Hin ->].
    assert (Hk1 : 0 <= k + 1) by lia.
    destruct (IH _ _ _ _ _ Hk1 H) as [Hlen Hbelow].
    rewrite list_set_length in Hlen. split; [exact Hlen|].
    intros i d Hi. rewrite Hbelow by lia. apply nth_list_set_neq. lia.
Qed.

Lemma pop_hdrs_again (resp : buf) (resp_len : Z) (n : nat) :
  forall k ucp ehp e ehp',
    0 <= k ->
    pop_hdrs resp resp_len n k ucp ehp = Some (e, ehp') ->
    pop_hdrs resp resp_len n k ucp ehp' = Some (e, ehp').
Proof.
  induction n as [|n IH]; intros k ucp ehp e ehp' Hk H; cbn [pop_hdrs] in *.
  - inversion H; subst. reflexivity.
  - destruct (ucp + 4 >? resp_len - 1); [inversion H; subst; reflexivity|].
    destruct (k >=? MX_ELEM_HDR); [inversion H; subst; reflexivity|].
    set (h := mkHdr (rd resp ucp) (rd resp (ucp + 1)) (rd resp (ucp + 2)) 0) in *.
    destruct (ehp_store ehp k h) as [ehp1|] eqn:Es; [|discriminate H].
    apply ehp_store_some in Es. destruct Es as [Hin ->].
    assert (Hk1 : 0 <= k + 1) by lia.
    destruct (pop_hdrs_keeps_below _ _ _ _ _ _ _ _ Hk1 H) as [Hlen Hbelow].
    rewrite list_set_length in Hlen.
    rewrite ehp_store_inside by lia.
    rewrite (list_set_same ehp' (Z.to_nat k) h h) by
      (try lia; rewrite Hbelow by lia; apply nth_list_set_eq; lia).
    exact (IH _ _ _ _ _ Hk1 H).
Qed.

(** X20. Building the element map again from the same Configuration page,
    in the array the first run left, gives the same result, the same
    generation code, the same messages and the same array: a request that
    follows another on an unchanged enclosure works with the same map. *)
Theorem populate_again_changes_nothing
    (resp : buf) (ehp : list element_hdr) (p : pop_result) :
  populate_parse resp ehp = Some p ->
  populate_parse resp (pop_ehp p) = Some p.
Proof.
  unfold populate_parse. intro H.
  destruct (negb (rd resp 0 =? 1)); [inversion H; subst; reflexivity|].
  destruct (clamp_len (page_len resp) <? 4); [inversion H; subst; reflexivity|].
  destruct (pop_subs _ _ _ 8 0) as [o [[ucp s]|]];
    [|inversion H; subst; reflexivity].
  destruct (pop_hdrs _ _ _ 0 ucp ehp) as [[e ehp']|] eqn:Erun; [|discriminate H].
  pose proof (pop_hdrs_again _ _ _ _ _ _ _ _ (Z.le_refl 0) Erun) as Hagain.
  destruct e; inversion H; subst; cbn [pop_ehp]; rewrite Hagain; reflexivity.
Qed.

Lemma populate_again_changes_nothing_witness :
  populate_parse device_config_page element_hdr_arr
  = Some (mkPop 1 (Some 0)
            (list_set 0 (mkHdr 1 3 0 0) element_hdr_arr)
            [epr "populate: short enc descriptor len=%d ??\n" [AInt 4]])
  /\ populate_parse device_config_page (list_set 0 (mkHdr 1 3 0 0) element_hdr_arr)
     = Some (mkPop 1 (Some 0)
               (list_set 0 (mkHdr 1 3 0 0) element_hdr_arr)
               [epr "populate: short enc descriptor len=%d ??\n" [AInt 4]]).
Proof.
  assert (Hp : populate_parse device_config_page element_hdr_arr
               = Some (mkPop 1 (Some 0)
                         (list_set 0 (mkHdr 1 3 0 0) element_hdr_arr)
                         [epr "populate: short enc descriptor len=%d ??\n" [AInt 4]]))
    by (vm_compute; reflexivity).
  split; [exact Hp|].
  exact (populate_again_changes_nothing _ _ _ Hp).
Defined.

(** ** Subenclosure help text and string pages *)

Lemma subenc_loops_truncate_alike (resp : buf) (resp_len : Z) (n : nat) :
  forall ucp,
    existsb is_truncated (subenc_help_loop resp resp_len n ucp)
    = existsb is_truncated (subenc_string_loop resp resp_len n ucp).
Proof.
  induction n as [|n IH]; intro ucp; [reflexivity|].
  cbn [subenc_help_loop subenc_string_loop].
  destruct (ucp + 4 >? resp_len - 1); [reflexivity|].
  cbv zeta. cbn [existsb is_truncated pr orb].
  rewrite IH. destruct (desc_len_at resp ucp >? 4); reflexivity.
Qed.

(** X21. The Subenclosure help text decoder and the Subenclosure string
    decoder walk the records of a page alike: given the same page, one
    reports it as too short exactly when the other does. *)
Theorem subenclosure_pages_too_short_alike (resp : buf) (resp_len : Z) :
  existsb is_truncated (ses_subenc_help_sdg resp resp_len)
  = existsb is_truncated (ses_subenc_string_sdg resp resp_len).
Proof.
  unfold ses_subenc_help_sdg, ses_subenc_string_sdg.
  cbn [existsb is_truncated pr orb].
  destruct (resp_len <? 4); [reflexivity|].
  cbv zeta. cbn [existsb is_truncated pr orb].
  apply subenc_loops_truncate_alike.
Qed.

(** ** Reading the payload of a control page *)

Lemma hex_char_facts (d : Z) :
  0 <= d < 16 ->
  hex_digit (hex_char d) = Some d
  /\ existsb (Ascii.eqb (hex_char d)) (chars ",") = false
  /\ existsb (Ascii.eqb (hex_char d)) hex_and_comma = true
  /\ Ascii.eqb (hex_char d) (Ascii.ascii_of_nat 45) = false.
Proof.
  intro Hd. replace d with (Z.of_nat (Z.to_nat d)) by lia.
  assert (Hn : (Z.to_nat d < 16)%nat) by lia.
  generalize dependent (Z.to_nat d). intros n Hn.
  do 16 (destruct n as [|n]; [vm_compute; auto|]). lia.
Qed.

Lemma byte_nibbles (b : Z) :
  is_byte b -> 0 <= b / 16 < 16 /\ 0 <= b mod 16 < 16 /\ (b / 16) * 16 + b mod 16 = b.
Proof.
  unfold is_byte. intro H.
  pose proof (Z.div_mod b 16). pose proof (Z.mod_pos_bound b 16).
  assert (0 <= b / 16) by (apply Z.div_pos; lia).
  assert (b / 16 < 16) by (apply Z.div_lt_upper_bound; lia).
  lia.
Qed.

Lemma sscanf_x_hex2 (b : Z) (rest : list Ascii.ascii) :
  is_byte b -> ends_number rest -> sscanf_x (hex2 b ++ rest) = ScanValue b.
Proof.
  intros Hb Hrest. destruct (byte_nibbles b Hb) as (Hhi & Hlo & Hsum).
  destruct (hex_char_facts _ Hhi) as (Dhi & _).
  destruct (hex_char_facts _ Hlo) as (Dlo & _).
  assert (Hrun : hex_run (hex2 b ++ rest) 0 = b).
  { unfold hex2. cbn [app hex_run]. rewrite Dhi, Dlo.
    destruct rest as [|c rest']; cbn [hex_run]; [lia|].
    cbn in Hrest. rewrite Hrest. lia. }
  unfold sscanf_x. unfold hex2 at 1. cbn [app]. rewrite Dhi.
  change (hex_char (b / 16) :: hex_char (b mod 16) :: rest) with (hex2 b ++ rest).
  unfold strtoul_hex. rewrite Hrun. unfold is_byte in Hb.
  unfold ULONG_MAX, UINT_RANGE. rewrite Z.min_l by lia.
  rewrite Z.mod_small by lia. reflexivity.
Qed.

Lemma strpbrk_hex2_comma (b : Z) (rest : list Ascii.ascii) :
  is_byte b -> strpbrk (hex2 b ++ chars "," ++ rest) (chars ",") = Some 2%nat.
Proof.
  intro Hb. destruct (byte_nibbles b Hb) as (Hhi & Hlo & _).
  destruct (hex_char_facts _ Hhi) as (_ & Chi & _).
  destruct (hex_char_facts _ Hlo) as (_ & Clo & _).
  unfold hex2. cbn [app strpbrk]. rewrite Chi, Clo. reflexivity.
Qed.

Lemma strpbrk_hex2_end (b : Z) :
  is_byte b -> strpbrk (hex2 b) (chars ",") = None.
Proof.
  intro Hb. destruct (byte_nibbles b Hb) as (Hhi & Hlo & _).
  destruct (hex_char_facts _ Hhi) as (_ & Chi & _).
  destruct (hex_char_facts _ Hlo) as (_ & Clo & _).
  unfold hex2. cbn [strpbrk]. rewrite Chi, Clo. reflexivity.
Qed.

Lemma arr_store_inside (arr : list Z) (k h : Z) :
  0 <= k < Z.of_nat (List.length arr) ->
  arr_store arr k h = Some (list_set (Z.to_nat k) h arr).
Proof.
  intro Hk. unfold arr_store.
  destruct (Z.leb_spec 0 k); [|lia].
  destruct (Z.ltb_spec k (Z.of_nat (List.length arr))); [reflexivity|lia].
Qed.

Lemma arr_store_outside (arr : list Z) (k h : Z) :
  Z.of_nat (List.length arr) <= k -> arr_store arr k h = None.
Proof.
  intro Hk. unfold arr_store.
  destruct (Z.ltb_spec k (Z.of_nat (List.length arr))); [lia|].
  rewrite andb_false_r. reflexivity.
Qed.

Lemma store_all_length (bs : list Z) :
  forall arr k, List.length (store_all arr k bs) = List.length arr.
Proof.
  induction bs as [|b bs IH]; intros arr k; [reflexivity|].
  cbn [store_all]. rewrite IH. apply list_set_length.
Qed.

Lemma hex_text_cons (b : Z) (c : Z) (rest : list Z) :
  hex_text (b :: c :: rest) = hex2 b ++ chars "," ++ hex_text (c :: rest).
Proof. reflexivity. Qed.

(** The loop of the command line branch on the text of [bs]. *)
Lemma read_hex_args_text (bs : list Z) :
  forall fuel k pos arr,
    bs <> [] ->
    Forall is_byte bs ->
    (List.length bs <= fuel)%nat ->
    (k + List.length bs <= List.length arr)%nat ->
    read_hex_args fuel (Z.of_nat k) (hex_text bs) pos arr
    = Some (HexRead (Z.of_nat (k + List.length bs) - 1) (store_all arr k bs)).
Proof.
  induction bs as [|b bs IH]; intros fuel k pos arr Hne Hb Hfuel Hroom;
    [congruence|].
  inversion Hb as [|? ? Hb0 Hbs]; subst.
  destruct fuel as [|fuel]; [cbn in Hfuel; lia|].
  cbn [List.length] in *.
  destruct bs as [|c bs].
  - cbn [hex_text read_hex_args].
    rewrite <- (app_nil_r (hex2 b)) at 1.
    rewrite sscanf_x_hex2 by (auto; exact I).
    unfold is_byte in Hb0. rewrite gtb_le_false by lia.
    rewrite arr_store_inside by lia. rewrite strpbrk_hex2_end by exact Hb0.
    cbn [store_all List.length]. rewrite Nat2Z.id. do 2 f_equal. lia.
  - rewrite hex_text_cons. cbn [read_hex_args].
    rewrite sscanf_x_hex2 by (auto; reflexivity).
    pose proof Hb0 as Hb0'. unfold is_byte in Hb0'. rewrite gtb_le_false by lia.
    rewrite arr_store_inside by (cbn [List.length] in Hroom; lia).
    rewrite strpbrk_hex2_comma by exact Hb0.
    change (skipn 3 (hex2 b ++ chars "," ++ hex_text (c :: bs)))
      with (hex_text (c :: bs)).
    rewrite Nat2Z.id.
    replace (Z.of_nat k + 1) with (Z.of_nat (S k)) by lia.
    rewrite IH; try assumption; try discriminate;
      try (cbn [List.length] in *; rewrite ?list_set_length; lia).
    cbn [store_all List.length]. do 2 f_equal. lia.
Qed.

(** The same loop when the text holds more numbers than the array has
    room for: a store falls outside the array. *)
Lemma read_hex_args_overrun (bs : list Z) :
  forall fuel k pos arr,
    Forall is_byte bs ->
    (k <= List.length arr)%nat ->
    (List.length arr < k + List.length bs)%nat ->
    (List.length arr - k < fuel)%nat ->
    read_hex_args fuel (Z.of_nat k) (hex_text bs) pos arr = None.
Proof.
  induction bs as [|b bs IH]; intros fuel k pos arr Hb Hk Hroom Hfuel;
    [cbn in Hroom; lia|].
  inversion Hb as [|? ? Hb0 Hbs]; subst.
  destruct fuel as [|fuel]; [lia|].
  cbn [List.length] in *.
  pose proof Hb0 as Hb0'. unfold is_byte in Hb0'.
  destruct bs as [|c bs].
  - cbn [hex_text read_hex_args].
    rewrite <- (app_nil_r (hex2 b)) at 1.
    rewrite sscanf_x_hex2 by (auto; exact I).
    rewrite gtb_le_false by lia.
    rewrite arr_store_outside by (cbn [List.length] in Hroom; lia). reflexivity.
  - rewrite hex_text_cons. cbn [read_hex_args].
    rewrite sscanf_x_hex2 by (auto; reflexivity).
    rewrite gtb_le_false by lia.
    destruct (Nat.eq_dec k (List.length arr)) as [->|Hlt].
    { rewrite arr_store_outside by lia. reflexivity. }
    rewrite arr_store_inside by lia.
    rewrite strpbrk_hex2_comma by exact Hb0.
    change (skipn 3 (hex2 b ++ chars "," ++ hex_text (c :: bs)))
      with (hex_text (c :: bs)).
    replace (Z.of_nat k + 1) with (Z.of_nat (S k)) by lia.
    apply IH; try assumption; rewrite ?list_set_length;
      cbn [List.length] in *; lia.
Qed.

Lemma store_all_shift (bs : list Z) :
  forall x arr k, store_all (x :: arr) (S k) bs = x :: store_all arr k bs.
Proof.
  induction bs as [|b bs IH]; intros x arr k; [reflexivity|].
  cbn [store_all]. rewrite <- IH. reflexivity.
Qed.

Lemma store_all_prefix (bs : list Z) :
  forall arr,
    (List.length bs <= List.length arr)%nat ->
    store_all arr 0 bs = bs ++ skipn (List.length bs) arr.
Proof.
  induction bs as [|b bs IH]; intros arr Hlen; [reflexivity|].
  destruct arr as [|a arr]; [cbn in Hlen; lia|].
  cbn [store_all list_set List.length skipn app].
  rewrite store_all_shift, IH by (cbn in Hlen; lia). reflexivity.
Qed.

Lemma strspn_app (l rest accept : list Ascii.ascii) :
  Forall (fun c => existsb (Ascii.eqb c) accept = true) l ->
  strspn (l ++ rest) accept = (List.length l + strspn rest accept)%nat.
Proof.
  induction 1 as [|c l Hc _ IH]; [reflexivity|].
  cbn [app strspn List.length]. rewrite Hc, IH. reflexivity.
Qed.

Lemma hex2_accepted (b : Z) :
  is_byte b ->
  Forall (fun c => existsb (Ascii.eqb c) hex_and_comma = true) (hex2 b).
Proof.
  intro Hb. destruct (byte_nibbles b Hb) as (Hhi & Hlo & _).
  destruct (hex_char_facts _ Hhi) as (_ & _ & Ahi & _).
  destruct (hex_char_facts _ Hlo) as (_ & _ & Alo & _).
  repeat constructor; assumption.
Qed.

Lemma strspn_hex_text (bs : list Z) :
  Forall is_byte bs ->
  strspn (hex_text bs) hex_and_comma = List.length (hex_text bs).
Proof.
  induction 1 as [|b bs Hb Hbs IH]; [reflexivity|].
  destruct bs as [|c bs].
  - cbn [hex_text]. rewrite <- (app_nil_r (hex2 b)) at 1.
    rewrite strspn_app by (apply hex2_accepted; exact Hb). cbn. lia.
  - rewrite hex_text_cons.
    rewrite strspn_app by (apply hex2_accepted; exact Hb).
    rewrite !length_app.
    change (strspn (chars "," ++ hex_text (c :: bs)) hex_and_comma)
      with (S (strspn (hex_text (c :: bs)) hex_and_comma)).
    rewrite IH. cbn [chars list_ascii_of_string List.length]. lia.
Qed.

Lemma hex_text_starts (bs : list Z) :
  bs <> [] -> Forall is_byte bs ->
  exists c rest,
    hex_text bs = c :: rest /\ Ascii.eqb c (Ascii.ascii_of_nat 45) = false.
Proof.
  intros Hne Hb. destruct bs as [|b bs]; [congruence|].
  inversion Hb as [|? ? Hb0 _]; subst.
  destruct (byte_nibbles b Hb0) as (Hhi & _).
  destruct (hex_char_facts _ Hhi) as (_ & _ & _ & Hdash).
  destruct bs as [|c bs]; eexists; eexists; (split; [reflexivity|exact Hdash]).
Qed.

Lemma read_hex_text (bs : list Z) (stdin : list Ascii.ascii) (arr : list Z)
    (arr_len : Z) :
  bs <> [] ->
  Forall is_byte bs ->
  (List.length bs <= 1024)%nat ->
  (List.length bs <= List.length arr)%nat ->
  read_hex (hex_text bs) stdin arr arr_len
  = Some (0, bs ++ skipn (List.length bs) arr, Z.of_nat (List.length bs), []).
Proof.
  intros Hne Hb Hmax Hroom. unfold read_hex.
  destruct (hex_text_starts bs Hne Hb) as (c & rest & Htext & Hdash).
  rewrite Htext at 1. rewrite Hdash.
  rewrite strspn_hex_text by exact Hb. rewrite Nat.eqb_refl. cbn [negb].
  pose proof (read_hex_args_text bs 1024 0 0 arr Hne Hb Hmax Hroom) as Hl.
  change (Z.of_nat 0) with 0 in Hl. rewrite Hl.
  rewrite store_all_prefix by exact Hroom.
  do 3 f_equal. cbn [Nat.add]. lia.
Qed.

(** X22. A list of one to 1024 bytes written as two hexadecimal digits
    each with commas between them is read back by [read_hex] as these bytes,
    stored from the start of the array, with their number as the length and
    the value 0; the rest of the array is untouched.  Given as the data of a
    supported control page of at most 1020 bytes, they are what is sent
    after the 4-byte header. *)
Theorem read_hex_round_trip
    (bs : list Z) (stdin : list Ascii.ascii) (arr : list Z) (arr_len : Z)
    (dev : sg_io_hdr -> bool) (page_code byte1 : Z) :
  bs <> [] ->
  Forall is_byte bs ->
  (List.length bs <= 1024)%nat ->
  (List.length bs <= List.length arr)%nat ->
  read_hex (hex_text bs) stdin arr arr_len
  = Some (0, bs ++ skipn (List.length bs) arr, Z.of_nat (List.length bs), [])
  /\ ((List.length bs <= 1020)%nat ->
      In page_code [0x2; 0x4; 0x5; 0x6; 0xc] ->
      is_byte byte1 ->
      exists data_arr out io,
        main_data (hex_text bs) stdin
        = Some ([], Some (data_arr, Z.of_nat (List.length bs)))
        /\ main_control dev page_code byte1 data_arr (Z.of_nat (List.length bs))
           = Some (out, [io], if dev io then 0 else 1)
        /\ transferred io
           = [page_code; byte1;
              Z.of_nat (List.length bs) / 256; Z.of_nat (List.length bs) mod 256]
             ++ bs).
Proof.
  intros Hne Hb Hmax Hroom. split; [apply read_hex_text; assumption|].
  intros Hdata Hpc Hb1.
  set (data_arr := [0; 0; 0; 0] ++ bs ++ skipn (List.length bs) (repeat 0 1020)).
  assert (Hlen : List.length data_arr = 1024%nat).
  { subst data_arr. rewrite !length_app, length_skipn, repeat_length.
    cbn [List.length]. lia. }
  destruct (main_control_sends dev page_code byte1 data_arr
              (Z.of_nat (List.length bs)) Hpc Hb1 Hlen ltac:(lia))
    as (out & io & Hrun & _ & _ & Htr).
  exists data_arr, out, io. split; [|split; [exact Hrun|]].
  - unfold main_data.
    rewrite read_hex_text by (try assumption; rewrite repeat_length; lia).
    reflexivity.
  - rewrite Htr. f_equal. subst data_arr.
    change (skipn 4 ([0; 0; 0; 0] ++ bs ++ skipn (List.length bs) (repeat 0 1020)))
      with (bs ++ skipn (List.length bs) (repeat 0 1020)).
    rewrite Nat2Z.id, firstn_app, Nat.sub_diag, firstn_all. cbn [firstn].
    apply app_nil_r.
Qed.

Lemma read_hex_round_trip_witness :
  [0x80; 0x01] <> []
  /\ read_hex (chars "80,01") [] (repeat 0 1020) 0
     = Some (0, [0x80; 0x01] ++ skipn 2 (repeat 0 1020), 2, []).
Proof.
  split; [discriminate|].
  apply (proj1 (read_hex_round_trip [0x80; 0x01] [] (repeat 0 1020) 0
                  (fun _ => true) 0x2 0
                  ltac:(discriminate)
                  ltac:(repeat constructor; unfold is_byte; lia)
                  ltac:(cbn; lia)
                  ltac:(rewrite repeat_length; cbn; lia))).
Defined.

(** X23. [read_hex] does not know how much room the array has: a text of
    wellformed bytes that holds more values than the array has entries makes
    it store past the end of the array (for an array of fewer than 1024
    entries).  [main] passes the 1020 bytes that follow the header in
    [data_arr], so data of more than 1020 bytes overruns [data_arr]. *)
Theorem read_hex_overruns_a_short_array
    (bs : list Z) (stdin : list Ascii.ascii) (arr : list Z) (arr_len : Z) :
  Forall is_byte bs ->
  (List.length arr < List.length bs)%nat ->
  (List.length arr < 1024)%nat ->
  read_hex (hex_text bs) stdin arr arr_len = None
  /\ ((1020 < List.length bs)%nat -> main_data (hex_text bs) stdin = None).
Proof.
  intros Hb Hroom Hcap.
  assert (Hne : bs <> []) by (destruct bs; [cbn in Hroom; lia|discriminate]).
  assert (Hrun : forall a l, (List.length a < List.length bs)%nat ->
                   (List.length a < 1024)%nat ->
                   read_hex (hex_text bs) stdin a l = None).
  { intros a l Ha Hc. unfold read_hex.
    destruct (hex_text_starts bs Hne Hb) as (c & rest & Htext & Hdash).
    rewrite Htext at 1. rewrite Hdash.
    rewrite strspn_hex_text by exact Hb. rewrite Nat.eqb_refl. cbn [negb].
    pose proof (read_hex_args_overrun bs 1024 0 0 a Hb) as Hl.
    change (Z.of_nat 0) with 0 in Hl. rewrite Hl; [reflexivity|lia|lia|lia]. }
  split; [apply Hrun; assumption|].
  intro Hbig. unfold main_data.
  rewrite Hrun by (rewrite repeat_length; lia). reflexivity.
Qed.

Lemma read_hex_overruns_a_short_array_witness :
  (List.length [0] < List.length [0x80; 0x01])%nat
  /\ read_hex (hex_text [0x80; 0x01]) [] [0] 0 = None.
Proof.
  split; [cbn; lia|].
  apply (proj1 (read_hex_overruns_a_short_array [0x80; 0x01] [] [0] 0
                  ltac:(repeat constructor; unfold is_byte; lia)
                  ltac:(cbn; lia) ltac:(cbn; lia))).
Defined.
















